(** * code_context_retriever: extraction, embedding, vector index, query

    A shallow embedding of the Python package [code_context_retriever]
    and the properties of its extraction -> embedding -> index -> query
    pipeline.

    Conventions of the embedding.
    - A Python [str] is a list of characters ([list ascii]); the model
      covers ASCII text.
    - A Python [float] (and a numpy float32/float64 entry) is a real
      number: rounding is idealised away, [astype(np.float32)] and
      [float(...)] are the identity.
    - A Python exception that leaves a function is a [Raise] outcome.
    - A [Dict[str, Any]] is a [gmap string value].
    - Files on disk are a finite map from path to content. *)

From Stdlib Require Import Reals Lra Lia ZArith List Ascii String Bool.
From stdpp Require Import base gmap strings list.
Import ListNotations.

Local Open Scope nat_scope.

(** ** Python values, exceptions *)

Abbreviation str := (list ascii).

Definition py (s : string) : str := list_ascii_of_string s.

Inductive exn : Type :=
| ValueError
| IndexError
| KeyError
| TypeError
| AttributeError
| NameError.

Inductive outcome (A : Type) : Type :=
| Ret (a : A)
| Raise (e : exn).

Arguments Ret {A} a.
Arguments Raise {A} e.

Definition obind {A B} (x : outcome A) (f : A -> outcome B) : outcome B :=
  match x with
  | Ret a => f a
  | Raise e => Raise e
  end.

Notation "'do' x <- c1 ; c2" := (obind c1 (fun x => c2))
  (at level 10, x name, c1 at level 100, c2 at level 200).

(** [[f(x) for x in l]] with a body that may raise: the first exception
    aborts the whole comprehension. *)
Fixpoint omap {A B} (f : A -> outcome B) (l : list A) : outcome (list B) :=
  match l with
  | [] => Ret []
  | x :: xs => do y <- f x; do ys <- omap f xs; Ret (y :: ys)
  end.

(** Keep the entries that are present, in order. *)
Fixpoint omap_id {A} (l : list (option A)) : list A :=
  match l with
  | [] => []
  | Some x :: l' => x :: omap_id l'
  | None :: l' => omap_id l'
  end.

Inductive value : Type :=
| VStr (s : str)
| VInt (z : Z)
| VFloat (r : R)
| VNone.

(** ** Python string operations *)

Module PyStr.

Definition nl : ascii := ascii_of_nat 10.

Definition is_nl (c : ascii) : bool := nat_of_ascii c =? 10.

(** [str.isspace] on one ASCII character: TAB, LF, VT, FF, CR,
    FS, GS, RS, US and space. *)
Definition isspace (c : ascii) : bool :=
  let n := nat_of_ascii c in
  ((9 <=? n) && (n <=? 13)) || ((28 <=? n) && (n <=? 32)).

Fixpoint lstrip (s : str) : str :=
  match s with
  | c :: s' => if isspace c then lstrip s' else s
  | [] => []
  end.

Definition rstrip (s : str) : str := rev (lstrip (rev s)).

Definition strip (s : str) : str := rstrip (lstrip s).

(** [s.count('\n')] *)
Fixpoint count_nl (s : str) : nat :=
  match s with
  | c :: s' => (if is_nl c then 1 else 0) + count_nl s'
  | [] => 0
  end.

Definition ascii_eqb (a b : ascii) : bool := nat_of_ascii a =? nat_of_ascii b.

Fixpoint str_eqb (a b : str) : bool :=
  match a, b with
  | [], [] => true
  | x :: a', y :: b' => ascii_eqb x y && str_eqb a' b'
  | _, _ => false
  end.

Fixpoint startswith (s p : str) : bool :=
  match p, s with
  | [], _ => true
  | y :: p', x :: s' => ascii_eqb x y && startswith s' p'
  | _ :: _, [] => false
  end.

Definition endswith (s p : str) : bool := startswith (rev s) (rev p).

(** [s[a:b]] for non-negative [a] and [b]. *)
Definition slice (s : str) (a b : nat) : str := firstn (b - a) (skipn a s).

(** [s.find(c, start)] for a one-character needle; [None] is Python's -1. *)
Fixpoint find_from (c : ascii) (s : str) (pos : nat) : option nat :=
  match s with
  | [] => None
  | x :: s' => if ascii_eqb x c then Some pos else find_from c s' (S pos)
  end.

Definition find (c : ascii) (s : str) (start : nat) : option nat :=
  find_from c (skipn start s) start.

(** [os.path.basename]: what follows the last slash. *)
Fixpoint basename_aux (s acc : str) : str :=
  match s with
  | [] => rev acc
  | c :: s' => if ascii_eqb c "/"%char then basename_aux s' [] else basename_aux s' (c :: acc)
  end.

Definition basename (s : str) : str := basename_aux s [].

(** [str.splitlines] on ASCII input: LF, CR, CRLF, VT, FF, FS, GS, RS end
    a line; a final line without terminator is kept. *)
Definition is_linebreak (c : ascii) : bool :=
  let n := nat_of_ascii c in
  ((10 <=? n) && (n <=? 13)) || ((28 <=? n) && (n <=? 30)).

Fixpoint splitlines_aux (s cur : str) : list str :=
  match s with
  | [] => match cur with [] => [] | _ => [rev cur] end
  | c :: s' =>
      if is_linebreak c then
        match s' with
        | d :: s'' =>
            if (nat_of_ascii c =? 13) && (nat_of_ascii d =? 10)
            then rev cur :: splitlines_aux s'' []
            else rev cur :: splitlines_aux s' []
        | [] => [rev cur]
        end
      else splitlines_aux s' (c :: cur)
  end.

Definition splitlines (s : str) : list str := splitlines_aux s [].

(** ["\n".join(lines)] *)
Fixpoint join_nl (ls : list str) : str :=
  match ls with
  | [] => []
  | [l] => l
  | l :: ls' => l ++ nl :: join_nl ls'
  end.

End PyStr.

(** ** The fragment of Python's [re] the extractors use

    A backtracking matcher with Python's priorities: alternatives left to
    right, greedy repetition tries one more iteration first, lazy repetition
    tries the continuation first. *)

Module Re.

Inductive re : Type :=
| Eps
| Cls (p : ascii -> bool)
| Cat (r1 r2 : re)
| Alt (r1 r2 : re)
| Star (greedy : bool) (r : re)
| Grp (n : nat) (r : re)
| Bol
| Eol.

(** A position in the subject: the characters before it (nearest first)
    and the characters after it. *)
Record cursor : Type := { before : str; after : str }.

Definition pos_of (c : cursor) : nat := length (before c).

Definition caps : Type := list (nat * str).

Fixpoint rmatch {A : Type} (r : re) (k : cursor -> caps -> option A)
         (c : cursor) (g : caps) {struct r} : option A :=
  match r with
  | Eps => k c g
  | Cls p =>
      match after c with
      | x :: xs => if p x then k {| before := x :: before c; after := xs |} g else None
      | [] => None
      end
  | Cat r1 r2 => rmatch r1 (fun c' g' => rmatch r2 k c' g') c g
  | Alt r1 r2 =>
      match rmatch r1 k c g with
      | Some a => Some a
      | None => rmatch r2 k c g
      end
  | Star greedy r1 =>
      (fix loop (n : nat) (c : cursor) (g : caps) {struct n} : option A :=
         let more (_ : unit) :=
           match n with
           | O => None
           | S n' =>
               rmatch r1
                 (fun c' g' =>
                    if length (after c') <? length (after c) then loop n' c' g' else None)
                 c g
           end in
         if greedy then
           match more tt with
           | Some a => Some a
           | None => k c g
           end
         else
           match k c g with
           | Some a => Some a
           | None => more tt
           end) (length (after c)) c g
  | Grp n r1 =>
      rmatch r1
        (fun c' g' =>
           k c' ((n, firstn (length (after c) - length (after c')) (after c)) :: g'))
        c g
  | Bol =>
      match before c with
      | [] => k c g
      | x :: _ => if PyStr.is_nl x then k c g else None
      end
  | Eol =>
      match after c with
      | [] => k c g
      | x :: _ => if PyStr.is_nl x then k c g else None
      end
  end.

(** A match object: [start()], [end()], [group(0)] and the numbered groups. *)
Record mobj : Type :=
  { m_start : nat; m_end : nat; m_group0 : str; m_groups : caps }.

Fixpoint lookup_group (n : nat) (g : caps) : str :=
  match g with
  | [] => []
  | (m, s) :: g' => if m =? n then s else lookup_group n g'
  end.

Definition group (m : mobj) (n : nat) : str :=
  match n with
  | O => m_group0 m
  | _ => lookup_group n (m_groups m)
  end.

Definition match_at (r : re) (c : cursor) : option (mobj * cursor) :=
  rmatch r
    (fun c' g =>
       Some ({| m_start := pos_of c; m_end := pos_of c';
                m_group0 := firstn (pos_of c' - pos_of c) (after c);
                m_groups := g |}, c'))
    c [].

(** [pattern.search]: the leftmost position at which the pattern matches. *)
Fixpoint search_from (r : re) (bef aft : str) {struct aft} : option (mobj * cursor) :=
  match match_at r {| before := bef; after := aft |} with
  | Some res => Some res
  | None =>
      match aft with
      | [] => None
      | x :: aft' => search_from r (x :: bef) aft'
      end
  end.

Definition search (r : re) (s : str) : option mobj :=
  option_map fst (search_from r [] s).

(** [pattern.finditer]: successive non-overlapping matches, each search
    resuming where the previous match ended (one character further after
    an empty match). *)
Fixpoint finditer_from (fuel : nat) (r : re) (c : cursor) : list mobj :=
  match fuel with
  | O => []
  | S fuel' =>
      match search_from r (before c) (after c) with
      | None => []
      | Some (m, c') =>
          if m_end m =? m_start m then
            match after c' with
            | [] => [m]
            | x :: xs => m :: finditer_from fuel' r {| before := x :: before c'; after := xs |}
            end
          else m :: finditer_from fuel' r c'
      end
  end.

Definition finditer (r : re) (s : str) : list mobj :=
  finditer_from (S (length s)) r {| before := []; after := s |}.

(** Pattern constructors. *)
Definition chr (a : ascii) : re := Cls (PyStr.ascii_eqb a).
Definition not_chr (a : ascii) : re := Cls (fun x => negb (PyStr.ascii_eqb a x)).

Fixpoint lit (s : str) : re :=
  match s with
  | [] => Eps
  | a :: s' => Cat (chr a) (lit s')
  end.

Definition plus (greedy : bool) (r : re) : re := Cat r (Star greedy r).
Definition opt (r : re) : re := Alt r Eps.

(** [r{0,n}], greedy *)
Fixpoint upto (n : nat) (r : re) : re :=
  match n with
  | O => Eps
  | S n' => opt (Cat r (upto n' r))
  end.

(** [\s], [\w], [.] without and with DOTALL *)
Definition space : re := Cls PyStr.isspace.

Definition is_word (c : ascii) : bool :=
  let n := nat_of_ascii c in
  ((48 <=? n) && (n <=? 57)) || ((65 <=? n) && (n <=? 90))
  || ((97 <=? n) && (n <=? 122)) || (n =? 95).

Definition word : re := Cls is_word.
Definition dot : re := Cls (fun c => negb (PyStr.is_nl c)).
Definition any : re := Cls (fun _ => true).

Fixpoint cats (rs : list re) : re :=
  match rs with
  | [] => Eps
  | [r] => r
  | r :: rs' => Cat r (cats rs')
  end.

End Re.

(** ** Extractors *)

(** The dictionary every extractor emits for one chunk. *)
Record Chunk : Type :=
  { file : str;
    name : str;
    type : str;
    code : str;
    docstring : str;
    full_text : str;
    line_start : nat;
    line_end : nat }.

(** What [file_path] denotes on disk. [text] is [None] when the bytes do not
    decode as UTF-8. *)
Inductive fs_entry : Type :=
| Absent
| NotRegular
| Regular (size : nat) (text : option str).

Module BaseExtractor.

Definition default_max_file_size : nat := 1024 * 1024.

(** [BaseExtractor.is_valid_file] *)
Definition is_valid_file (max_file_size : nat) (e : fs_entry) : bool :=
  match e with
  | Absent => false
  | NotRegular => false
  | Regular size text =>
      if max_file_size <? size then false
      else match text with Some _ => true | None => false end
  end.

End BaseExtractor.

Module MarkdownExtractor.

Record config : Type :=
  { split_by_headings : option bool;
    max_file_size : option nat }.

Definition default_config : config :=
  {| split_by_headings := None; max_file_size := None |}.

(** [r'^(#{1,6})\s+(.+?)$'] with [re.MULTILINE] *)
Definition heading_pattern : Re.re :=
  Re.cats
    [ Re.Bol;
      Re.Grp 1 (Re.Cat (Re.chr "#") (Re.upto 5 (Re.chr "#")));
      Re.plus true Re.space;
      Re.Grp 2 (Re.plus false Re.dot);
      Re.Eol ].

Record section : Type := { heading : str; content : str }.

(** The loop of [_split_by_headings] over [enumerate(headings)]: the
    section of a heading runs to the start of the next heading, or to the
    end of the text. *)
Fixpoint sections_of (text : str) (headings : list Re.mobj) : list section :=
  match headings with
  | [] => []
  | m :: rest =>
      let end_pos :=
        match rest with
        | m' :: _ => Re.m_start m'
        | [] => length text
        end in
      {| heading := PyStr.strip (Re.group m 2);
         content := PyStr.slice text (Re.m_start m) end_pos |}
      :: sections_of text rest
  end.

Definition _split_by_headings (text : str) : list section :=
  match Re.finditer heading_pattern text with
  | [] => [ {| heading := py "Document"; content := text |} ]
  | headings => sections_of text headings
  end.

(** The loop over [sections] in [extract_chunks], [line_count] threaded. *)
Fixpoint section_chunks (file_path : str) (line_count : nat) (sections : list section)
  : list Chunk :=
  match sections with
  | [] => []
  | s :: rest =>
      match PyStr.strip (content s) with
      | [] => section_chunks file_path line_count rest
      | _ :: _ =>
          let section_lines := PyStr.count_nl (content s) + 1 in
          let line_start := line_count in
          let line_end := line_count + section_lines - 1 in
          {| file := file_path;
             name := PyStr.basename file_path ++ py ":" ++ heading s;
             type := py "section";
             code := [];
             docstring := content s;
             full_text := content s;
             line_start := line_start;
             line_end := line_end |}
          :: section_chunks file_path (line_end + 1) rest
      end
  end.

Definition document_chunk (file_path text : str) : Chunk :=
  {| file := file_path;
     name := PyStr.basename file_path;
     type := py "document";
     code := [];
     docstring := text;
     full_text := text;
     line_start := 1;
     line_end := PyStr.count_nl text + 1 |}.

(** [MarkdownExtractor.extract_chunks] *)
Definition extract_chunks (cfg : config) (file_path : str) (e : fs_entry) : list Chunk :=
  if negb (BaseExtractor.is_valid_file
             (default BaseExtractor.default_max_file_size (max_file_size cfg)) e)
  then []
  else
    match e with
    | Regular _ (Some text) =>
        document_chunk file_path text
        :: (if default true (split_by_headings cfg)
            then section_chunks file_path 1 (_split_by_headings text)
            else [])
    | _ => []
    end.

End MarkdownExtractor.

Module TypeScriptExtractor.

Import Re.

Definition export_prefix : re := opt (Cat (lit (py "export")) (plus true space)).

(** [(?:export\s+)?(?:async\s+)?function\s+(\w+)\s*\([^)]*\)\s*(?::\s*[^{]+)?\s*\{] *)
Definition function_pattern : re :=
  cats
    [ export_prefix;
      opt (Cat (lit (py "async")) (plus true space));
      lit (py "function");
      plus true space;
      Grp 1 (plus true word);
      Star true space;
      chr "(";
      Star true (not_chr ")");
      chr ")";
      Star true space;
      opt (cats [chr ":"; Star true space; plus true (not_chr "{")]);
      Star true space;
      chr "{" ].

(** [(?:export\s+)?class\s+(\w+)(?:\s+extends\s+\w+)?(?:\s+implements\s+[^{]+)?\s*\{] *)
Definition class_pattern : re :=
  cats
    [ export_prefix;
      lit (py "class");
      plus true space;
      Grp 1 (plus true word);
      opt (cats [plus true space; lit (py "extends"); plus true space; plus true word]);
      opt (cats [plus true space; lit (py "implements"); plus true space;
                 plus true (not_chr "{")]);
      Star true space;
      chr "{" ].

(** [(?:export\s+)?interface\s+(\w+)(?:\s+extends\s+[^{]+)?\s*\{] *)
Definition interface_pattern : re :=
  cats
    [ export_prefix;
      lit (py "interface");
      plus true space;
      Grp 1 (plus true word);
      opt (cats [plus true space; lit (py "extends"); plus true space;
                 plus true (not_chr "{")]);
      Star true space;
      chr "{" ].

(** [(?:export\s+)?const\s+(\w+)\s*=\s*(?:\([^)]*\)|[^=]+)\s*=>\s*(?:\{|\()] *)
Definition arrow_pattern : re :=
  cats
    [ export_prefix;
      lit (py "const");
      plus true space;
      Grp 1 (plus true word);
      Star true space;
      chr "=";
      Star true space;
      Alt (cats [chr "("; Star true (not_chr ")"); chr ")"]) (plus true (not_chr "="));
      Star true space;
      lit (py "=>");
      Star true space;
      Alt (chr "{") (chr "(") ].

(** [r'/\*\*(.*?)\*/'] with [re.DOTALL] *)
Definition jsdoc_pattern : re :=
  cats [ lit (py "/**"); Grp 1 (Star false any); lit (py "*/") ].

(** [_extract_docstring] *)
Definition _extract_docstring (content : str) (pos : nat) : str :=
  let search_area := PyStr.rstrip (firstn pos content) in
  match search jsdoc_pattern search_area with
  | Some m =>
      if PyStr.endswith search_area (group m 0)
      then PyStr.strip (group m 1)
      else []
  | None => []
  end.

(** The [while pos < len(content) and brace_count > 0] loop of
    [_extract_code_block], run over the text from [pos] on. *)
Fixpoint scan_braces (rest : str) (brace_count pos : nat) : nat * nat :=
  match rest with
  | [] => (brace_count, pos)
  | c :: rest' =>
      if brace_count =? 0 then (brace_count, pos)
      else
        let brace_count' :=
          if PyStr.ascii_eqb c "{" then brace_count + 1
          else if PyStr.ascii_eqb c "}" then brace_count - 1
          else brace_count in
        scan_braces rest' brace_count' (S pos)
  end.

(** [_extract_code_block] *)
Definition _extract_code_block (content : str) (start_pos : nat) : str * nat * nat :=
  match PyStr.find "{" content start_pos with
  | None => ([], 0, 0)
  | Some open_brace_pos =>
      let '(brace_count, pos) :=
        scan_braces (skipn (open_brace_pos + 1) content) 1 (open_brace_pos + 1) in
      if negb (brace_count =? 0) then ([], 0, 0)
      else
        let end_pos := pos in
        let snippet := PyStr.slice content start_pos end_pos in
        let lines_before := PyStr.count_nl (firstn start_pos content) + 1 in
        let lines_after := PyStr.count_nl (firstn end_pos content) + 1 in
        (snippet, lines_before, lines_after)
  end.

(** The body shared by [_extract_functions], [_extract_classes],
    [_extract_interfaces] and [_extract_arrow_functions]: one candidate
    chunk per pattern match. *)
Definition chunk_of_match (kind file_path content : str) (m : mobj) : option Chunk :=
  let nm := group m 1 in
  let start_pos := m_start m in
  let doc := _extract_docstring content start_pos in
  let '(snippet, line_start, line_end) := _extract_code_block content start_pos in
  match snippet with
  | [] => None
  | _ :: _ =>
      Some {| file := file_path;
              name := nm;
              type := kind;
              code := snippet;
              docstring := doc;
              full_text := match doc with
                           | [] => snippet
                           | _ :: _ => snippet ++ PyStr.nl :: doc
                           end;
              line_start := line_start;
              line_end := line_end |}
  end.

Definition extract_with (pattern : re) (kind file_path content : str) : list Chunk :=
  omap_id (map (chunk_of_match kind file_path content) (finditer pattern content)).

Definition _extract_functions := extract_with function_pattern (py "function").
Definition _extract_classes := extract_with class_pattern (py "class").
Definition _extract_interfaces := extract_with interface_pattern (py "interface").
Definition _extract_arrow_functions := extract_with arrow_pattern (py "arrow_function").

(** [TypeScriptExtractor.extract_chunks] *)
Definition extract_chunks (max_file_size : option nat) (file_path : str) (e : fs_entry)
  : list Chunk :=
  if negb (BaseExtractor.is_valid_file
             (default BaseExtractor.default_max_file_size max_file_size) e)
  then []
  else
    match e with
    | Regular _ (Some content) =>
        _extract_functions file_path content
        ++ _extract_classes file_path content
        ++ _extract_interfaces file_path content
        ++ _extract_arrow_functions file_path content
    | _ => []
    end.

End TypeScriptExtractor.

Module PythonExtractor.

(** The part of a parsed [ast] tree the extractor looks at. The parser is
    the standard library's; its result is an input of the model. Line
    numbers are 1-based. [doc] is [ast.get_docstring(node)]; [body] is the
    node's [body] attribute and [orelse] its other child statements. *)
Inductive node_kind : Type :=
| FunctionDef
| AsyncFunctionDef
| ClassDef
| OtherStmt.

#[local] Set Warnings "-register-all".

Inductive node : Type :=
| Node (kind : node_kind) (nm : str) (lineno : nat) (end_lineno : option nat)
       (doc : option str) (body orelse : list node).

Record module_ast : Type :=
  { module_docstring : option str;
    module_body : list node }.

Definition lineno_of (n : node) : nat := let 'Node _ _ l _ _ _ _ := n in l.
Definition end_lineno_of (n : node) : option nat := let 'Node _ _ _ e _ _ _ := n in e.
Definition body_of (n : node) : list node := let 'Node _ _ _ _ _ b _ := n in b.
Definition children (n : node) : list node := let 'Node _ _ _ _ _ b o := n in b ++ o.
Definition kind_of (n : node) : node_kind := let 'Node k _ _ _ _ _ _ := n in k.

Fixpoint size (n : node) : nat :=
  let 'Node _ _ _ _ _ b o := n in
  S ((fix sizes (l : list node) : nat :=
        match l with [] => 0 | x :: l' => size x + sizes l' end) b
     + (fix sizes (l : list node) : nat :=
          match l with [] => 0 | x :: l' => size x + sizes l' end) o).

(** [ast.walk]: breadth first, a queue of nodes still to visit. *)
Fixpoint walk_queue (fuel : nat) (todo : list node) : list node :=
  match fuel, todo with
  | S fuel', n :: rest => n :: walk_queue fuel' (rest ++ children n)
  | _, _ => []
  end.

Definition walk (m : module_ast) : list node :=
  walk_queue (list_sum (map size (module_body m))) (module_body m).

(** [type(node).__name__.replace('Def', '').lower()] *)
Definition node_type (k : node_kind) : str :=
  match k with
  | FunctionDef => py "function"
  | AsyncFunctionDef => py "asyncfunction"
  | ClassDef => py "class"
  | OtherStmt => py "otherstmt"
  end.

(** [_extract_node] *)
Definition _extract_node (n : node) (file_path file_content : str) : Chunk :=
  let 'Node kind nm lineno end_lineno doc body _ := n in
  let docstring := default [] doc in
  let start_line := lineno - 1 in
  let end_line := default lineno end_lineno in
  let end_line :=
    match body with
    | [] => end_line
    | _ :: _ =>
        let end_body :=
          fold_right Nat.max 0 (map (fun b => default lineno (end_lineno_of b)) body) in
        Nat.max end_line end_body
    end in
  let code_lines := firstn (end_line - start_line) (skipn start_line (PyStr.splitlines file_content)) in
  let code_snippet := PyStr.join_nl code_lines in
  {| file := file_path;
     name := nm;
     type := node_type kind;
     code := code_snippet;
     docstring := docstring;
     full_text := match docstring with
                  | [] => code_snippet
                  | _ :: _ => code_snippet ++ PyStr.nl :: docstring
                  end;
     line_start := start_line + 1;
     line_end := end_line |}.

Definition module_chunk (file_path doc : str) : Chunk :=
  {| file := file_path;
     name := file_path ++ py ":module";
     type := py "module";
     code := [];
     docstring := doc;
     full_text := doc;
     line_start := 1;
     line_end := (PyStr.count_nl doc + 1) + 1 |}.

Definition is_def (n : node) : bool :=
  match kind_of n with
  | OtherStmt => false
  | _ => true
  end.

(** [PythonExtractor.extract_chunks]; [parsed] is the result of
    [ast.parse] on the file's text, [None] when it raises. *)
Definition extract_chunks (max_file_size : option nat) (file_path : str) (e : fs_entry)
           (parsed : option module_ast) : list Chunk :=
  if negb (BaseExtractor.is_valid_file
             (default BaseExtractor.default_max_file_size max_file_size) e)
  then []
  else
    match e, parsed with
    | Regular _ (Some file_content), Some m =>
        (match module_docstring m with
         | Some (_ :: _ as doc) => [module_chunk file_path doc]
         | _ => []
         end)
        ++ map (fun n => _extract_node n file_path file_content) (filter is_def (walk m))
    | _, _ => []
    end.

End PythonExtractor.

(** A TypeScript file with two documented functions. *)
Definition two_documented_functions : str := py "/** a */
function f() {}
/** b */
function g() {}".

(** ** Vectors and matrices *)

Abbreviation vec := (list R).
Abbreviation matrix := (list (list R)).

(** [np.zeros(d)] and [np.zeros((n, d))] *)
Definition np_zeros (d : nat) : vec := replicate d 0%R.
Definition np_zeros2 (n d : nat) : matrix := replicate n (np_zeros d).

(** The row that the assignment [result[i] = v] stores into a matrix with
    [d] columns: [v] itself when the lengths agree, [v] broadcast when it has
    a single entry, and no row (a [ValueError]) otherwise. *)
Definition broadcast_row (d : nat) (v : vec) : option vec :=
  if length v =? d then Some v
  else match v with
       | [x] => Some (replicate d x)
       | _ => None
       end.

(** [result[i] = v] *)
Definition set_row (d : nat) (result : matrix) (i : nat) (v : vec) : outcome matrix :=
  if i <? length result then
    match broadcast_row d v with
    | Some row => Ret (<[i := row]> result)
    | None => Raise ValueError
    end
  else Raise IndexError.

(** [np.vstack]: at least one block, and all rows of one length. *)
Definition same_width (rows : matrix) : bool :=
  match rows with
  | [] => true
  | r :: rows' => forallb (fun r' => length r' =? length r) rows'
  end.

Definition np_vstack (blocks : list matrix) : outcome matrix :=
  match blocks with
  | [] => Raise ValueError
  | _ :: _ => if same_width (concat blocks) then Ret (concat blocks) else Raise ValueError
  end.

(** ** Embedding service *)

Module Embedder.

(** The two kinds of embedding provider the constructor sets up: a local
    sentence-transformers model, whose [encode] takes one text or a list
    of texts, and a DSPy embedder, called on one text at a time. Both are
    external; a call may raise. *)
Inductive provider : Type :=
| LocalModel (encode : str -> outcome vec) (encode_many : list str -> outcome (list vec))
| DSPy (call : str -> outcome vec).

Record t : Type :=
  { cache_dir : string;
    use_cache : bool;
    batch_size : Z;
    max_workers : nat;
    embed_dim : nat;
    model : provider }.

(** A file of the cache directory: a saved array, or bytes [np.load]
    rejects. *)
Inductive cache_file : Type :=
| Npy (v : vec)
| Unreadable.

Section WithDigest.

(** [hashlib.md5(text.encode('utf-8')).hexdigest()] *)
Variable md5_hexdigest : str -> string.

(** [_get_cache_path] *)
Definition _get_cache_path (e : t) (text : str) : string :=
  cache_dir e +:+ "/" +:+ md5_hexdigest text +:+ ".npy".

(** [_get_from_cache] *)
Definition _get_from_cache (e : t) (disk : gmap string cache_file) (text : str)
  : option vec :=
  match disk !! _get_cache_path e text with
  | Some (Npy v) => Some v
  | Some Unreadable => None
  | None => None
  end.

(** [_save_to_cache] *)
Definition _save_to_cache (e : t) (disk : gmap string cache_file) (text : str) (v : vec)
  : gmap string cache_file :=
  <[_get_cache_path e text := Npy v]> disk.

Definition call_one (p : provider) (text : str) : outcome vec :=
  match p with
  | LocalModel encode _ => encode text
  | DSPy call => call text
  end.

(** The provider call of [_process_batch]: one [encode] call of the
    local model, or one DSPy call per text. *)
Definition call_many (p : provider) (texts : list str) : outcome (list vec) :=
  match p with
  | LocalModel _ encode_many => encode_many texts
  | DSPy call => omap call texts
  end.

(** [embed] *)
Definition embed (e : t) (disk : gmap string cache_file) (text : str)
  : vec * gmap string cache_file :=
  match (if use_cache e then _get_from_cache e disk text else None) with
  | Some cached_embedding => (cached_embedding, disk)
  | None =>
      match call_one (model e) text with
      | Ret embedding_np =>
          (embedding_np,
           if use_cache e then _save_to_cache e disk text embedding_np else disk)
      | Raise _ => (np_zeros (embed_dim e), disk)
      end
  end.

(** The cache loop of [_process_batch]: [result[i] = cached] for the
    texts found in the cache, the others queued in [to_embed]. An
    assignment that raises leaves the function. *)
Fixpoint check_cache (e : t) (disk : gmap string cache_file) (i : nat) (texts : list str)
         (result : matrix) (to_embed : list (nat * str))
  : outcome (matrix * list (nat * str)) :=
  match texts with
  | [] => Ret (result, to_embed)
  | text :: texts' =>
      match _get_from_cache e disk text with
      | Some cached =>
          do result' <- set_row (embed_dim e) result i cached;
          check_cache e disk (S i) texts' result' to_embed
      | None => check_cache e disk (S i) texts' result (to_embed ++ [(i, text)])
      end
  end.

Fixpoint enumerate_from {A} (i : nat) (l : list A) : list (nat * A) :=
  match l with
  | [] => []
  | x :: l' => (i, x) :: enumerate_from (S i) l'
  end.

(** The loop [for j, idx in enumerate(batch_indices)] of
    [_process_batch], inside its [try]: the first failing step
    ([batch_embeddings[j]] out of range, or a row of the wrong shape)
    ends the loop and keeps what was stored so far. *)
Fixpoint store_embeddings (e : t) (to_embed : list (nat * str)) (batch_embeddings : list vec)
         (result : matrix) (disk : gmap string cache_file)
  : matrix * gmap string cache_file :=
  match to_embed with
  | [] => (result, disk)
  | (idx, text) :: to_embed' =>
      match batch_embeddings with
      | [] => (result, disk)
      | embedding :: batch_embeddings' =>
          match set_row (embed_dim e) result idx embedding with
          | Raise _ => (result, disk)
          | Ret result' =>
              store_embeddings e to_embed' batch_embeddings' result'
                (if use_cache e then _save_to_cache e disk text embedding else disk)
          end
      end
  end.

(** The block [if to_embed: try: ... except ...] of [_process_batch]:
    one provider call for the queued texts; when it raises, [result] and
    the cache stay as they are. *)
Definition embed_misses (e : t) (disk : gmap string cache_file) (result : matrix)
           (to_embed : list (nat * str)) : matrix * gmap string cache_file :=
  match to_embed with
  | [] => (result, disk)
  | _ :: _ =>
      match call_many (model e) (map snd to_embed) with
      | Raise _ => (result, disk)
      | Ret batch_embeddings => store_embeddings e to_embed batch_embeddings result disk
      end
  end.

(** [_process_batch] *)
Definition _process_batch (e : t) (disk : gmap string cache_file) (texts : list str)
  : outcome matrix * gmap string cache_file :=
  let result := np_zeros2 (length texts) (embed_dim e) in
  match (if use_cache e
         then check_cache e disk 0 texts result []
         else Ret (result, enumerate_from 0 texts)) with
  | Raise err => (Raise err, disk)
  | Ret (result, to_embed) =>
      let '(result', disk') := embed_misses e disk result to_embed in
      (Ret result', disk')
  end.

(** [[texts[i:i + n] for i in range(0, len(texts), n)]] for [n >= 1] *)
Fixpoint groups_of (fuel n : nat) (texts : list str) : list (list str) :=
  match fuel, texts with
  | S fuel', _ :: _ => firstn n texts :: groups_of fuel' n (skipn n texts)
  | _, _ => []
  end.

(** The worker pool: the groups are processed one after the other in the
    order [started], each on the cache the previous ones left; the
    result of group [b] is what its future holds. *)
Fixpoint run_workers (e : t) (started : list nat) (batches : list (list str))
         (disk : gmap string cache_file) (futures : gmap nat (outcome matrix))
  : gmap nat (outcome matrix) * gmap string cache_file :=
  match started with
  | [] => (futures, disk)
  | b :: started' =>
      match batches !! b with
      | Some batch =>
          let '(res, disk') := _process_batch e disk batch in
          run_workers e started' batches disk' (<[b := res]> futures)
      | None => run_workers e started' batches disk futures
      end
  end.

(** What the body of the [as_completed] loop stores for the future of
    group [batch_idx]: its result, or a zero block of the group's size
    when [future.result()] raises. *)
Definition slot_of (e : t) (batches : list (list str))
           (futures : gmap nat (outcome matrix)) (batch_idx : nat) : option matrix :=
  match futures !! batch_idx with
  | Some (Ret m) => Some m
  | Some (Raise _) =>
      Some (np_zeros2 (length (default [] (batches !! batch_idx))) (embed_dim e))
  | None => None
  end.

(** The loop over [as_completed(futures)]: the futures arrive in the
    order [completed]; [futures.index(future)] is the group's index and
    selects the slot of [batch_results]. *)
Fixpoint collect (e : t) (completed : list nat) (batches : list (list str))
         (futures : gmap nat (outcome matrix)) (batch_results : list (option matrix))
  : list (option matrix) :=
  match completed with
  | [] => batch_results
  | batch_idx :: completed' =>
      collect e completed' batches futures
        (<[batch_idx := slot_of e batches futures batch_idx]> batch_results)
  end.

Fixpoint all_some {A} (l : list (option A)) : option (list A) :=
  match l with
  | [] => Some []
  | Some x :: l' => option_map (cons x) (all_some l')
  | None :: _ => None
  end.

(** [batch_size or self.batch_size] *)
Definition effective_batch_size (e : t) (batch_size : option Z) : Z :=
  match batch_size with
  | Some b => if (b =? 0)%Z then Embedder.batch_size e else b
  | None => Embedder.batch_size e
  end.

(** [batch_embed]. [started] and [completed] are the order in which the
    pool runs the groups and the order in which their futures complete. *)
Definition batch_embed (e : t) (started completed : list nat)
           (disk : gmap string cache_file) (texts : list str) (batch_size : option Z)
  : outcome matrix * gmap string cache_file :=
  match texts with
  | [] => (Ret [], disk)
  | _ :: _ =>
      let bs := effective_batch_size e batch_size in
      if (bs =? 0)%Z then (Raise ValueError, disk)
      else
        let batches :=
          if (bs <? 0)%Z then [] else groups_of (length texts) (Z.to_nat bs) texts in
        let batch_results := replicate (length batches) None in
        let '(futures, disk') := run_workers e started batches disk ∅ in
        let batch_results := collect e completed batches futures batch_results in
        match all_some batch_results with
        | Some blocks => (np_vstack blocks, disk')
        | None => (Raise ValueError, disk')
        end
  end.

(** *** Vocabulary for the properties of the embedding service *)

(** What the cache check at the head of [embed] and [_process_batch]
    finds for a text. *)
Definition cached_of (e : t) (disk : gmap string cache_file) (text : str) : option vec :=
  if use_cache e then _get_from_cache e disk text else None.

Definition is_miss (e : t) (disk : gmap string cache_file) (text : str) : bool :=
  match cached_of e disk text with
  | Some _ => false
  | None => true
  end.

(** The texts of a group that reach the provider. *)
Definition misses (e : t) (disk : gmap string cache_file) (texts : list str) : list str :=
  filter (fun text => is_miss e disk text = true) texts.



(** The rows the storing loop of [_process_batch] writes for a provider
    answer [got] to [n] queued texts: the vectors of [got], one per queued
    text and in their order, up to the first one that is missing or that the
    result matrix rejects; there the loop ends. *)
Fixpoint stored_rows (e : t) (n : nat) (got : list vec) : list vec :=
  match n, got with
  | S n', v :: got' =>
      match broadcast_row (embed_dim e) v with
      | Some row => row :: stored_rows e n' got'
      | None => []
      end
  | _, _ => []
  end.






End WithDigest.

End Embedder.

(** ** Numeric helpers *)

Local Open Scope R_scope.

Definition Rleb (x y : R) : bool := if Rle_dec x y then true else false.

(** [np.dot] of two rows *)
Fixpoint dot (a b : vec) : R :=
  match a, b with
  | x :: a', y :: b' => x * y + dot a' b'
  | _, _ => 0
  end.

Definition norm2 (a : vec) : R := sqrt (dot a a).

(** [faiss.normalize_L2] on one row, which is also how scikit-learn's
    [cosine_similarity] normalises: divide by the Euclidean norm, a zero row
    is left as it is. *)
Definition normalize_L2 (a : vec) : vec :=
  if Req_dec_T (norm2 a) 0 then a else map (fun x => x / norm2 a) a.

(** [np.max] of a one-dimensional array; empty input is a [ValueError]. *)
Definition np_max (l : vec) : outcome R :=
  match l with
  | [] => Raise ValueError
  | x :: l' => Ret (fold_left Rmax l' x)
  end.

(** The additive constant [1e-6] of the score normalisation. *)
Definition eps : R := 1 / 1000000.

(** [np.argsort]: the indices ordered by ascending key. Ties keep the
    order of the indices (numpy's default sort leaves their order open). *)
Fixpoint insert_by_key (p : R * nat) (l : list (R * nat)) : list (R * nat) :=
  match l with
  | [] => [p]
  | q :: l' => if Rleb (fst p) (fst q) then p :: l else q :: insert_by_key p l'
  end.

Fixpoint index_from (i : nat) (l : vec) : list (R * nat) :=
  match l with
  | [] => []
  | x :: l' => (x, i) :: index_from (S i) l'
  end.

Definition np_argsort (keys : vec) : list nat :=
  map snd (fold_right insert_by_key [] (index_from 0 keys)).

Local Close Scope R_scope.

(** Python slices with a possibly negative bound: [l[start:]] and [l[:stop]]. *)
Definition py_slice_from {A} (l : list A) (start : Z) : list A :=
  let n := Z.of_nat (length l) in
  if (start <? 0)%Z then skipn (Z.to_nat (Z.max (n + start) 0)) l
  else skipn (Z.to_nat start) l.

Definition py_slice_to {A} (l : list A) (stop : Z) : list A :=
  let n := Z.of_nat (length l) in
  if (stop <? 0)%Z then firstn (Z.to_nat (Z.max (n + stop) 0)) l
  else firstn (Z.to_nat stop) l.

(** [l[i]] with Python's negative indices; out of range is an [IndexError]. *)
Definition py_getitem {A} (l : list A) (i : Z) : outcome A :=
  let n := Z.of_nat (length l) in
  let j := if (i <? 0)%Z then (n + i)%Z else i in
  if (j <? 0)%Z then Raise IndexError
  else match l !! Z.to_nat j with
       | Some x => Ret x
       | None => Raise IndexError
       end.

(** ** Vector index *)

Module VectorIndex.

Inductive faiss_kind : Type :=
| IndexFlatIP
| IndexFlatL2.

(** A FAISS flat index: its kind, its dimension [d] and the rows added. *)
Record faiss_index : Type :=
  { kind : faiss_kind;
    d : nat;
    rows : matrix }.

(** [self.index]: a FAISS index, or the matrix itself. *)
Inductive index_data : Type :=
| Faiss (ix : faiss_index)
| Numpy (m : matrix).

(** The keys of the configuration dictionary the index reads. *)
Record config : Type :=
  { cfg_index_dir : option string;
    cfg_use_faiss : option bool;
    cfg_metric : option string }.

Record t : Type :=
  { cfg : config;
    index_dir : string;
    use_faiss : bool;
    metric : string;
    index : option index_data;
    metadata : list (gmap string value);
    dimension : option nat }.

Inductive log_record : Type :=
| LogWarning (msg : string)
| LogInfo (msg : string)
| LogError (msg : string).

(** The persisted metadata envelope: a pickled dictionary, each of its
    three keys present or not. *)
Record envelope : Type :=
  { env_metadata : option (list (gmap string value));
    env_dimension : option (option nat);
    env_metric : option string }.

(** What a file of the index directory holds. *)
Inductive file_content : Type :=
| PickleFile (env : envelope)
| FaissFile (ix : faiss_index)
| NpyFile (m : matrix)
| NpyObjectFile
| Garbage.

Section WithBackend.

(** The module-level flag set by [import faiss]. *)
Variable FAISS_AVAILABLE : bool.

(** [index.search(query, k)] of the FAISS index: for the single query
    row, the list of (distance, label) pairs. *)
Variable index_search : faiss_index -> vec -> Z -> outcome (list (R * Z)).

(** The file system, as far as [save] and [load] see it. [realpath p] is
    the file the path [p] denotes: two paths may denote the same file. The
    map of files is keyed by it. [can_write p] tells whether a file can be
    created or replaced at [p]: its directory exists, the name is one the
    system admits, the permissions allow it. *)
Variable realpath : string -> string.
Variable can_write : string -> bool.

(** What [faiss.write_index] does when it is handed [None] instead of an
    index: it raises ([None] here), or it writes some file. The library
    decides. *)
Variable write_index_of_none : option file_content.

(** [__init__] *)
Definition __init__ (c : config) : t :=
  {| cfg := c;
     index_dir := default ".cache/vector_index" (cfg_index_dir c);
     use_faiss := FAISS_AVAILABLE && default true (cfg_use_faiss c);
     metric := default "l2" (cfg_metric c);
     index := None;
     metadata := [];
     dimension := None |}.

Definition with_index (s : t) (md : list (gmap string value)) (dim : nat)
           (ix : index_data) : t :=
  {| cfg := cfg s; index_dir := index_dir s; use_faiss := use_faiss s;
     metric := metric s; index := Some ix; metadata := md; dimension := Some dim |}.

(** [build]. The result is the new state and what was logged; the
    function has no [raise] and no check on [metadata]. *)
Definition build (s : t) (embeddings : matrix) (md : list (gmap string value))
  : outcome (t * list log_record) :=
  match embeddings with
  | [] => Ret (s, [LogWarning "No embeddings provided to build index"])
  | row0 :: _ =>
      let dim := length row0 in
      if use_faiss s then
        if String.eqb (metric s) "cosine" then
          Ret (with_index s md dim
                 (Faiss {| kind := IndexFlatIP; d := dim;
                           rows := map normalize_L2 embeddings |}),
               [LogInfo "Built FAISS index"])
        else
          Ret (with_index s md dim
                 (Faiss {| kind := IndexFlatL2; d := dim; rows := embeddings |}),
               [LogInfo "Built FAISS index"])
      else
        Ret (with_index s md dim (Numpy embeddings), [LogInfo "Built numpy index"])
  end.

(** [result = self.metadata[idx].copy(); result["score"] = ...;
    result["distance"] = ...] *)
Definition make_result (m : gmap string value) (score distance : R) : gmap string value :=
  <["distance" := VFloat distance]> (<["score" := VFloat score]> m).

(** The result loop of the FAISS branch over [enumerate(indices[0])];
    [hits] pairs each label with its distance and its similarity. *)
Fixpoint faiss_results (md : list (gmap string value)) (hits : list (R * R * Z))
  : outcome (list (gmap string value)) :=
  match hits with
  | [] => Ret []
  | (similarity, distance, idx) :: hits' =>
      if (idx <? Z.of_nat (length md))%Z then
        do m <- py_getitem md idx;
        do rest <- faiss_results md hits';
        Ret (make_result m similarity distance :: rest)
      else faiss_results md hits'
  end.

(** [sklearn.metrics.pairwise.cosine_similarity(query, index)[0]] *)
Definition cosine_similarity (query : vec) (m : matrix) : outcome vec :=
  match m, query with
  | [], _ => Raise ValueError
  | _, [] => Raise ValueError
  | _, _ =>
      if forallb (fun row => length row =? length query) m
      then Ret (map (fun row => dot (normalize_L2 query) (normalize_L2 row)) m)
      else Raise ValueError
  end.

(** One row of [self.index - query_embedding], with numpy's
    broadcasting of an axis of length one. *)
Definition row_minus (row query : vec) : outcome vec :=
  if length row =? length query then Ret (zip_with Rminus row query)
  else match query, row with
       | [q], _ => Ret (map (fun x => (x - q)%R) row)
       | _, [x] => Ret (map (fun q => (x - q)%R) query)
       | _, _ => Raise ValueError
       end.

(** [np.sqrt(np.sum(diff * diff, axis=1))] *)
Definition l2_distances (query : vec) (m : matrix) : outcome vec :=
  omap (fun row => do diff <- row_minus row query; Ret (norm2 diff)) m.

(** The result loops of the brute-force branch. The arithmetic is that of
    the real numbers; of the scores only what survives rounding is stated
    further on (order, and bounds that are not strict). *)
Definition cosine_result (md : list (gmap string value)) (sim : vec) (idx : nat)
  : outcome (gmap string value) :=
  match md !! idx with
  | None => Raise IndexError
  | Some m => Ret (make_result m (nth idx sim 0%R) (1 - nth idx sim 0)%R)
  end.

Definition l2_result (md : list (gmap string value)) (dist : vec) (idx : nat)
  : outcome (gmap string value) :=
  match md !! idx with
  | None => Raise IndexError
  | Some m =>
      do mx <- np_max dist;
      Ret (make_result m (1 - nth idx dist 0 / (mx + eps))%R (nth idx dist 0%R))
  end.

(** [search]. The module binds the name [cosine_similarity] only when
    [import faiss] fails, so the brute-force branch under [cosine] raises
    [NameError] in a process in which faiss is importable and the
    configuration turned it off. [use_faiss] is true only when faiss was
    imported, so the FAISS branch finds the name [faiss] bound. *)
Definition search (s : t) (query_embedding : vec) (top_k : Z)
  : outcome (list (gmap string value)) :=
  match index s with
  | None => Ret []
  | Some ix =>
      let k := Z.min top_k (Z.of_nat (length (metadata s))) in
      if use_faiss s then
        match ix with
        | Numpy _ => Raise AttributeError
        | Faiss fx =>
            if String.eqb (metric s) "cosine" then
              do hits <- index_search fx (normalize_L2 query_embedding) k;
              faiss_results (metadata s)
                (map (fun '(distance, idx) => (distance, distance, idx)) hits)
            else
              do hits <- index_search fx query_embedding k;
              do mx <- np_max (map fst hits);
              let max_dist := (mx + eps)%R in
              faiss_results (metadata s)
                (map (fun '(distance, idx) => ((1 - distance / max_dist)%R, distance, idx))
                     hits)
        end
      else
        match ix with
        | Faiss _ => Raise TypeError
        | Numpy m =>
            if String.eqb (metric s) "cosine" then
              if FAISS_AVAILABLE then Raise NameError
              else
                do sim <- cosine_similarity query_embedding m;
                let top_indices := rev (py_slice_from (np_argsort sim) (- k)) in
                omap (cosine_result (metadata s) sim) top_indices
            else
              do dist <- l2_distances query_embedding m;
              let top_indices := py_slice_to (np_argsort dist) k in
              omap (l2_result (metadata s) dist) top_indices
        end
  end.

(** [os.path.join] of two components, on POSIX: an absolute second
    component replaces the first, and no separator is added after an empty
    first component or after one that ends with a separator. *)
Definition ends_with_slash (a : string) : bool :=
  match String.get (String.length a - 1) a with
  | Some c => Ascii.eqb c "/"
  | None => false
  end.

Definition path_join (a b : string) : string :=
  match b with
  | String "/" _ => b
  | _ =>
      match a with
      | EmptyString => b
      | _ => if ends_with_slash a then a +:+ b else a +:+ "/" +:+ b
      end
  end.

Definition index_path (s : t) (name : string) : string :=
  path_join (index_dir s) (name +:+ ".index").

Definition metadata_path (s : t) (name : string) : string :=
  path_join (index_dir s) (name +:+ ".metadata").

(** [save]: the envelope first, then the index. The whole body is inside
    one [try] whose handler only logs: when a file cannot be opened for
    writing, or the writer raises, [save] ends there and what was written
    so far stays. *)
Definition save (s : t) (disk : gmap string file_content) (name : string)
  : gmap string file_content :=
  if negb (can_write (metadata_path s name)) then disk
  else
    let disk1 :=
      <[realpath (metadata_path s name) :=
          PickleFile {| env_metadata := Some (metadata s);
                        env_dimension := Some (dimension s);
                        env_metric := Some (metric s) |}]> disk in
    let write_index (f : file_content) :=
      if can_write (index_path s name)
      then <[realpath (index_path s name) := f]> disk1
      else disk1 in
    if use_faiss s then
      match index s with
      | Some (Faiss fx) => write_index (FaissFile fx)
      | Some (Numpy _) => disk1
      | None =>
          match write_index_of_none with
          | Some f => write_index f
          | None => disk1
          end
      end
    else
      match index s with
      | Some (Numpy m) => write_index (NpyFile m)
      | Some (Faiss _) => write_index Garbage
      | None => write_index NpyObjectFile
      end.

Definition set_metadata (s : t) (md : list (gmap string value)) : t :=
  {| cfg := cfg s; index_dir := index_dir s; use_faiss := use_faiss s;
     metric := metric s; index := index s; metadata := md; dimension := dimension s |}.

Definition set_dimension (s : t) (dim : option nat) : t :=
  {| cfg := cfg s; index_dir := index_dir s; use_faiss := use_faiss s;
     metric := metric s; index := index s; metadata := metadata s; dimension := dim |}.

Definition set_metric (s : t) (mt : string) : t :=
  {| cfg := cfg s; index_dir := index_dir s; use_faiss := use_faiss s;
     metric := mt; index := index s; metadata := metadata s; dimension := dimension s |}.

Definition set_index (s : t) (ix : index_data) : t :=
  {| cfg := cfg s; index_dir := index_dir s; use_faiss := use_faiss s;
     metric := metric s; index := Some ix; metadata := metadata s;
     dimension := dimension s |}.

(** [load]: the assignments happen one by one inside the [try], so a
    failure half-way returns [False] with the earlier ones done. *)
Definition load (s : t) (disk : gmap string file_content) (name : string) : bool * t :=
  match disk !! realpath (index_path s name), disk !! realpath (metadata_path s name) with
  | Some index_file, Some metadata_file =>
      match metadata_file with
      | PickleFile env =>
          match env_metadata env with
          | None => (false, s)
          | Some md =>
              let s := set_metadata s md in
              match env_dimension env with
              | None => (false, s)
              | Some dim =>
                  let s := set_dimension s dim in
                  let s := set_metric s (default (metric s) (env_metric env)) in
                  if use_faiss s then
                    match index_file with
                    | FaissFile fx => (true, set_index s (Faiss fx))
                    | _ => (false, s)
                    end
                  else
                    match index_file with
                    | NpyFile m => (true, set_index s (Numpy m))
                    | _ => (false, s)
                    end
              end
          end
      | _ => (false, s)
      end
  | _, _ => (false, s)
  end.

(** The fields [__init__] derives from the configuration are never
    reassigned, and [self.index] is of the kind [use_faiss] selects. *)
Definition consistent (s : t) : Prop :=
  index_dir s = default ".cache/vector_index" (cfg_index_dir (cfg s))
  /\ use_faiss s = FAISS_AVAILABLE && default true (cfg_use_faiss (cfg s))
  /\ match index s with
     | Some (Faiss _) => use_faiss s = true
     | Some (Numpy _) => use_faiss s = false
     | None => True
     end.

End WithBackend.

(** A flat FAISS index searches exhaustively: [IndexFlatIP] ranks by
    descending inner product, [IndexFlatL2] by ascending squared Euclidean
    distance; [k] results, padded with label -1 (and the largest float as
    distance) when fewer rows are stored. This is the library's documented behaviour, used for the
    worked examples. *)
Definition FLT_MAX : R := IZR 340282346638528859811704183484516925440.

Definition flat_keys (fx : faiss_index) (query : vec) : vec :=
  match kind fx with
  | IndexFlatIP => map (fun row => (- dot query row)%R) (rows fx)
  | IndexFlatL2 =>
      map (fun row => let diff := zip_with Rminus row query in dot diff diff) (rows fx)
  end.

Definition flat_search (fx : faiss_index) (query : vec) (k : Z) : outcome (list (R * Z)) :=
  if (k <=? 0)%Z then Raise ValueError
  else
    let keys := flat_keys fx query in
    let order := firstn (Z.to_nat k) (np_argsort keys) in
    let found :=
      map (fun i => (match kind fx with
                     | IndexFlatIP => (- nth i keys 0)%R
                     | IndexFlatL2 => nth i keys 0%R
                     end, Z.of_nat i)) order in
    let filler :=
      match kind fx with
      | IndexFlatIP => (- FLT_MAX)%R
      | IndexFlatL2 => FLT_MAX
      end in
    Ret (found ++ replicate (Z.to_nat k - length order) (filler, (-1)%Z)).

End VectorIndex.

(** ** Query orchestrator *)

Module Retriever.

(** The [retriever] section of the configuration. *)
Record config : Type :=
  { cfg_top_k : option Z;
    cfg_format_template : option str;
    cfg_separator : option str;
    cfg_threshold : option R }.

(** [EnhancedCodeRetriever]; the index and the embedder it refers to are
    those of the enclosing [CodeContextRetriever]. *)
Record EnhancedCodeRetriever : Type :=
  { top_k : Z;
    format_template : str;
    separator : str }.

Record CodeContextRetriever : Type :=
  { retriever_config : config;
    embedder : Embedder.t;
    vector_index : VectorIndex.t;
    retriever : option EnhancedCodeRetriever }.

Definition default_format_template : str :=
  py "File: {file} | Type: {type} | Name: {name}
Score: {score:.4f}
{separator}
{full_text}
{separator}
".

(** [EnhancedCodeRetriever.__init__] *)
Definition new_retriever (c : config) : EnhancedCodeRetriever :=
  {| top_k := default 5%Z (cfg_top_k c);
     format_template := default default_format_template (cfg_format_template c);
     separator := default (replicate 80 "-"%char) (cfg_separator c) |}.

(** [res.get('score', 0)] as a number; comparing anything else with a
    float is a [TypeError]. *)
Definition get_score (res : gmap string value) : outcome R :=
  match res !! "score" with
  | None => Ret 0%R
  | Some (VFloat x) => Ret x
  | Some (VInt z) => Ret (IZR z)
  | Some _ => Raise TypeError
  end.

(** [[res for res in raw_results if res.get('score', 0) >= threshold]] *)
Fixpoint keep_above (threshold : R) (raw_results : list (gmap string value))
  : outcome (list (gmap string value)) :=
  match raw_results with
  | [] => Ret []
  | res :: rest =>
      do score <- get_score res;
      do kept <- keep_above threshold rest;
      Ret (if Rleb threshold score then res :: kept else kept)
  end.

(** The keyword arguments of the [format] call. *)
Definition format_fields (sep : str) (res : gmap string value) : list (string * value) :=
  [ ("file", default (VStr (py "N/A")) (res !! "file"));
    ("type", default (VStr (py "N/A")) (res !! "type"));
    ("name", default (VStr (py "N/A")) (res !! "name"));
    ("score", default (VFloat 0) (res !! "score"));
    ("full_text", default (VStr []) (res !! "full_text"));
    ("separator", VStr sep) ].

Section WithExternals.

Variable md5_hexdigest : str -> string.
Variable FAISS_AVAILABLE : bool.
Variable index_search : VectorIndex.faiss_index -> vec -> Z -> outcome (list (R * Z)).

(** [str.format], called with the keyword arguments [fields] *)
Variable str_format : str -> list (string * value) -> outcome str.

(** [EnhancedCodeRetriever.raw_search]: any exception is logged and
    turned into the empty list. *)
Definition raw_search (s : CodeContextRetriever) (r : EnhancedCodeRetriever)
           (disk : gmap string Embedder.cache_file) (code_query : str) (k : option Z)
  : list (gmap string value) * gmap string Embedder.cache_file :=
  let '(query_embedding, disk') := Embedder.embed md5_hexdigest (embedder s) disk code_query in
  match VectorIndex.search FAISS_AVAILABLE index_search (vector_index s) query_embedding
          (default (top_k r) k) with
  | Ret results => (results, disk')
  | Raise _ => ([], disk')
  end.

(** [CodeContextRetriever.raw_query] *)
Definition raw_query (s : CodeContextRetriever) (disk : gmap string Embedder.cache_file)
           (query : str) (k : option Z)
  : outcome (list (gmap string value)) * gmap string Embedder.cache_file :=
  match retriever s with
  | None => (Raise ValueError, disk)
  | Some r => let '(results, disk') := raw_search s r disk query k in (Ret results, disk')
  end.

Definition format_result (r : EnhancedCodeRetriever) (res : gmap string value)
  : outcome str :=
  str_format (format_template r) (format_fields (separator r) res).

(** [CodeContextRetriever.query] *)
Definition query (s : CodeContextRetriever) (disk : gmap string Embedder.cache_file)
           (q : str) (threshold : option R)
  : outcome (list str) * gmap string Embedder.cache_file :=
  match retriever s with
  | None => (Raise ValueError, disk)
  | Some r =>
      let '(raw, disk') := raw_query s disk q None in
      (do raw_results <- raw;
       let threshold :=
         match threshold with
         | None => cfg_threshold (retriever_config s)
         | Some t => Some t
         end in
       do filtered_results <-
          match threshold with
          | Some t => keep_above t raw_results
          | None => Ret raw_results
          end;
       omap (format_result r) filtered_results,
       disk')
  end.

End WithExternals.

End Retriever.

(** ** Sample inputs *)

(** An embedder with the cache on, one-dimensional vectors, and a provider
    that raises on every call. *)
Definition failing_embedder : Embedder.t :=
  {| Embedder.cache_dir := ".cache/embeddings";
     Embedder.use_cache := true;
     Embedder.batch_size := 32;
     Embedder.max_workers := 4;
     Embedder.embed_dim := 1;
     Embedder.model := Embedder.DSPy (fun _ => Raise ValueError) |}.

(** A cache directory that holds the vector [[1.0]] for the text ["a"]. *)
Definition disk_with_a : gmap string Embedder.cache_file :=
  {[ Embedder._get_cache_path string_of_list_ascii failing_embedder (py "a")
     := Embedder.Npy [1%R] ]}.


(** An embedder without cache whose provider answers [[1.0]] to every text,
    with groups of two. *)
Definition constant_embedder : Embedder.t :=
  {| Embedder.cache_dir := ".cache/embeddings";
     Embedder.use_cache := false;
     Embedder.batch_size := 2;
     Embedder.max_workers := 4;
     Embedder.embed_dim := 1;
     Embedder.model := Embedder.DSPy (fun _ => Ret [1%R]) |}.

Definition three_texts : list str := [py "a"; py "b"; py "c"].


Definition meta_a : gmap string value := {[ "name" := VStr (py "a") ]}.
Definition meta_b : gmap string value := {[ "name" := VStr (py "b") ]}.

(** Index configurations: brute force only, and FAISS when available. *)
Definition numpy_config (metric : string) : VectorIndex.config :=
  {| VectorIndex.cfg_index_dir := None;
     VectorIndex.cfg_use_faiss := Some false;
     VectorIndex.cfg_metric := Some metric |}.

Definition faiss_config (metric : string) : VectorIndex.config :=
  {| VectorIndex.cfg_index_dir := None;
     VectorIndex.cfg_use_faiss := None;
     VectorIndex.cfg_metric := Some metric |}.

(** [VectorIndex(config)] followed by [build(embeddings, metadata)] *)
Definition built (faiss_available : bool) (c : VectorIndex.config)
           (embeddings : matrix) (md : list (gmap string value)) : VectorIndex.t :=
  match VectorIndex.build (VectorIndex.__init__ faiss_available c) embeddings md with
  | Ret (s, _) => s
  | Raise _ => VectorIndex.__init__ faiss_available c
  end.

(** An index directory with two saved indexes: the envelope of ["a"]
    records the metric [cosine], the envelope of ["b"] has no metric entry. *)
Definition disk_two_indexes : gmap string VectorIndex.file_content :=
  {[ ".cache/vector_index/a.index" := VectorIndex.NpyFile [[1%R]];
     ".cache/vector_index/a.metadata" :=
       VectorIndex.PickleFile
         {| VectorIndex.env_metadata := Some [meta_a];
            VectorIndex.env_dimension := Some (Some 1);
            VectorIndex.env_metric := Some "cosine" |};
     ".cache/vector_index/b.index" := VectorIndex.NpyFile [[1%R]];
     ".cache/vector_index/b.metadata" :=
       VectorIndex.PickleFile
         {| VectorIndex.env_metadata := Some [meta_b];
            VectorIndex.env_dimension := Some (Some 1);
            VectorIndex.env_metric := None |} ]}.

(** A retriever over a one-vector brute-force index, no threshold
    configured. *)
Definition sample_retriever_config : Retriever.config :=
  {| Retriever.cfg_top_k := None;
     Retriever.cfg_format_template := None;
     Retriever.cfg_separator := None;
     Retriever.cfg_threshold := None |}.

Definition sample_retriever : Retriever.CodeContextRetriever :=
  {| Retriever.retriever_config := sample_retriever_config;
     Retriever.embedder := constant_embedder;
     Retriever.vector_index := built false (numpy_config "cosine") [[1%R]] [meta_a];
     Retriever.retriever := Some (Retriever.new_retriever sample_retriever_config) |}.

(** A stand-in for [str.format] that returns the template unchanged. *)
Definition echo_format (template : str) (fields : list (string * value)) : outcome str :=
  Ret template.

(** A file system in which every path denotes a file of its own and every
    write is accepted; and one in which the index directory has no
    sub-directory [sub], so that no file can be created in it. *)
Definition own_file (p : string) : string := p.

Definition accepts_all (p : string) : bool := true.

Definition no_sub_directory (p : string) : bool :=
  negb (String.prefix ".cache/vector_index/sub/" p).

From Stdlib Require Import Sorted Permutation.

(** * Vocabulary of the further properties *)

(** The order [np_argsort] sorts by. *)
Definition key_le (p q : R * nat) : Prop := (fst p <= fst q)%R.

(** An embedder with the cache on whose provider answers [[1.0]] to every
    text, with groups of two. *)
Definition caching_embedder : Embedder.t :=
  {| Embedder.cache_dir := ".cache/embeddings";
     Embedder.use_cache := true;
     Embedder.batch_size := 2;
     Embedder.max_workers := 4;
     Embedder.embed_dim := 1;
     Embedder.model := Embedder.DSPy (fun _ => Ret [1%R]) |}.

(** ** The DSPy entry point of the retriever *)

Module EnhancedRetriever.

Section WithExternals.

Variable md5_hexdigest : str -> string.
Variable FAISS_AVAILABLE : bool.
Variable index_search : VectorIndex.faiss_index -> vec -> Z -> outcome (list (R * Z)).
Variable str_format : str -> list (string * value) -> outcome str.

(** [str(e)] of a caught exception *)
Variable exn_str : exn -> str.

(** [EnhancedCodeRetriever.forward]: the list under ['context']. The
    whole body is inside one [try]: a failing search or a failing [format]
    gives the single snippet ["Error: ..."]. *)
Definition forward (s : Retriever.CodeContextRetriever) (r : Retriever.EnhancedCodeRetriever)
           (disk : gmap string Embedder.cache_file) (code_query : str)
  : list str * gmap string Embedder.cache_file :=
  let '(query_embedding, disk') :=
    Embedder.embed md5_hexdigest (Retriever.embedder s) disk code_query in
  match (do retrieval_results <-
            VectorIndex.search FAISS_AVAILABLE index_search (Retriever.vector_index s)
              query_embedding
              (Retriever.top_k r);
         omap (Retriever.format_result str_format r) retrieval_results) with
  | Ret context_snippets => (context_snippets, disk')
  | Raise err => ([py "Error: " ++ exn_str err], disk')
  end.

End WithExternals.

End EnhancedRetriever.

(** [s.count(c)] for a one-character needle *)
Fixpoint count_chr (c : ascii) (s : str) : nat :=
  match s with
  | [] => 0
  | x :: s' => (if PyStr.ascii_eqb x c then 1 else 0) + count_chr c s'
  end.

(** The nodes of a syntax tree: the node itself and, recursively, the nodes
    below it. *)
Fixpoint subtree (n : PythonExtractor.node) : list PythonExtractor.node :=
  let 'PythonExtractor.Node _ _ _ _ _ b o := n in
  n :: (fix go (l : list PythonExtractor.node) : list PythonExtractor.node :=
          match l with [] => [] | x :: l' => subtree x ++ go l' end) b
    ++ (fix go (l : list PythonExtractor.node) : list PythonExtractor.node :=
          match l with [] => [] | x :: l' => subtree x ++ go l' end) o.

(** A module with one function whose body is a nested function. *)
Definition nested_functions : PythonExtractor.module_ast :=
  {| PythonExtractor.module_docstring := None;
     PythonExtractor.module_body :=
       [ PythonExtractor.Node PythonExtractor.FunctionDef (py "outer") 1 (Some 3) None
           [ PythonExtractor.Node PythonExtractor.FunctionDef (py "inner") 2 (Some 3) None
               [ PythonExtractor.Node PythonExtractor.OtherStmt [] 3 (Some 3) None [] [] ]
               [] ]
           [] ] |}.

Definition nested_functions_text : str := py "def outer():
    def inner():
        pass".

(** ** Project registry ([projects.py])

    The registry keeps a dictionary of projects and the name of the current
    one, and mirrors both into two files of the user's configuration
    directory. A Python [dict] keeps its keys in insertion order, which
    [list_projects] and the JSON file expose: it is an association list with
    distinct keys. Log records are left out. *)

Module ProjectManager.

(** The value stored for a project. *)
Record info : Type :=
  { directory : str;
    config_path : option str;
    index_name : str }.

Abbreviation dict := (list (str * info)).

(** [d[k]], when [k in d] *)
Fixpoint dict_get (d : dict) (k : str) : option info :=
  match d with
  | [] => None
  | (k0, v) :: d' => if decide (k0 = k) then Some v else dict_get d' k
  end.

(** [k in d] *)
Definition dict_mem (d : dict) (k : str) : bool :=
  match dict_get d k with
  | Some _ => true
  | None => false
  end.

(** [d[k] = v]: an existing key keeps its place, a new key goes last. *)
Fixpoint dict_set (d : dict) (k : str) (v : info) : dict :=
  match d with
  | [] => [(k, v)]
  | (k0, v0) :: d' =>
      if decide (k0 = k) then (k, v) :: d' else (k0, v0) :: dict_set d' k v
  end.

(** [del d[k]] *)
Fixpoint dict_del (d : dict) (k : str) : dict :=
  match d with
  | [] => []
  | (k0, v0) :: d' => if decide (k0 = k) then d' else (k0, v0) :: dict_del d' k
  end.

(** What [projects.json] holds: a JSON object as [json.dump] writes it, or
    content on which [json.load] raises. *)
Inductive projects_file : Type :=
| ProjectsJson (d : dict)
| NotJson.

(** What the file [current_project] holds: text, or content on which
    reading raises. *)
Inductive current_file : Type :=
| CurrentText (text : str)
| CurrentUnreadable.

(** The part of the file system the registry touches. [writable] tells
    whether opening a file of the configuration directory for writing, or
    removing one, succeeds. *)
Record disk : Type :=
  { projects_json : option projects_file;
    current_project_file : option current_file;
    writable : bool;
    isdir : str -> bool;
    isfile : str -> bool }.

Definition with_projects_json (dk : disk) (f : option projects_file) : disk :=
  {| projects_json := f; current_project_file := current_project_file dk;
     writable := writable dk; isdir := isdir dk; isfile := isfile dk |}.

Definition with_current_file (dk : disk) (f : option current_file) : disk :=
  {| projects_json := projects_json dk; current_project_file := f;
     writable := writable dk; isdir := isdir dk; isfile := isfile dk |}.

Record t : Type :=
  { projects : dict;
    current_project : option str }.

(** What reading a file in text mode returns for its content: the line
    ends [\r\n] and [\r] come back as [\n]. Writing in text mode stores the
    text as it is (POSIX). *)
Fixpoint universal_newlines (s : str) : str :=
  match s with
  | [] => []
  | c :: s' =>
      if nat_of_ascii c =? 13 then
        match s' with
        | d :: s'' =>
            if nat_of_ascii d =? 10 then PyStr.nl :: universal_newlines s''
            else PyStr.nl :: universal_newlines s'
        | [] => [PyStr.nl]
        end
      else c :: universal_newlines s'
  end.

(** Truth value of an [Optional[str]]: [None] and the empty string are
    false. *)
Definition truthy (o : option str) : bool :=
  match o with
  | Some (_ :: _) => true
  | _ => false
  end.

Section WithPaths.

(** [os.path.abspath] *)
Variable abspath : str -> str.

(** [_load_projects] *)
Definition _load_projects (s : t) (dk : disk) : t :=
  match projects_json dk with
  | None => s
  | Some (ProjectsJson d) => {| projects := d; current_project := current_project s |}
  | Some NotJson => {| projects := []; current_project := current_project s |}
  end.

(** [_load_current_project] *)
Definition _load_current_project (s : t) (dk : disk) : t :=
  match current_project_file dk with
  | None => s
  | Some (CurrentText text) =>
      let project_name := PyStr.strip (universal_newlines text) in
      if dict_mem (projects s) project_name
      then {| projects := projects s; current_project := Some project_name |}
      else s
  | Some CurrentUnreadable => s
  end.

(** [__init__], the configuration directory being there *)
Definition __init__ (dk : disk) : t :=
  let s := {| projects := []; current_project := None |} in
  let s := _load_projects s dk in
  _load_current_project s dk.

(** [_save_projects] *)
Definition _save_projects (s : t) (dk : disk) : disk :=
  if writable dk then with_projects_json dk (Some (ProjectsJson (projects s))) else dk.

(** [_save_current_project] *)
Definition _save_current_project (s : t) (dk : disk) : disk :=
  if truthy (current_project s) then
    if writable dk
    then with_current_file dk (Some (CurrentText (default [] (current_project s))))
    else dk
  else
    match current_project_file dk with
    | Some _ => if writable dk then with_current_file dk None else dk
    | None => dk
    end.

(** [add_project] *)
Definition add_project (s : t) (dk : disk) (name directory : str) (config_path : option str)
  : outcome (t * disk) :=
  if negb (isdir dk directory) then Raise ValueError
  else if truthy config_path && negb (isfile dk (default [] config_path))
  then Raise ValueError
  else
    let s' :=
      {| projects :=
           dict_set (projects s) name
             {| directory := abspath directory;
                config_path :=
                  if truthy config_path then Some (abspath (default [] config_path))
                  else None;
                index_name := name |};
         current_project := current_project s |} in
    Ret (s', _save_projects s' dk).

(** [remove_project] *)
Definition remove_project (s : t) (dk : disk) (name : str) : t * disk :=
  if dict_mem (projects s) name then
    let s1 := {| projects := dict_del (projects s) name;
                 current_project := current_project s |} in
    let dk1 := _save_projects s1 dk in
    if decide (current_project s1 = Some name) then
      let s2 := {| projects := projects s1; current_project := None |} in
      (s2, _save_current_project s2 dk1)
    else (s1, dk1)
  else (s, dk).

(** [get_project] *)
Definition get_project (s : t) (name : option str) : option info :=
  let name :=
    match name with
    | None => current_project s
    | Some n => Some n
    end in
  if negb (truthy name) then None
  else dict_get (projects s) (default [] name).

(** [set_current_project]; it returns [get_project(name)]. *)
Definition set_current_project (s : t) (dk : disk) (name : str)
  : outcome (t * disk * option info) :=
  if negb (dict_mem (projects s) name) then Raise ValueError
  else
    let s' := {| projects := projects s; current_project := Some name |} in
    Ret (s', _save_current_project s' dk, get_project s' (Some name)).

(** [get_current_project] *)
Definition get_current_project (s : t) : option info :=
  get_project s (current_project s).

(** An entry of [list_projects]: the project's information, with the keys
    [name] and [current] added. *)
Record listed : Type :=
  { listed_info : info;
    listed_name : str;
    listed_current : bool }.

(** [list_projects] *)
Definition list_projects (s : t) : list listed :=
  map (fun '(name, i) =>
         {| listed_info := i;
            listed_name := name;
            listed_current := bool_decide (Some name = current_project s) |})
      (projects s).

End WithPaths.

(** *** Vocabulary for the properties of the registry *)

(** The current project, when there is one, is a registered project. *)
Definition current_registered (s : t) : Prop :=
  match current_project s with
  | Some n => dict_mem (projects s) n = true
  | None => True
  end.

(** The two files mirror the state [s]: a later start of the program reads
    [s] back. *)
Definition mirrored (s : t) (dk : disk) : Prop :=
  match projects_json dk with
  | Some (ProjectsJson d) => d = projects s
  | Some NotJson => projects s = []
  | None => projects s = []
  end
  /\ match current_project s with
     | Some n => current_project_file dk = Some (CurrentText n)
                 /\ n <> [] /\ universal_newlines n = n /\ PyStr.strip n = n
                 /\ dict_mem (projects s) n = true
     | None => current_project_file dk = None
     end.

(** The distinct keys of a dictionary, and no dangling current project. *)
Definition well_formed (s : t) : Prop :=
  NoDup (map fst (projects s)) /\ current_registered s.

(** A run of the registry: a sequence of calls, each on the state and the
    files the previous one left. A call that raises does so before it
    changes anything. *)
Inductive call : Type :=
| AddProject (name directory : str) (config_path : option str)
| RemoveProject (name : str)
| SetCurrentProject (name : str).

Definition step (abspath : str -> str) (st : t * disk) (c : call) : t * disk :=
  match c with
  | AddProject name directory config_path =>
      match add_project abspath st.1 st.2 name directory config_path with
      | Ret st' => st'
      | Raise _ => st
      end
  | RemoveProject name => remove_project st.1 st.2 name
  | SetCurrentProject name =>
      match set_current_project st.1 st.2 name with
      | Ret (s', dk', _) => (s', dk')
      | Raise _ => st
      end
  end.

Definition run (abspath : str -> str) (st : t * disk) (calls : list call) : t * disk :=
  fold_left (step abspath) calls st.

(** The names a run makes current are not empty, hold no carriage return
    (which reading in text mode would turn into a line feed) and carry no
    white space at either end. *)
Definition plain_name (c : call) : Prop :=
  match c with
  | SetCurrentProject name =>
      name <> [] /\ universal_newlines name = name /\ PyStr.strip name = name
  | _ => True
  end.

(** A configuration directory without files, in which the directory [/p]
    exists. *)
Definition fresh_disk : disk :=
  {| projects_json := None;
     current_project_file := None;
     writable := true;
     isdir := fun p => bool_decide (p = py "/p");
     isfile := fun _ => false |}.

End ProjectManager.

(** A registry holding the single project [a], which is the current one. *)
Definition registry_with_a : ProjectManager.t :=
  {| ProjectManager.projects :=
       [ (py "a", {| ProjectManager.directory := py "/p";
                     ProjectManager.config_path := None;
                     ProjectManager.index_name := py "a" |}) ];
     ProjectManager.current_project := Some (py "a") |}.

(** A registry holding a project whose name is the empty string. *)
Definition registry_with_unnamed : ProjectManager.t :=
  {| ProjectManager.projects :=
       [ ([], {| ProjectManager.directory := py "/p";
                 ProjectManager.config_path := None;
                 ProjectManager.index_name := [] |}) ];
     ProjectManager.current_project := None |}.

(** ** Configuration ([config.py])

    A configuration is a tree of dictionaries as [yaml.safe_load] returns
    it; every value that is not a dictionary is a leaf. *)

Module Config.

#[local] Set Warnings "-register-all".

Inductive cval : Type :=
| Leaf (v : value)
| Dict (d : list (str * cval)).

Abbreviation dict := (list (str * cval)).

(** [d[k]], when [k in d] *)
Fixpoint dict_get (d : dict) (k : str) : option cval :=
  match d with
  | [] => None
  | (k0, v) :: d' => if decide (k0 = k) then Some v else dict_get d' k
  end.

(** [d[k] = v] *)
Fixpoint dict_set (d : dict) (k : str) (v : cval) : dict :=
  match d with
  | [] => [(k, v)]
  | (k0, v0) :: d' =>
      if decide (k0 = k) then (k, v) :: d' else (k0, v0) :: dict_set d' k v
  end.

(** [s.split(c)] for a one-character separator: always at least one part. *)
Fixpoint split_aux (c : ascii) (s cur : str) : list str :=
  match s with
  | [] => [rev cur]
  | x :: s' =>
      if PyStr.ascii_eqb x c then rev cur :: split_aux c s' []
      else split_aux c s' (x :: cur)
  end.

Definition split (c : ascii) (s : str) : list str := split_aux c s [].

(** [str.lower] on ASCII text *)
Definition lower_char (c : ascii) : ascii :=
  let n := nat_of_ascii c in
  if (65 <=? n) && (n <=? 90) then ascii_of_nat (n + 32) else c.

Definition lower (s : str) : str := map lower_char s.

(** What [d[k]] becomes in [_update_nested_dict] for the item [(k, v)] of
    the update, [old] being [d[k]] when [k in d]: two dictionaries are
    merged, anything else is replaced. *)
Fixpoint updated_value (v : cval) (old : option cval) : cval :=
  match v, old with
  | Dict u, Some (Dict d) =>
      Dict ((fix items (u : dict) (d : dict) : dict :=
               match u with
               | [] => d
               | (k, v') :: u' => items u' (dict_set d k (updated_value v' (dict_get d k)))
               end) u d)
  | _, _ => v
  end.

(** [_update_nested_dict] *)
Fixpoint _update_nested_dict (d u : dict) : dict :=
  match u with
  | [] => d
  | (k, v) :: u' => _update_nested_dict (dict_set d k (updated_value v (dict_get d k))) u'
  end.

(** [_set_nested_config]. Indexing or assigning into a value that is not
    a dictionary is a [TypeError]; [keys[0]] of an empty list is an
    [IndexError]. *)
Fixpoint _set_nested_config (config : cval) (keys : list str) (value : cval)
  : outcome cval :=
  match keys with
  | [] => Raise IndexError
  | [k] =>
      match config with
      | Dict d => Ret (Dict (dict_set d k value))
      | Leaf _ => Raise TypeError
      end
  | k :: keys' =>
      match config with
      | Dict d =>
          let d := match dict_get d k with
                   | Some _ => d
                   | None => dict_set d k (Dict [])
                   end in
          do sub <- _set_nested_config (default (Dict []) (dict_get d k)) keys' value;
          Ret (Dict (dict_set d k sub))
      | Leaf _ => Raise TypeError
      end
  end.

(** [_override_from_env], over the items of [os.environ] *)
Fixpoint _override_from_env (config : cval) (environ : list (str * str)) : outcome cval :=
  match environ with
  | [] => Ret config
  | (key, value) :: environ' =>
      if PyStr.startswith key (py "CCR_") then
        let parts := split "_" (lower (skipn 4 key)) in
        do config' <- _set_nested_config config parts (Leaf (VStr value));
        _override_from_env config' environ'
      else _override_from_env config environ'
  end.

(** The loop [for k in keys: value = value[k]] of [get]; [None] stands for
    the [KeyError] or [TypeError] that [get] catches. *)
Fixpoint lookup_path (value : cval) (keys : list str) : option cval :=
  match keys with
  | [] => Some value
  | k :: keys' =>
      match value with
      | Dict d =>
          match dict_get d k with
          | Some v => lookup_path v keys'
          | None => None
          end
      | Leaf _ => None
      end
  end.

(** [get] *)
Definition get (config : cval) (key : str) (default : cval) : cval :=
  match lookup_path config (split "." key) with
  | Some value => value
  | None => default
  end.

(** The keys of every dictionary of the tree are distinct, as they are in
    a Python [dict]. *)
Fixpoint distinct_keys (v : cval) : Prop :=
  match v with
  | Leaf _ => True
  | Dict d =>
      NoDup (map fst d)
      /\ (fix all (d : dict) : Prop :=
            match d with
            | [] => True
            | (_, v') :: d' => distinct_keys v' /\ all d'
            end) d
  end.

End Config.

(** A default configuration and a custom one that overrides one setting of
    the [embedder] section. *)
Definition default_settings : Config.dict :=
  [ (py "embedder",
     Config.Dict [ (py "model", Config.Leaf (VStr (py "a")));
                   (py "dim", Config.Leaf (VInt 1)) ]) ].

Definition custom_settings : Config.dict :=
  [ (py "embedder", Config.Dict [ (py "model", Config.Leaf (VStr (py "b"))) ]) ].

(** The cursor [c'] is the cursor [c] moved forward over some characters
    of the same subject. *)
Definition advance (c c' : Re.cursor) : Prop :=
  exists w, Re.before c' = rev w ++ Re.before c /\ Re.after c = w ++ Re.after c'.

(** ** Properties of the extractors *)

Section ExtractorFacts.

Lemma count_nl_firstn_mono (s : str) (a b : nat) :
  a <= b -> PyStr.count_nl (firstn a s) <= PyStr.count_nl (firstn b s).
Proof.
  revert a b. induction s as [|c s IH]; intros a b Hab.
  - rewrite !firstn_nil. lia.
  - destruct a as [|a]; [simpl; lia|].
    destruct b as [|b]; [lia|].
    simpl. specialize (IH a b). lia.
Qed.

Lemma find_from_ge (c : ascii) (s : str) (pos p : nat) :
  PyStr.find_from c s pos = Some p -> pos <= p.
Proof.
  revert pos. induction s as [|x s IH]; intros pos; simpl; [discriminate|].
  destruct (PyStr.ascii_eqb x c).
  - intros [= <-]. lia.
  - intros H. apply IH in H. lia.
Qed.

Lemma scan_braces_ge (rest : str) (bc pos : nat) :
  pos <= snd (TypeScriptExtractor.scan_braces rest bc pos).
Proof.
  revert bc pos. induction rest as [|c rest IH]; intros bc pos; simpl; [lia|].
  destruct (bc =? 0); simpl; [lia|].
  etransitivity; [|apply IH]. lia.
Qed.

(** Every chunk the TypeScript extractor builds from a match has a
    non-empty [full_text] and an ordered line range. *)
Lemma ts_chunk_of_match_inv (kind fp content : str) (m : Re.mobj) (c : Chunk) :
  TypeScriptExtractor.chunk_of_match kind fp content m = Some c ->
  full_text c <> [] /\ code c <> [] /\ line_start c <= line_end c.
Proof.
  unfold TypeScriptExtractor.chunk_of_match, TypeScriptExtractor._extract_code_block.
  destruct (PyStr.find "{" content (Re.m_start m)) as [ob|] eqn:Hfind; [|discriminate].
  pose proof (scan_braces_ge (skipn (ob + 1) content) 1 (ob + 1)) as Hge.
  destruct (TypeScriptExtractor.scan_braces _ _ _) as [bc pos]; simpl in Hge.
  destruct (negb (bc =? 0)); [discriminate|].
  destruct (PyStr.slice content (Re.m_start m) pos) as [|x snippet] eqn:Hs; [discriminate|].
  intros [= <-]; simpl.
  apply find_from_ge in Hfind.
  repeat split; try discriminate.
  - destruct (TypeScriptExtractor._extract_docstring _ _); discriminate.
  - pose proof (count_nl_firstn_mono content (Re.m_start m) pos). lia.
Qed.

Lemma omap_id_In {A} (l : list (option A)) (x : A) :
  In x (omap_id l) -> In (Some x) l.
Proof.
  induction l as [|[y|] l IH]; simpl; intros H; auto.
  destruct H as [->|H]; auto.
Qed.

Lemma ts_extract_chunks_inv (mx : option nat) (fp : str) (e : fs_entry) (c : Chunk) :
  In c (TypeScriptExtractor.extract_chunks mx fp e) ->
  full_text c <> [] /\ code c <> [] /\ line_start c <= line_end c.
Proof.
  unfold TypeScriptExtractor.extract_chunks.
  destruct (negb _); [intros []|].
  destruct e as [| |sz [content|]]; try (intros []).
  unfold TypeScriptExtractor._extract_functions, TypeScriptExtractor._extract_classes,
    TypeScriptExtractor._extract_interfaces, TypeScriptExtractor._extract_arrow_functions,
    TypeScriptExtractor.extract_with.
  rewrite !in_app_iff.
  intros H; decompose [or] H; clear H;
    match goal with
    | H : In _ (omap_id _) |- _ =>
        apply omap_id_In in H; apply in_map_iff in H;
        destruct H as (m & Hm & _); eapply ts_chunk_of_match_inv; exact Hm
    end.
Qed.

(** Section chunks of the Markdown extractor: content that is not all
    whitespace, and an ordered line range. *)
Lemma md_section_chunks_inv (fp : str) (secs : list MarkdownExtractor.section)
      (line_count : nat) (c : Chunk) :
  In c (MarkdownExtractor.section_chunks fp line_count secs) ->
  PyStr.strip (full_text c) <> [] /\ line_start c <= line_end c.
Proof.
  revert line_count. induction secs as [|s secs IH]; intros lc; simpl; [intros []|].
  destruct (PyStr.strip (MarkdownExtractor.content s)) eqn:Hs.
  - apply IH.
  - intros [<-|H]; [|eapply IH; exact H].
    simpl. rewrite Hs. split; [discriminate|lia].
Qed.

(** A declaration chunk of the Python extractor has an ordered line range
    as soon as the parser reports [lineno >= 1] and
    [end_lineno >= lineno]. *)
Lemma py_extract_node_lines (n : PythonExtractor.node) (fp content : str) :
  1 <= PythonExtractor.lineno_of n ->
  PythonExtractor.lineno_of n
    <= default (PythonExtractor.lineno_of n) (PythonExtractor.end_lineno_of n) ->
  line_start (PythonExtractor._extract_node n fp content)
    <= line_end (PythonExtractor._extract_node n fp content).
Proof.
  destruct n as [k nm l e d b o]; simpl. intros H1 H2.
  destruct b; simpl; lia.
Qed.

End ExtractorFacts.

(** *** C1 *)

(** C1. Every chunk an extractor returns is meant to have
    [line_start <= line_end] and a non-empty [full_text], content that is
    only whitespace being dropped.  The Markdown extractor's whole-document
    chunk is appended without the emptiness test its section loop applies:
    for an empty file it is the single chunk returned and its [full_text] is
    empty; for a file holding one space its [full_text] is that space. *)
Theorem C1_markdown_document_chunk_unguarded :
  MarkdownExtractor.extract_chunks MarkdownExtractor.default_config
      (py "notes.md") (Regular 0 (Some []))
    = [ {| file := py "notes.md"; name := py "notes.md"; type := py "document";
           code := []; docstring := []; full_text := [];
           line_start := 1; line_end := 1 |} ]
  /\ map full_text
       (MarkdownExtractor.extract_chunks MarkdownExtractor.default_config
          (py "notes.md") (Regular 1 (Some (py " "))))
     = [ py " " ].
Proof. split; vm_compute; reflexivity. Qed.

(** *** C8 *)

(** C8. The [doc_text] of a declaration is meant to be the interior of the
    [/** ... */] comment that ends at the match start.  The code searches the
    text before the match from its beginning, so it only ever considers the
    first such comment of the file: in a file with two documented functions
    the second one, [g], matched at offset 34 right after the comment
    [/** b */], gets the empty docstring. *)
Theorem C8_second_docstring_lost :
  map (fun c => (name c, docstring c))
      (TypeScriptExtractor.extract_chunks None (py "two.ts")
         (Regular (length two_documented_functions) (Some two_documented_functions)))
    = [ (py "f", py "a"); (py "g", []) ]
  /\ map Re.m_start (Re.finditer TypeScriptExtractor.function_pattern two_documented_functions)
     = [9; 34]
  /\ PyStr.endswith (PyStr.rstrip (firstn 34 two_documented_functions)) (py "/** b */") = true
  /\ TypeScriptExtractor._extract_docstring two_documented_functions 34 = [].
Proof. repeat split; vm_compute; reflexivity. Qed.

(** ** Properties of the embedding service *)

Section EmbedderFacts.

Variable md5 : str -> string.
Variable e : Embedder.t.

Local Abbreviation dim := (Embedder.embed_dim e).
Local Abbreviation width_ok := (Forall (fun r : vec => length r = dim)).

Lemma broadcast_row_length (d : nat) (v row : vec) :
  broadcast_row d v = Some row -> length row = d.
Proof.
  unfold broadcast_row. destruct (length v =? d) eqn:E.
  - intros [= <-]. by apply Nat.eqb_eq.
  - destruct v as [|x [|? ?]]; try discriminate.
    intros [= <-]. apply length_replicate.
Qed.

Lemma set_row_Ret (d : nat) (res res' : matrix) (i : nat) (v : vec) :
  set_row d res i v = Ret res' ->
  i < length res /\ exists row, broadcast_row d v = Some row /\ res' = <[i := row]> res.
Proof.
  unfold set_row. destruct (i <? length res) eqn:E; [|discriminate].
  apply Nat.ltb_lt in E.
  destruct (broadcast_row d v) as [row|]; [|discriminate].
  intros [= <-]. eauto.
Qed.

Lemma width_ok_insert (res : matrix) (i : nat) (row : vec) :
  width_ok res -> length row = dim -> width_ok (<[i := row]> res).
Proof.
  intros Hres Hrow. apply Forall_insert; assumption.
Qed.



Lemma np_zeros2_length (n d : nat) : length (np_zeros2 n d) = n.
Proof. apply length_replicate. Qed.


Lemma is_miss_cached (disk : gmap string Embedder.cache_file) (text : str) :
  Embedder.use_cache e = true ->
  Embedder.is_miss md5 e disk text
  = match Embedder._get_from_cache md5 e disk text with Some _ => false | None => true end.
Proof. intros Hc. unfold Embedder.is_miss, Embedder.cached_of. by rewrite Hc. Qed.

(** The cache loop: cached texts get their stored row, the others keep
    the row they had and are queued, in order, with their index. *)
Lemma check_cache_spec (disk : gmap string Embedder.cache_file) (texts : list str) :
  Embedder.use_cache e = true ->
  forall (i : nat) (result : matrix) (acc : list (nat * str))
         (result' : matrix) (to_embed : list (nat * str)),
    Embedder.check_cache md5 e disk i texts result acc = Ret (result', to_embed) ->
    length result' = length result
    /\ (width_ok result -> width_ok result')
    /\ (exists new, to_embed = acc ++ new
          /\ map snd new = Embedder.misses md5 e disk texts
          /\ forall k p, new !! k = Some p -> exists k', p.1 = i + k' /\ texts !! k' = Some p.2)
    /\ (forall j, j < i -> result' !! j = result !! j)
    /\ (forall k text, texts !! k = Some text ->
          match Embedder._get_from_cache md5 e disk text with
          | Some v => exists row, broadcast_row dim v = Some row
                                  /\ result' !! (i + k) = Some row
          | None => result' !! (i + k) = result !! (i + k)
          end).
Proof.
  intros Hc. induction texts as [|text texts' IH]; intros i result acc result' to_embed; simpl.
  - intros [= <- <-]. repeat split; auto.
    + exists []. rewrite app_nil_r. repeat split; auto. intros k p H; discriminate.
    + intros k text H; discriminate.
  - unfold Embedder.misses. rewrite filter_cons.
    pose proof (is_miss_cached disk text Hc) as Hm.
    destruct (Embedder._get_from_cache md5 e disk text) as [cached|] eqn:Hget.
    + destruct (set_row dim result i cached) as [result1|err] eqn:Hset; [|discriminate].
      simpl. intros H. apply IH in H as (Hlen & Hw & (new & Hnew & Hsnd & Hidx) & Hlow & Hrows).
      apply set_row_Ret in Hset as (Hi & row & Hrow & ->).
      rewrite length_insert in Hlen.
      split; [exact Hlen|]. split; [|split; [|split]].
      * intros Hres. apply Hw, width_ok_insert; [exact Hres|].
        eapply broadcast_row_length; exact Hrow.
      * exists new. repeat split; [exact Hnew| |].
        -- rewrite decide_False; [exact Hsnd|]. rewrite Hm. discriminate.
        -- intros k p Hk. apply Hidx in Hk as (k' & Hk1 & Hk2).
           exists (S k'). split; [lia|exact Hk2].
      * intros j Hj. rewrite Hlow by lia. apply list_lookup_insert_ne. lia.
      * intros [|k] text0 Hk; simpl in Hk.
        -- injection Hk as <-. rewrite Hget. exists row. split; [exact Hrow|].
           rewrite Nat.add_0_r, Hlow by lia. by apply list_lookup_insert_eq.
        -- specialize (Hrows k text0 Hk).
           replace (i + S k) with (S i + k) by lia.
           destruct (Embedder._get_from_cache md5 e disk text0); [exact Hrows|].
           rewrite Hrows. apply list_lookup_insert_ne. lia.
    + intros H. apply IH in H as (Hlen & Hw & (new & Hnew & Hsnd & Hidx) & Hlow & Hrows).
      split; [exact Hlen|]. split; [exact Hw|]. split; [|split].
      * exists ((i, text) :: new). repeat split.
        -- rewrite Hnew, <- app_assoc. reflexivity.
        -- rewrite decide_True by (by rewrite Hm). simpl. by rewrite Hsnd.
        -- intros [|k] p; simpl.
           ++ intros [= <-]. exists 0. simpl. split; [lia|reflexivity].
           ++ intros Hk. apply Hidx in Hk as (k' & Hk1 & Hk2).
              exists (S k'). split; [lia|exact Hk2].
      * intros j Hj. apply Hlow. lia.
      * intros [|k] text0 Hk; simpl in Hk.
        -- injection Hk as <-. rewrite Hget. rewrite Nat.add_0_r. apply Hlow. lia.
        -- specialize (Hrows k text0 Hk).
           replace (i + S k) with (S i + k) by lia. exact Hrows.
Qed.









(** *** The worker pool and the slots *)

Section Pool.

Variable batches : list (list str).

Lemma existsb_eqb_cons (b b0 : nat) (l : list nat) :
  existsb (Nat.eqb b) (b0 :: l) = (b =? b0) || existsb (Nat.eqb b) l.
Proof. reflexivity. Qed.



End Pool.





Lemma groups_of_nonempty (fuel n : nat) (texts : list str) :
  texts <> [] -> Embedder.groups_of (S fuel) n texts <> [].
Proof. destruct texts; [congruence|discriminate]. Qed.




(** *** What a group's rows are, exactly *)





Lemma stored_rows_width (n : nat) (got : list vec) :
  width_ok (Embedder.stored_rows e n got).
Proof.
  revert got. induction n as [|n IH]; intros [|v got]; simpl; try constructor.
  destruct (broadcast_row dim v) as [row|] eqn:Hrow; constructor; [|apply IH].
  eapply broadcast_row_length; exact Hrow.
Qed.

Lemma stored_rows_length (n : nat) (got : list vec) :
  length (Embedder.stored_rows e n got) <= n.
Proof.
  revert got. induction n as [|n IH]; intros [|v got]; simpl; try lia.
  destruct (broadcast_row dim v); simpl; [|lia]. specialize (IH got). lia.
Qed.







(** *** The pool, with each group on the cache the earlier ones left *)









(** *** C5 *)


(** *** C6 *)


End EmbedderFacts.





(** ** Properties of the vector index *)

Section VectorIndexFacts.

Variable FAISS_AVAILABLE : bool.
Variable index_search : VectorIndex.faiss_index -> vec -> Z -> outcome (list (R * Z)).
Variable realpath : string -> string.
Variable can_write : string -> bool.
Variable write_index_of_none : option VectorIndex.file_content.

Import VectorIndex.

Local Abbreviation load := (VectorIndex.load realpath).
Local Abbreviation save := (VectorIndex.save realpath can_write write_index_of_none).
Local Abbreviation search := (VectorIndex.search FAISS_AVAILABLE index_search).

Lemma init_consistent (c : config) : consistent FAISS_AVAILABLE (__init__ FAISS_AVAILABLE c).
Proof. repeat split. Qed.

Lemma build_consistent (s s' : t) (embeddings : matrix) (md : list (gmap string value))
      (logs : list log_record) :
  consistent FAISS_AVAILABLE s ->
  build s embeddings md = Ret (s', logs) ->
  consistent FAISS_AVAILABLE s'.
Proof.
  intros (H1 & H2 & H3). unfold build.
  destruct embeddings as [|row0 rest]; [intros [= <- <-]; unfold consistent; auto|].
  destruct (use_faiss s) eqn:Hu.
  - destruct (String.eqb (metric s) "cosine"); intros [= <- <-];
      unfold consistent; simpl; rewrite ?Hu; auto.
  - intros [= <- <-]; unfold consistent; simpl; rewrite ?Hu; auto.
Qed.

Lemma load_consistent (s : t) (disk : gmap string file_content) (name : string) :
  consistent FAISS_AVAILABLE s -> consistent FAISS_AVAILABLE (load s disk name).2.
Proof.
  intros (H1 & H2 & H3). unfold VectorIndex.load.
  destruct (disk !! realpath (index_path s name)) as [ixf|]; [|by repeat split].
  destruct (disk !! realpath (metadata_path s name)) as [[env| | | |]|]; try by repeat split.
  destruct (env_metadata env) as [md|]; [|by repeat split].
  destruct (env_dimension env) as [dim|]; [|by unfold consistent; simpl; auto].
  cbn [use_faiss set_metric set_dimension set_metadata].
  destruct (use_faiss s) eqn:Hu; destruct ixf; unfold consistent; simpl; rewrite ?Hu; auto.
Qed.

(** *** C2 *)

(** C2 (amended). [build] never compares the number of vectors with the
    number of metadata entries. With no vectors it changes nothing and
    logs a warning; with at least one vector it always succeeds, stores
    the metadata list exactly as given, whatever its length, fixes the
    dimension from the first vector, and logs no warning or error. *)
Theorem C2_build_has_no_count_check (s : t) (embeddings : matrix)
        (md : list (gmap string value)) :
  (embeddings = [] ->
   build s embeddings md = Ret (s, [LogWarning "No embeddings provided to build index"]))
  /\ (embeddings <> [] ->
      exists s' msg,
        build s embeddings md = Ret (s', [LogInfo msg])
        /\ metadata s' = md
        /\ is_Some (index s')
        /\ dimension s' = Some (length (hd [] embeddings))).
Proof.
  split.
  - intros ->. reflexivity.
  - intros Hne. unfold build. destruct embeddings as [|row0 rest]; [congruence|].
    destruct (use_faiss s); [destruct (String.eqb (metric s) "cosine")|];
      eexists _, _; (split; [reflexivity|]); simpl; eauto.
Qed.

(** *** C10 *)

(** C10 (amended). After a successful [load], the metric of the index is
    the metric recorded in the envelope; when the envelope has no metric
    entry it is the metric the index had just before the call, which is the
    configured one only as long as no earlier [load] replaced it. *)
Theorem C10_load_metric (s s' : t) (disk : gmap string file_content) (name : string) :
  load s disk name = (true, s') ->
  exists env,
    disk !! realpath (metadata_path s name) = Some (PickleFile env)
    /\ metric s' = default (metric s) (env_metric env).
Proof.
  unfold VectorIndex.load.
  destruct (disk !! realpath (index_path s name)) as [ixf|]; [|discriminate].
  destruct (disk !! realpath (metadata_path s name)) as [[env| | | |]|]; try discriminate.
  destruct (env_metadata env) as [md|]; [|discriminate].
  destruct (env_dimension env) as [dim|]; [|discriminate].
  cbn [use_faiss set_metric set_dimension set_metadata metric].
  intros H. exists env. split; [reflexivity|].
  destruct (use_faiss s); destruct ixf; try discriminate; by injection H as <-.
Qed.

(** *** C3 *)

Lemma load_unfold (s : t) (disk : gmap string file_content) (name : string)
      (index_file : file_content) (env : envelope) (md : list (gmap string value))
      (dim : option nat) :
  disk !! realpath (index_path s name) = Some index_file ->
  disk !! realpath (metadata_path s name) = Some (PickleFile env) ->
  env_metadata env = Some md ->
  env_dimension env = Some dim ->
  load s disk name
  = let loaded (ix : option index_data) :=
      {| cfg := cfg s; index_dir := index_dir s; use_faiss := use_faiss s;
         metric := default (metric s) (env_metric env); index := ix;
         metadata := md; dimension := dim |} in
    match use_faiss s, index_file with
    | true, FaissFile fx => (true, loaded (Some (Faiss fx)))
    | false, NpyFile m => (true, loaded (Some (Numpy m)))
    | _, _ => (false, loaded (index s))
    end.
Proof.
  intros H1 H2 H3 H4. unfold VectorIndex.load. rewrite H1, H2, H3, H4.
  destruct s as [c dir uf mt ix mds dm]. simpl.
  destruct uf, index_file; reflexivity.
Qed.

(** C3 (amended). [save] catches every exception and only logs it. When
    the metadata file cannot be opened for writing (the name has a
    directory part that does not exist, or is not admitted by the file
    system, or the directory is not writable), [save] writes nothing. For
    a built index whose two files can be written and are two different
    files, [save(name)] followed by [load(name)] on a fresh instance with
    the same configuration succeeds and reproduces the metadata (order and
    content), the dimension, the metric and the stored vector structure,
    hence the same search results for every query vector and every
    [top_k]. *)
Theorem C3_save_load_roundtrip (s : t) (disk : gmap string file_content) (name : string) :
  (can_write (metadata_path s name) = false -> save s disk name = disk)
  /\ (consistent FAISS_AVAILABLE s ->
      is_Some (index s) ->
      can_write (metadata_path s name) = true ->
      can_write (index_path s name) = true ->
      realpath (index_path s name) <> realpath (metadata_path s name) ->
      exists s',
        load (__init__ FAISS_AVAILABLE (cfg s)) (save s disk name) name = (true, s')
        /\ metadata s' = metadata s
        /\ dimension s' = dimension s
        /\ metric s' = metric s
        /\ index s' = index s
        /\ forall (query_embedding : vec) (top_k : Z),
             search s' query_embedding top_k = search s query_embedding top_k).
Proof.
  split; [intros Hw; unfold VectorIndex.save; by rewrite Hw|].
  intros (Hdir & Hfa & Hix) [ix Hsome] Hwm Hwi Hneq.
  exists s.
  assert (Hload : load (__init__ FAISS_AVAILABLE (cfg s)) (save s disk name) name = (true, s)).
  { set (fresh := __init__ FAISS_AVAILABLE (cfg s)).
    assert (Hip : index_path fresh name = index_path s name)
      by (unfold index_path; simpl; by rewrite <- Hdir).
    assert (Hmp : metadata_path fresh name = metadata_path s name)
      by (unfold metadata_path; simpl; by rewrite <- Hdir).
    set (env := {| env_metadata := Some (metadata s);
                   env_dimension := Some (dimension s);
                   env_metric := Some (metric s) |}).
    assert (Hsave : exists index_file,
               save s disk name !! realpath (index_path s name) = Some index_file
               /\ save s disk name !! realpath (metadata_path s name) = Some (PickleFile env)
               /\ match use_faiss s, index_file with
                  | true, FaissFile fx => index s = Some (Faiss fx)
                  | false, NpyFile m => index s = Some (Numpy m)
                  | _, _ => False
                  end).
    { unfold VectorIndex.save. rewrite Hwm, Hwi. cbn [negb].
      rewrite Hsome in Hix |- *. destruct ix as [fx|m]; rewrite Hix.
      - exists (FaissFile fx). rewrite lookup_insert_eq, lookup_insert_ne, lookup_insert_eq
          by congruence. auto.
      - exists (NpyFile m). rewrite lookup_insert_eq, lookup_insert_ne, lookup_insert_eq
          by congruence. auto. }
    destruct Hsave as (index_file & H1 & H2 & H3).
    rewrite (load_unfold fresh _ name index_file env (metadata s) (dimension s))
      by (rewrite ?Hip, ?Hmp; auto).
    cbn [fresh __init__ use_faiss cfg index_dir metric env env_metric default].
    rewrite <- Hdir, <- Hfa.
    destruct (use_faiss s) eqn:Hu, index_file; try contradiction;
      rewrite <- H3, <- Hu; by destruct s. }
  split; [exact Hload|]. repeat split; reflexivity.
Qed.

(** *** The result loops *)

Lemma omap_Ret {A B} (f : A -> outcome B) (l : list A) (l' : list B) :
  omap f l = Ret l' -> Forall2 (fun x y => f x = Ret y) l l'.
Proof.
  revert l'. induction l as [|x l IH]; intros l'; simpl.
  - intros [= <-]. constructor.
  - destruct (f x) as [y|err] eqn:Hx; [|discriminate]. simpl.
    destruct (omap f l) as [ys|err]; [|discriminate]. simpl.
    intros [= <-]. constructor; auto.
Qed.

(** The loop of the FAISS branch: no more results than labels, each
    built from a hit whose label is below [len(metadata)]; the other
    labels are skipped. *)
Lemma faiss_results_spec (md : list (gmap string value)) (hits : list (R * R * Z))
      (res : list (gmap string value)) :
  faiss_results md hits = Ret res ->
  length res <= length hits
  /\ Forall (fun r => exists m similarity distance idx,
                 In (similarity, distance, idx) hits
                 /\ (idx < Z.of_nat (length md))%Z
                 /\ py_getitem md idx = Ret m
                 /\ r = make_result m similarity distance) res.
Proof.
  revert res. induction hits as [|[[similarity distance] idx] hits IH]; intros res; simpl.
  - intros [= <-]. split; [simpl; lia|constructor].
  - destruct (Z.ltb_spec idx (Z.of_nat (length md))) as [Hlt|Hge].
    + destruct (py_getitem md idx) as [m|err] eqn:Hget; [|discriminate]. simpl.
      destruct (faiss_results md hits) as [rest|err]; [|discriminate]. simpl.
      intros [= <-]. destruct (IH rest eq_refl) as [IHlen IHall]. split; [simpl; lia|].
      constructor.
      * exists m, similarity, distance, idx. auto.
      * eapply Forall_impl; [exact IHall|].
        intros r (m' & s' & d' & i' & H1 & H2 & H3 & H4). exists m', s', d', i'. auto.
    + intros H. destruct (IH res H) as [IHlen IHall]. split; [lia|].
      eapply Forall_impl; [exact IHall|].
      intros r (m' & s' & d' & i' & H1 & H2 & H3 & H4). exists m', s', d', i'. auto.
Qed.

Lemma fold_left_Rmax_ge (l : vec) (x : R) : (x <= fold_left Rmax l x)%R.
Proof.
  revert x. induction l as [|y l IH]; intros x; simpl; [lra|].
  etransitivity; [apply (Rmax_l x y)|apply IH].
Qed.

Lemma fold_left_Rmax_mono (l : vec) (x y : R) :
  (x <= y)%R -> (fold_left Rmax l x <= fold_left Rmax l y)%R.
Proof.
  revert x y. induction l as [|z l IH]; intros x y Hxy; simpl; [exact Hxy|].
  apply IH. apply Rle_max_compat_r. exact Hxy.
Qed.

(** *** C7 *)

(** C7 (amended). The two search paths report different values. Under
    [cosine], every result of the FAISS path has [distance] equal to
    [score] (the inner product), while every result of the brute-force
    path has [distance = 1 - score]. Under [l2], the FAISS path's score is
    [1 - distance / (max + eps)] with [max] taken over the distances of
    the returned hits, while the brute-force path takes [max] over the
    distances to all stored rows. *)
Theorem C7_paths_score_differently (s : t) (query_embedding : vec) (top_k : Z)
        (res : list (gmap string value)) :
  search s query_embedding top_k = Ret res ->
  match index s, use_faiss s, String.eqb (metric s) "cosine" with
  | Some (Faiss fx), true, true =>
      Forall (fun r => exists m x, r = make_result m x x) res
  | Some (Numpy m), false, true =>
      Forall (fun r => exists md x, r = make_result md x (1 - x)%R) res
  | Some (Faiss fx), true, false =>
      exists hits mx,
        index_search fx query_embedding
          (Z.min top_k (Z.of_nat (length (metadata s)))) = Ret hits
        /\ np_max (map fst hits) = Ret mx
        /\ Forall (fun r => exists md distance,
                       In distance (map fst hits)
                       /\ r = make_result md (1 - distance / (mx + eps))%R distance) res
  | Some (Numpy m), false, false =>
      exists dist,
        l2_distances query_embedding m = Ret dist
        /\ length dist = length m
        /\ Forall (fun r => exists md idx mx,
                       np_max dist = Ret mx
                       /\ r = make_result md (1 - nth idx dist 0 / (mx + eps))%R
                                (nth idx dist 0%R)) res
  | _, _, _ => True
  end.
Proof.
  unfold VectorIndex.search. destruct (index s) as [[fx|m]|]; [| |trivial].
  - destruct (use_faiss s); [|trivial].
    destruct (String.eqb (metric s) "cosine").
    + destruct (index_search fx _ _) as [hits|err]; [|discriminate]. simpl.
      intros H. apply faiss_results_spec in H as [_ H].
      eapply Forall_impl; [exact H|].
      intros r (md & sim & dist & idx & Hin & _ & _ & ->).
      apply in_map_iff in Hin as ([d0 i0] & [= <- <- <-] & _). eauto.
    + destruct (index_search fx _ _) as [hits|err] eqn:Hs; [|discriminate]. simpl.
      destruct (np_max (map fst hits)) as [mx|err] eqn:Hmx; [|discriminate]. simpl.
      intros H. apply faiss_results_spec in H as [_ H].
      exists hits, mx. split; [reflexivity|]. split; [exact Hmx|].
      eapply Forall_impl; [exact H|].
      intros r (md & sim & dist & idx & Hin & _ & _ & ->).
      apply in_map_iff in Hin as ([d0 i0] & [= <- <- <-] & Hin).
      exists md, d0. split; [|reflexivity].
      apply in_map_iff. exists (d0, i0). auto.
  - destruct (use_faiss s); [trivial|].
    destruct (String.eqb (metric s) "cosine").
    + destruct FAISS_AVAILABLE; [discriminate|].
      destruct (cosine_similarity query_embedding m) as [sim|err]; [|discriminate]. simpl.
      intros H. apply omap_Ret in H.
      apply Forall2_Forall_r with (Q := fun r => exists md x, r = make_result md x (1 - x)%R)
        in H; [|].
      * exact H.
      * apply Forall_forall. intros idx _ r. unfold cosine_result.
        destruct (metadata s !! idx); [|discriminate]. intros [= <-]. eauto.
    + destruct (l2_distances query_embedding m) as [dist|err] eqn:Hd; [|discriminate]. simpl.
      intros H. apply omap_Ret in H.
      exists dist. split; [reflexivity|]. split.
      * apply omap_Ret in Hd. symmetry. eapply Forall2_length; exact Hd.
      * eapply Forall2_Forall_r; [exact H|].
        apply Forall_forall. intros idx _ r. unfold l2_result.
        destruct (metadata s !! idx); [|discriminate].
        destruct (np_max dist) as [mx|err]; [|discriminate]. simpl.
        intros [= <-]. eauto.
Qed.

End VectorIndexFacts.

(** *** Worked inputs for the vector index *)

(** Two vectors and no metadata entry: [build] succeeds silently. *)
Lemma C2_mismatched_counts_build :
  length [[1%R]; [2%R]] <> length ([] : list (gmap string value))
  /\ VectorIndex.build (VectorIndex.__init__ false (numpy_config "l2")) [[1%R]; [2%R]] []
     = Ret ({| VectorIndex.cfg := numpy_config "l2";
               VectorIndex.index_dir := ".cache/vector_index";
               VectorIndex.use_faiss := false;
               VectorIndex.metric := "l2";
               VectorIndex.index := Some (VectorIndex.Numpy [[1%R]; [2%R]]);
               VectorIndex.metadata := [];
               VectorIndex.dimension := Some 1 |},
            [VectorIndex.LogInfo "Built numpy index"]).
Proof. split; [discriminate|reflexivity]. Qed.

(** One vector and two metadata entries. *)
Lemma C2_witness :
  exists s' msg,
    VectorIndex.build (VectorIndex.__init__ false (numpy_config "l2")) [[1%R]] [meta_a; meta_b]
    = Ret (s', [VectorIndex.LogInfo msg])
    /\ VectorIndex.metadata s' = [meta_a; meta_b]
    /\ is_Some (VectorIndex.index s')
    /\ VectorIndex.dimension s' = Some (length (hd [] [[1%R]])).
Proof.
  apply (proj2 (C2_build_has_no_count_check
                  (VectorIndex.__init__ false (numpy_config "l2")) [[1%R]] [meta_a; meta_b])).
  discriminate.
Defined.

(** An index configured with [l2] loads ["a"], whose envelope records
    [cosine], and then ["b"], whose envelope has no metric entry: the second
    load succeeds and the metric is [cosine], not the configured [l2]. *)
Lemma C10_fallback_is_current_metric :
  let s0 := VectorIndex.__init__ false (numpy_config "l2") in
  let s1 := (VectorIndex.load own_file s0 disk_two_indexes "a").2 in
  exists s2 env,
    VectorIndex.load own_file s1 disk_two_indexes "b" = (true, s2)
    /\ disk_two_indexes !! own_file (VectorIndex.metadata_path s1 "b")
       = Some (VectorIndex.PickleFile env)
    /\ VectorIndex.env_metric env = None
    /\ VectorIndex.metric s2 = "cosine"
    /\ default "l2" (VectorIndex.cfg_metric (VectorIndex.cfg s2)) = "l2".
Proof.
  eexists _, _. repeat split; vm_compute; reflexivity.
Qed.

(** The first load of the index configured with [l2]. *)
Lemma C10_witness :
  exists env,
    disk_two_indexes
      !! own_file (VectorIndex.metadata_path (VectorIndex.__init__ false (numpy_config "l2")) "a")
    = Some (VectorIndex.PickleFile env)
    /\ VectorIndex.metric
         (VectorIndex.load own_file (VectorIndex.__init__ false (numpy_config "l2"))
            disk_two_indexes "a").2
       = default (VectorIndex.metric (VectorIndex.__init__ false (numpy_config "l2")))
           (VectorIndex.env_metric env).
Proof.
  apply (C10_load_metric own_file (VectorIndex.__init__ false (numpy_config "l2")) _
           disk_two_indexes "a").
  vm_compute. reflexivity.
Defined.

(** A brute-force index with one vector, saved under ["sub/x"] while the
    index directory has no sub-directory [sub]: the metadata file cannot be
    opened, [save] writes nothing, and [load] on a fresh instance returns
    [False] and restores nothing. *)
Lemma C3_unwritable_name_not_restored :
  let s := built false (numpy_config "l2") [[1%R]] [meta_a] in
  VectorIndex.consistent false s
  /\ is_Some (VectorIndex.index s)
  /\ VectorIndex.save own_file no_sub_directory None s ∅ "sub/x" = ∅
  /\ VectorIndex.load own_file (VectorIndex.__init__ false (VectorIndex.cfg s))
       (VectorIndex.save own_file no_sub_directory None s ∅ "sub/x") "sub/x"
     = (false, VectorIndex.__init__ false (VectorIndex.cfg s))
  /\ VectorIndex.metadata (VectorIndex.__init__ false (VectorIndex.cfg s))
     <> VectorIndex.metadata s.
Proof.
  intros s. split; [repeat split|]. split; [eexists; reflexivity|].
  split; [reflexivity|]. split; [reflexivity|]. discriminate.
Qed.

(** A brute-force index with one vector, saved under ["default"]. *)
Lemma C3_witness :
  let s := built false (numpy_config "l2") [[1%R]] [meta_a] in
  exists s',
    VectorIndex.load own_file (VectorIndex.__init__ false (VectorIndex.cfg s))
      (VectorIndex.save own_file accepts_all None s ∅ "default") "default" = (true, s')
    /\ VectorIndex.metadata s' = VectorIndex.metadata s
    /\ VectorIndex.dimension s' = VectorIndex.dimension s
    /\ VectorIndex.metric s' = VectorIndex.metric s
    /\ VectorIndex.index s' = VectorIndex.index s
    /\ forall (query_embedding : vec) (top_k : Z),
         VectorIndex.search false VectorIndex.flat_search s' query_embedding top_k
         = VectorIndex.search false VectorIndex.flat_search s query_embedding top_k.
Proof.
  apply (proj2 (C3_save_load_roundtrip false VectorIndex.flat_search own_file accepts_all None
                  (built false (numpy_config "l2") [[1%R]] [meta_a]) ∅ "default")).
  - repeat split.
  - eexists. reflexivity.
  - reflexivity.
  - reflexivity.
  - vm_compute. discriminate.
Defined.

(** *** Numeric facts for the worked searches *)

Lemma norm2_singleton (x : R) : norm2 [x] = Rabs x.
Proof.
  unfold norm2, dot. replace (x * x + 0)%R with (Rsqr x) by (unfold Rsqr; ring).
  apply sqrt_Rsqr_abs.
Qed.

Lemma normalize_L2_one : normalize_L2 [1%R] = [1%R].
Proof.
  unfold normalize_L2. rewrite norm2_singleton, Rabs_R1.
  destruct (Req_dec_T 1 0) as [H|_]; [lra|]. simpl. f_equal. field.
Qed.

Lemma Rleb_false (x y : R) : (y < x)%R -> Rleb x y = false.
Proof. intros H. unfold Rleb. destruct (Rle_dec x y); [lra|reflexivity]. Qed.

Lemma Rleb_true (x y : R) : (x <= y)%R -> Rleb x y = true.
Proof. intros H. unfold Rleb. destruct (Rle_dec x y); [reflexivity|lra]. Qed.

(** *** C7, worked *)

Lemma search_faiss_cosine_one :
  VectorIndex.search true VectorIndex.flat_search
    (built true (faiss_config "cosine") [[1%R]] [meta_a]) [1%R] 1
  = Ret [VectorIndex.make_result meta_a 1 1].
Proof.
  unfold built, VectorIndex.search. cbn -[normalize_L2 dot].
  rewrite normalize_L2_one. unfold VectorIndex.flat_search. cbn.
  change (1 `min` Z.of_nat 1)%Z with 1%Z. cbn.
  change (Z.to_nat 1) with 1%nat. cbn.
  replace (- - (1 * 1 + 0))%R with 1%R by ring. reflexivity.
Qed.

Lemma search_numpy_cosine_one :
  VectorIndex.search false VectorIndex.flat_search
    (built false (numpy_config "cosine") [[1%R]] [meta_a]) [1%R] 1
  = Ret [VectorIndex.make_result meta_a 1 0].
Proof.
  unfold built, VectorIndex.search. cbn -[normalize_L2 dot].
  rewrite normalize_L2_one.
  change (1 `min` Z.of_nat 1)%Z with 1%Z. cbn.
  replace (1 * 1 + 0)%R with 1%R by ring.
  change (py_slice_from [0%nat] (- (1))) with [0%nat]. cbn.
  replace (1 - 1)%R with 0%R by ring. reflexivity.
Qed.

(** The same stored vector [[1.0]], metric [cosine], query [[1.0]] and
    [top_k = 1]: the FAISS path reports distance 1 for the single result,
    the brute-force path reports distance 0. *)
Lemma C7_cosine_distance_differs :
  let s_faiss := built true (faiss_config "cosine") [[1%R]] [meta_a] in
  let s_numpy := built false (numpy_config "cosine") [[1%R]] [meta_a] in
  VectorIndex.search true VectorIndex.flat_search s_faiss [1%R] 1
  = Ret [VectorIndex.make_result meta_a 1 1]
  /\ VectorIndex.search false VectorIndex.flat_search s_numpy [1%R] 1
     = Ret [VectorIndex.make_result meta_a 1 0]
  /\ VectorIndex.search true VectorIndex.flat_search s_faiss [1%R] 1
     <> VectorIndex.search false VectorIndex.flat_search s_numpy [1%R] 1.
Proof.
  intros s_faiss s_numpy. unfold s_faiss, s_numpy.
  split; [exact search_faiss_cosine_one|]. split; [exact search_numpy_cosine_one|].
  rewrite search_faiss_cosine_one, search_numpy_cosine_one. intros Heq.
  apply (f_equal (fun o : outcome (list (gmap string value)) =>
                    match o with
                    | Ret [m] => m !! "distance"
                    | _ => None
                    end)) in Heq.
  unfold VectorIndex.make_result in Heq. rewrite !lookup_insert_eq in Heq.
  assert (1 = 0)%R by congruence. lra.
Qed.

(** The single result of the brute-force search above. *)
Lemma C7_witness :
  Forall (fun r => exists md x, r = VectorIndex.make_result md x (1 - x)%R)
         [VectorIndex.make_result meta_a 1 0].
Proof.
  exact (C7_paths_score_differently false VectorIndex.flat_search
           (built false (numpy_config "cosine") [[1%R]] [meta_a]) [1%R] 1 _
           search_numpy_cosine_one).
Defined.

(** *** C9 *)

(** C9. [search] is meant never to read [metadata] out of range, to return
    at most [min(top_k, len(metadata))] results and to skip labels that are
    not below [len(metadata)]. The FAISS branch has that guard; the
    brute-force branch does not. With two stored vectors and two metadata
    entries, [top_k = 0] under [cosine] returns two results (the slice
    [[-0:]] is the whole array); with two stored vectors and one metadata
    entry, the nearest row of the query [[2.0]] is row 1 and
    [metadata[1]] raises [IndexError]. *)
Theorem C9_brute_force_search_unguarded :
  let s_two := built false (numpy_config "cosine") [[1%R]; [2%R]] [meta_a; meta_b] in
  let s_short := built false (numpy_config "l2") [[1%R]; [2%R]] [meta_a] in
  (Z.min 0 (Z.of_nat (length (VectorIndex.metadata s_two))) = 0%Z
   /\ exists r1 r2,
        VectorIndex.search false VectorIndex.flat_search s_two [1%R] 0 = Ret [r1; r2])
  /\ VectorIndex.search false VectorIndex.flat_search s_short [2%R] 5 = Raise IndexError.
Proof.
  intros s_two s_short. split; [split; [reflexivity|]|].
  - unfold s_two, built, VectorIndex.search. cbn -[normalize_L2 dot].
    change (0 `min` Z.of_nat 2)%Z with 0%Z.
    unfold np_argsort. cbn -[normalize_L2 dot].
    destruct (Rleb _ _); cbn -[normalize_L2 dot]; eexists _, _; reflexivity.
  - unfold s_short, built, VectorIndex.search. cbn -[norm2].
    rewrite !norm2_singleton.
    change (5 `min` Z.of_nat 1)%Z with 1%Z.
    unfold np_argsort. cbn.
    rewrite Rleb_false.
    + reflexivity.
    + replace (2 - 2)%R with 0%R by ring. replace (1 - 2)%R with (- (1))%R by ring.
      rewrite Rabs_R0, Rabs_Ropp, Rabs_R1. lra.
Qed.

(** ** Properties of the query orchestrator *)

Section RetrieverFacts.

Variable md5 : str -> string.
Variable FAISS_AVAILABLE : bool.
Variable index_search : VectorIndex.faiss_index -> vec -> Z -> outcome (list (R * Z)).
Variable str_format : str -> list (string * value) -> outcome str.

Import Retriever.

Local Abbreviation raw_search := (Retriever.raw_search md5 FAISS_AVAILABLE index_search).
Local Abbreviation raw_query := (Retriever.raw_query md5 FAISS_AVAILABLE index_search).
Local Abbreviation query := (Retriever.query md5 FAISS_AVAILABLE index_search str_format).

Local Abbreviation scored :=
  (Forall (fun r : gmap string value => exists x, r !! "score" = Some (VFloat x))).

Lemma make_result_score (m : gmap string value) (x y : R) :
  VectorIndex.make_result m x y !! "score" = Some (VFloat x).
Proof.
  unfold VectorIndex.make_result.
  rewrite lookup_insert_ne by discriminate. apply lookup_insert_eq.
Qed.

(** Every result of [search] carries a float [score]. *)
Lemma search_scored (s : VectorIndex.t) (query_embedding : vec) (k : Z)
      (res : list (gmap string value)) :
  VectorIndex.search FAISS_AVAILABLE index_search s query_embedding k = Ret res -> scored res.
Proof.
  unfold VectorIndex.search. destruct (VectorIndex.index s) as [[fx|m]|].
  - destruct (VectorIndex.use_faiss s); [|discriminate].
    assert (Hloop : forall hits, VectorIndex.faiss_results (VectorIndex.metadata s) hits = Ret res
                                 -> scored res).
    { intros hits H. apply faiss_results_spec in H as [_ H].
      eapply Forall_impl; [exact H|].
      intros r (md & sim & dist & idx & _ & _ & _ & ->). eexists. apply make_result_score. }
    destruct (String.eqb (VectorIndex.metric s) "cosine").
    + destruct (index_search fx _ _) as [hits|err]; [|discriminate]. simpl. apply Hloop.
    + destruct (index_search fx _ _) as [hits|err]; [|discriminate]. simpl.
      destruct (np_max (map fst hits)) as [mx|err]; [|discriminate]. simpl. apply Hloop.
  - destruct (VectorIndex.use_faiss s); [discriminate|].
    destruct (String.eqb (VectorIndex.metric s) "cosine").
    + destruct FAISS_AVAILABLE; [discriminate|].
      destruct (VectorIndex.cosine_similarity query_embedding m) as [sim|err]; [|discriminate].
      simpl. intros H. apply omap_Ret in H.
      eapply Forall2_Forall_r; [exact H|].
      apply Forall_forall. intros idx _ r. unfold VectorIndex.cosine_result.
      destruct (VectorIndex.metadata s !! idx); [|discriminate].
      intros [= <-]. eexists. apply make_result_score.
    + destruct (VectorIndex.l2_distances query_embedding m) as [dist|err]; [|discriminate].
      simpl. intros H. apply omap_Ret in H.
      eapply Forall2_Forall_r; [exact H|].
      apply Forall_forall. intros idx _ r. unfold VectorIndex.l2_result.
      destruct (VectorIndex.metadata s !! idx); [|discriminate].
      destruct (np_max dist) as [mx|err]; [|discriminate]. simpl.
      intros [= <-]. eexists. apply make_result_score.
  - intros [= <-]. constructor.
Qed.

Lemma raw_search_scored (s : CodeContextRetriever) (r : EnhancedCodeRetriever)
      (disk : gmap string Embedder.cache_file) (q : str) (k : option Z) :
  scored (raw_search s r disk q k).1.
Proof.
  unfold Retriever.raw_search.
  destruct (Embedder.embed md5 (embedder s) disk q) as [v disk'].
  destruct (VectorIndex.search FAISS_AVAILABLE index_search (vector_index s) v _)
    as [res|err] eqn:Hs; simpl.
  - eapply search_scored; exact Hs.
  - constructor.
Qed.

(** The threshold filter on scored results: it never raises, keeps the
    order, and keeps exactly the results whose score is at least the
    threshold. *)
Lemma keep_above_spec (t : R) (raw : list (gmap string value)) :
  scored raw ->
  exists kept,
    keep_above t raw = Ret kept
    /\ sublist kept raw
    /\ (forall res, res ∈ kept <-> res ∈ raw /\ exists x, get_score res = Ret x /\ (t <= x)%R)
    /\ Forall (fun res => exists x, get_score res = Ret x /\ ~ (x < t)%R) kept.
Proof.
  induction 1 as [|r raw [x Hx] Hraw (kept & Hk & Hsub & Hiff & Hall)]; simpl.
  - exists []. split; [reflexivity|]. split; [constructor|]. split; [|constructor].
    intros res. split; [intros H; inversion H|intros [H _]; inversion H].
  - assert (Hscore : get_score r = Ret x) by (unfold get_score; by rewrite Hx).
    rewrite Hscore, Hk. simpl. unfold Rleb.
    destruct (Rle_dec t x) as [Hle|Hgt].
    + exists (r :: kept). split; [reflexivity|]. split; [by constructor|]. split.
      * intros res. rewrite !elem_of_cons, Hiff. split.
        -- intros [->|[H1 H2]]; [split; [by left|eauto]|split; [by right|exact H2]].
        -- intros [[->|H1] H2]; [by left|right; auto].
      * constructor; [|exact Hall]. exists x. split; [exact Hscore|lra].
    + exists kept. split; [reflexivity|]. split; [by constructor|]. split; [|exact Hall].
      intros res. rewrite elem_of_cons, Hiff. split.
      * intros [H1 H2]. split; [by right|exact H2].
      * intros [[->|H1] H2]; [|auto].
        destruct H2 as (x' & Hx' & Hle). rewrite Hscore in Hx'. injection Hx' as <-. lra.
Qed.

(** A result with a float under ["score"] has that float as the score the
    filter compares. *)
Lemma get_score_float (res : gmap string value) (x : R) :
  res !! "score" = Some (VFloat x) -> get_score res = Ret x.
Proof. intros H. unfold get_score. by rewrite H. Qed.

(** The filter on scored results is the list filter on the value stored
    under ["score"]. *)
Lemma keep_above_filter (t : R) (raw : list (gmap string value)) :
  scored raw ->
  keep_above t raw
  = Ret (List.filter (fun res => match res !! "score" with
                                 | Some (VFloat x) => Rleb t x
                                 | _ => false
                                 end) raw).
Proof.
  induction 1 as [|r raw [x Hx] Hraw IH]; [reflexivity|].
  cbn [keep_above List.filter]. rewrite (get_score_float r x Hx), IH, Hx. reflexivity.
Qed.

(** *** C4 *)

(** C4. With the retriever initialised, [query] formats a sub-list of the
    results of its [raw_query] call, each of which carries a float under
    ["score"]. When a threshold [t] is given, or none is given and [t] is
    configured, the formatted results are exactly the raw results whose
    value under ["score"] is at least [t], in their original order, so
    none has a score below [t]. When no threshold is given and none is
    configured, the raw results are formatted one by one: same count, same
    order. *)
Theorem C4_query_threshold (s : CodeContextRetriever) (r : EnhancedCodeRetriever)
        (disk : gmap string Embedder.cache_file) (q : str) (threshold : option R) :
  retriever s = Some r ->
  exists raw_results disk',
    raw_query s disk q None = (Ret raw_results, disk')
    /\ Forall (fun res => exists x, res !! "score" = Some (VFloat x)) raw_results
    /\ match (match threshold with
              | None => cfg_threshold (retriever_config s)
              | Some t => Some t
              end) with
       | Some t =>
           exists kept,
             query s disk q threshold = (omap (format_result str_format r) kept, disk')
             /\ kept = List.filter (fun res => match res !! "score" with
                                               | Some (VFloat x) => Rleb t x
                                               | _ => false
                                               end) raw_results
             /\ sublist kept raw_results
             /\ (forall res, res ∈ kept <->
                   res ∈ raw_results
                   /\ exists x, res !! "score" = Some (VFloat x) /\ (t <= x)%R)
             /\ Forall (fun res => exists x, res !! "score" = Some (VFloat x) /\ ~ (x < t)%R)
                  kept
       | None =>
           query s disk q threshold = (omap (format_result str_format r) raw_results, disk')
           /\ forall out,
               omap (format_result str_format r) raw_results = Ret out ->
               length out = length raw_results
               /\ Forall2 (fun res snippet => format_result str_format r res = Ret snippet)
                    raw_results out
       end.
Proof.
  intros Hr. unfold Retriever.query, Retriever.raw_query. rewrite Hr.
  pose proof (raw_search_scored s r disk q None) as Hscored.
  destruct (raw_search s r disk q None) as [raw_results disk'].
  simpl in Hscored. exists raw_results, disk'. split; [reflexivity|].
  split; [exact Hscored|].
  destruct (match threshold with
            | None => cfg_threshold (retriever_config s)
            | Some t => Some t
            end) as [t|].
  - destruct (keep_above_spec t raw_results Hscored) as (kept & Hk & Hsub & Hiff & Hall).
    assert (Hfloat : forall res, res ∈ raw_results ->
                       forall P : R -> Prop,
                         (exists x, get_score res = Ret x /\ P x)
                         <-> (exists x, res !! "score" = Some (VFloat x) /\ P x)).
    { intros res Hin P. apply (proj1 (Forall_forall _ _) Hscored) in Hin as [x Hx].
      rewrite (get_score_float res x Hx). rewrite Hx. split.
      - intros (y & [= <-] & HP). eauto.
      - intros (y & [= <-] & HP). eauto. }
    exists kept. simpl. rewrite Hk. simpl. split; [reflexivity|]. split.
    { rewrite (keep_above_filter t raw_results Hscored) in Hk. by injection Hk as <-. }
    split; [exact Hsub|]. split.
    + intros res. rewrite Hiff. split.
      * intros [Hin H]. split; [exact Hin|]. by apply (Hfloat res Hin (fun x => (t <= x)%R)).
      * intros [Hin H]. split; [exact Hin|]. by apply (Hfloat res Hin (fun x => (t <= x)%R)).
    + apply Forall_forall. intros res Hin.
      pose proof (proj1 (Forall_forall _ _) Hall res Hin) as H.
      apply (Hfloat res); [|exact H].
      by apply (elem_of_sublist kept raw_results res Hin Hsub).
  - simpl. split; [reflexivity|].
    intros out Hout. apply omap_Ret in Hout. split; [|exact Hout].
    symmetry. eapply Forall2_length; exact Hout.
Qed.

End RetrieverFacts.

(** A query on the sample retriever, no threshold given or configured. *)
Lemma C4_witness :
  exists raw_results disk',
    Retriever.raw_query string_of_list_ascii false VectorIndex.flat_search sample_retriever ∅
      (py "a") None = (Ret raw_results, disk')
    /\ Forall (fun res => exists x, res !! "score" = Some (VFloat x)) raw_results
    /\ Retriever.query string_of_list_ascii false VectorIndex.flat_search echo_format
         sample_retriever ∅ (py "a") None
       = (omap (Retriever.format_result echo_format
                  (Retriever.new_retriever sample_retriever_config)) raw_results, disk')
    /\ forall out,
        omap (Retriever.format_result echo_format
                (Retriever.new_retriever sample_retriever_config)) raw_results = Ret out ->
        length out = length raw_results
        /\ Forall2 (fun res snippet =>
                      Retriever.format_result echo_format
                        (Retriever.new_retriever sample_retriever_config) res = Ret snippet)
             raw_results out.
Proof.
  exact (C4_query_threshold string_of_list_ascii false VectorIndex.flat_search echo_format
           sample_retriever (Retriever.new_retriever sample_retriever_config) ∅ (py "a") None
           eq_refl).
Defined.

(** * Further properties *)

(** ** Vector index: persistence *)

Section VectorIndexPersistence.

Variable realpath : string -> string.
Variable can_write : string -> bool.
Variable write_index_of_none : option VectorIndex.file_content.

Import VectorIndex.

Local Abbreviation load := (VectorIndex.load realpath).
Local Abbreviation save := (VectorIndex.save realpath can_write write_index_of_none).



(** X1. [save] under one name writes at most the two files that the
    paths of that name denote: every other file of the disk is as before,
    and a [load], by any instance and under any name, whose two paths
    denote other files than these two behaves as if the [save] had not
    happened. Two names that differ as strings may denote the same files
    (["b"] and ["./b"]); what counts is the file a path denotes. *)
Theorem save_leaves_other_names (s s' : t) (disk : gmap string file_content) (n1 n2 : string) :
  (forall p, p <> realpath (index_path s n1) -> p <> realpath (metadata_path s n1) ->
             save s disk n1 !! p = disk !! p)
  /\ (realpath (index_path s' n2) <> realpath (index_path s n1) ->
      realpath (index_path s' n2) <> realpath (metadata_path s n1) ->
      realpath (metadata_path s' n2) <> realpath (index_path s n1) ->
      realpath (metadata_path s' n2) <> realpath (metadata_path s n1) ->
      load s' (save s disk n1) n2 = load s' disk n2).
Proof.
  assert (Hother : forall p, p <> realpath (index_path s n1) ->
                             p <> realpath (metadata_path s n1) ->
                             save s disk n1 !! p = disk !! p).
  { intros p H1 H2. unfold VectorIndex.save.
    destruct (can_write (metadata_path s n1)); [|reflexivity]. cbn [negb].
    destruct (can_write (index_path s n1)), (use_faiss s), (index s) as [[fx|m]|],
      write_index_of_none;
      rewrite ?lookup_insert_ne by congruence; reflexivity. }
  split; [exact Hother|].
  intros H1 H2 H3 H4. unfold VectorIndex.load. rewrite !Hother by assumption. reflexivity.
Qed.

(** X2. [load] returns [True] exactly when both files exist, the metadata
    file unpickles to an envelope with a [metadata] and a [dimension] entry,
    and the index file is of the kind the instance's backend reads. *)
Theorem load_succeeds_iff (s : t) (disk : gmap string file_content) (name : string) :
  (load s disk name).1 = true
  <-> exists index_file env md dim,
        disk !! realpath (index_path s name) = Some index_file
        /\ disk !! realpath (metadata_path s name) = Some (PickleFile env)
        /\ env_metadata env = Some md
        /\ env_dimension env = Some dim
        /\ (if use_faiss s
            then exists fx, index_file = FaissFile fx
            else exists m, index_file = NpyFile m).
Proof.
  split.
  - unfold VectorIndex.load.
    destruct (disk !! realpath (index_path s name)) as [ixf|]; [|discriminate].
    destruct (disk !! realpath (metadata_path s name)) as [[env| | | |]|]; try discriminate.
    destruct (env_metadata env) as [md|] eqn:Hmd; [|discriminate].
    destruct (env_dimension env) as [dim|] eqn:Hdim; [|discriminate].
    cbn [use_faiss set_metric set_dimension set_metadata].
    intros H. exists ixf, env, md, dim. repeat split; auto.
    destruct (use_faiss s); destruct ixf; try discriminate; eauto.
  - intros (ixf & env & md & dim & H1 & H2 & H3 & H4 & H5).
    rewrite (load_unfold realpath s disk name ixf env md dim H1 H2 H3 H4).
    destruct (use_faiss s); destruct H5 as [x ->]; reflexivity.
Qed.

(** X3. A [load] that returns [False] never replaces the stored vector
    structure, the configuration, the index directory or the backend
    flag. It changes nothing at all when one of the two files is missing,
    when the metadata file is not a pickled envelope, or when the envelope
    has no [metadata] entry. When the envelope has a [metadata] entry and
    no [dimension] entry, the metadata alone is replaced. When it has both
    and the index file is not of the backend's kind, [load] returns
    [False] with the metadata, the dimension and the metric already
    replaced by the envelope's (the metric stays when the envelope records
    none). *)
Theorem failed_load_effects (s s' : t) (disk : gmap string file_content) (name : string) :
  load s disk name = (false, s') ->
  index s' = index s
  /\ cfg s' = cfg s /\ index_dir s' = index_dir s /\ use_faiss s' = use_faiss s
  /\ match disk !! realpath (index_path s name), disk !! realpath (metadata_path s name) with
     | Some index_file, Some (PickleFile env) =>
         match env_metadata env, env_dimension env with
         | None, _ => s' = s
         | Some md, None =>
             metadata s' = md /\ dimension s' = dimension s /\ metric s' = metric s
         | Some md, Some dim =>
             metadata s' = md /\ dimension s' = dim
             /\ metric s' = default (metric s) (env_metric env)
             /\ (if use_faiss s
                 then forall fx, index_file <> FaissFile fx
                 else forall m, index_file <> NpyFile m)
         end
     | _, _ => s' = s
     end.
Proof.
  intros Hload. unfold VectorIndex.load in Hload.
  repeat case_match; simplify_eq/=; split_and!; done || congruence.
Qed.

End VectorIndexPersistence.

Lemma save_leaves_other_names_witness :
  VectorIndex.load own_file (VectorIndex.__init__ false (numpy_config "l2"))
    (VectorIndex.save own_file accepts_all None
       (built false (numpy_config "l2") [[1%R]] [meta_a]) disk_two_indexes "a")
    "b"
  = VectorIndex.load own_file (VectorIndex.__init__ false (numpy_config "l2"))
      disk_two_indexes "b".
Proof.
  apply (proj2 (save_leaves_other_names own_file accepts_all None
                  (built false (numpy_config "l2") [[1%R]] [meta_a])
                  (VectorIndex.__init__ false (numpy_config "l2")) disk_two_indexes "a" "b"));
    vm_compute; discriminate.
Defined.

Lemma load_succeeds_iff_witness :
  (VectorIndex.load own_file (VectorIndex.__init__ false (numpy_config "l2"))
     disk_two_indexes "a").1
  = true.
Proof.
  apply (proj2 (load_succeeds_iff own_file (VectorIndex.__init__ false (numpy_config "l2"))
                  disk_two_indexes "a")).
  exists (VectorIndex.NpyFile [[1%R]]),
    {| VectorIndex.env_metadata := Some [meta_a];
       VectorIndex.env_dimension := Some (Some 1);
       VectorIndex.env_metric := Some "cosine" |}, [meta_a], (Some 1).
  repeat split; try (vm_compute; reflexivity).
  simpl. eexists. reflexivity.
Defined.

(** An instance with the FAISS backend, configured with [l2], reads the
    files a brute-force instance wrote under ["a"] with the metric
    [cosine]: the load fails and the metric is [cosine] afterwards. *)
Lemma failed_load_effects_witness :
  let s := VectorIndex.__init__ true (faiss_config "l2") in
  let s' := (VectorIndex.load own_file s disk_two_indexes "a").2 in
  VectorIndex.index s' = VectorIndex.index s
  /\ VectorIndex.cfg s' = VectorIndex.cfg s
  /\ VectorIndex.index_dir s' = VectorIndex.index_dir s
  /\ VectorIndex.use_faiss s' = VectorIndex.use_faiss s
  /\ VectorIndex.metadata s' = [meta_a]
  /\ VectorIndex.dimension s' = Some 1
  /\ VectorIndex.metric s' = "cosine"
  /\ VectorIndex.metric s = "l2".
Proof.
  pose proof (failed_load_effects own_file (VectorIndex.__init__ true (faiss_config "l2"))
                (VectorIndex.load own_file (VectorIndex.__init__ true (faiss_config "l2"))
                   disk_two_indexes "a").2 disk_two_indexes "a") as H.
  destruct H as (H1 & H2 & H3 & H4 & H5); [vm_compute; reflexivity|].
  intros s s'. split; [exact H1|]. split; [exact H2|]. split; [exact H3|].
  split; [exact H4|]. vm_compute in H5. destruct H5 as (H5 & H6 & H7 & _).
  split; [exact H5|]. split; [exact H6|]. split; [exact H7|]. reflexivity.
Defined.

(** ** Vector index: numbers *)

Section VectorNumbers.

Local Open Scope R_scope.

Lemma dot_self_nonneg (a : vec) : 0 <= dot a a.
Proof. induction a as [|x a IH]; simpl; [lra|]. nra. Qed.

Lemma dot_scale (a b : vec) (n : R) :
  n <> 0 ->
  dot (map (fun x => x / n) a) (map (fun x => x / n) b) = dot a b / (n * n).
Proof.
  intros Hn. revert b. induction a as [|x a IH]; intros [|y b]; simpl; try (field; exact Hn).
  rewrite IH. field. exact Hn.
Qed.

Lemma norm2_nonneg (a : vec) : 0 <= norm2 a.
Proof. apply sqrt_pos. Qed.

Lemma norm2_sqr (a : vec) : norm2 a * norm2 a = dot a a.
Proof. apply sqrt_sqrt, dot_self_nonneg. Qed.

Lemma normalize_L2_zero (a : vec) : norm2 a = 0 -> normalize_L2 a = a.
Proof. intros H. unfold normalize_L2. by destruct (Req_dec_T (norm2 a) 0). Qed.

Lemma normalize_L2_nonzero (a : vec) :
  norm2 a <> 0 ->
  normalize_L2 a = map (fun x => x / norm2 a) a /\ norm2 (normalize_L2 a) = 1.
Proof.
  intros H. unfold normalize_L2. destruct (Req_dec_T (norm2 a) 0) as [E|_]; [contradiction|].
  split; [reflexivity|].
  unfold norm2 at 1. rewrite dot_scale by exact H. rewrite norm2_sqr.
  assert (dot a a <> 0).
  { intros E. apply H. unfold norm2. rewrite E. apply sqrt_0. }
  replace (dot a a / dot a a) with 1 by (field; assumption). apply sqrt_1.
Qed.

(** *** Sorting by key *)

Lemma insert_by_key_perm (p : R * nat) (l : list (R * nat)) :
  Permutation (insert_by_key p l) (p :: l).
Proof.
  induction l as [|q l IH]; simpl; [reflexivity|].
  destruct (Rleb (fst p) (fst q)); [reflexivity|].
  rewrite IH. apply perm_swap.
Qed.

Lemma sort_by_key_perm (l : list (R * nat)) :
  Permutation (fold_right insert_by_key [] l) l.
Proof.
  induction l as [|p l IH]; simpl; [reflexivity|].
  rewrite insert_by_key_perm. by constructor.
Qed.

Lemma insert_by_key_sorted (p : R * nat) (l : list (R * nat)) :
  Sorted key_le l -> Sorted key_le (insert_by_key p l).
Proof.
  induction 1 as [|q l Hs IH Hhd]; simpl.
  - repeat constructor.
  - unfold Rleb. destruct (Rle_dec (fst p) (fst q)) as [Hle|Hgt].
    + constructor; [by constructor|]. constructor. exact Hle.
    + constructor; [exact IH|].
      assert (Hqp : key_le q p) by (unfold key_le; lra).
      destruct l as [|r l]; simpl.
      * constructor. exact Hqp.
      * destruct (Rleb (fst p) (fst r)); constructor; [exact Hqp|].
        by inversion Hhd.
Qed.

Lemma sort_by_key_sorted (l : list (R * nat)) :
  Sorted key_le (fold_right insert_by_key [] l).
Proof.
  induction l as [|p l IH]; simpl; [constructor|]. by apply insert_by_key_sorted.
Qed.

Lemma index_from_spec (keys : vec) (i : nat) :
  map snd (index_from i keys) = seq i (length keys)
  /\ Forall (fun p => nth (snd p - i) keys 0 = fst p /\ (i <= snd p < i + length keys)%nat)
       (index_from i keys).
Proof.
  revert i. induction keys as [|x keys IH]; intros i; simpl.
  - split; constructor.
  - destruct (IH (S i)) as [IH1 IH2]. split; [by rewrite IH1|].
    constructor.
    + simpl. rewrite Nat.sub_diag. split; [reflexivity|lia].
    + eapply Forall_impl; [exact IH2|]. intros [y j] [H1 H2]. simpl in *.
      split; [|lia]. replace (j - i)%nat with (S (j - S i)) by lia. exact H1.
Qed.

(** [np.argsort]: a permutation of the indices, with ascending keys. *)
Lemma np_argsort_spec (keys : vec) :
  Permutation (np_argsort keys) (seq 0 (length keys))
  /\ Sorted Rle (map (fun i => nth i keys 0) (np_argsort keys)).
Proof.
  unfold np_argsort.
  pose proof (sort_by_key_perm (index_from 0 keys)) as Hperm.
  pose proof (sort_by_key_sorted (index_from 0 keys)) as Hsorted.
  destruct (index_from_spec keys 0) as [Hsnd Hall].
  set (sorted := fold_right insert_by_key [] (index_from 0 keys)) in *.
  split.
  - rewrite <- Hsnd. by apply Permutation_map.
  - assert (Hfst : map (fun i => nth i keys 0) (map snd sorted) = map fst sorted).
    { rewrite map_map. apply map_ext_in. intros p Hp.
      rewrite <- Hperm in Hall. rewrite Forall_forall in Hall.
      apply list_elem_of_In in Hp. destruct (Hall p Hp) as [H _].
      by rewrite Nat.sub_0_r in H. }
    rewrite Hfst. clear -Hsorted.
    induction Hsorted as [|p l Hs IH Hhd]; simpl; constructor; [exact IH|].
    destruct Hhd; simpl; constructor. assumption.
Qed.

End VectorNumbers.

(** ** Vector index: the brute-force search *)

Section BruteForce.

Variable FAISS_AVAILABLE : bool.
Variable index_search : VectorIndex.faiss_index -> vec -> Z -> outcome (list (R * Z)).

Import VectorIndex.

Local Abbreviation search := (VectorIndex.search FAISS_AVAILABLE index_search).

Lemma py_slice_from_drop {A} (l : list A) (start : Z) :
  exists j, py_slice_from l start = drop j l.
Proof. unfold py_slice_from. destruct (start <? 0)%Z; eauto. Qed.

Lemma py_slice_to_take {A} (l : list A) (stop : Z) :
  exists j, py_slice_to l stop = take j l.
Proof. unfold py_slice_to. destruct (stop <? 0)%Z; eauto. Qed.

Lemma py_slice_from_length {A} (l : list A) (k : Z) :
  (1 <= k <= Z.of_nat (length l))%Z ->
  length (py_slice_from l (- k)) = Z.to_nat k.
Proof.
  intros Hk. unfold py_slice_from.
  destruct (Z.ltb_spec (- k) 0); [|lia]. rewrite length_drop. lia.
Qed.

Lemma py_slice_to_length {A} (l : list A) (k : Z) :
  (0 <= k <= Z.of_nat (length l))%Z ->
  length (py_slice_to l k) = Z.to_nat k.
Proof.
  intros Hk. unfold py_slice_to.
  destruct (Z.ltb_spec k 0); [lia|]. rewrite length_take. lia.
Qed.

Lemma StronglySorted_app_inv {A} (R : A -> A -> Prop) (l1 l2 : list A) :
  StronglySorted R (l1 ++ l2) -> StronglySorted R l1 /\ StronglySorted R l2.
Proof.
  induction l1 as [|x l1 IH]; simpl; intros H.
  - split; [constructor|exact H].
  - apply StronglySorted_inv in H as [H1 H2]. destruct (IH H1) as [IH1 IH2].
    split; [|exact IH2]. constructor; [exact IH1|].
    apply Forall_app in H2 as [H2 _]. exact H2.
Qed.

Lemma StronglySorted_snoc {A} (R : A -> A -> Prop) (l : list A) (x : A) :
  StronglySorted R l -> Forall (fun y => R y x) l -> StronglySorted R (l ++ [x]).
Proof.
  induction 1 as [|y l Hs IH Hy]; simpl; intros Hx.
  - repeat constructor.
  - apply Forall_cons in Hx as [Hyx Hx]. constructor; [by apply IH|].
    apply Forall_app. split; [exact Hy|]. by repeat constructor.
Qed.

Lemma StronglySorted_rev {A} (R : A -> A -> Prop) (l : list A) :
  StronglySorted R l -> StronglySorted (fun x y => R y x) (rev l).
Proof.
  induction 1 as [|x l Hs IH Hx]; simpl; [constructor|].
  apply StronglySorted_snoc; [exact IH|]. by apply Forall_rev.
Qed.

Lemma StronglySorted_map {A B} (R : A -> A -> Prop) (S : B -> B -> Prop) (f : A -> B)
      (l : list A) :
  (forall x y, R x y -> S (f x) (f y)) ->
  StronglySorted R l -> StronglySorted S (map f l).
Proof.
  intros Hf. induction 1 as [|x l Hs IH Hx]; simpl; constructor; [exact IH|].
  apply Forall_map. eapply Forall_impl; [exact Hx|]. intros y. apply Hf.
Qed.

Lemma sorted_take_drop (l : vec) (j : nat) :
  Sorted Rle l -> StronglySorted Rle (take j l) /\ StronglySorted Rle (drop j l).
Proof.
  intros H. apply Sorted_StronglySorted in H; [|exact Rle_trans].
  rewrite <- (take_drop j l) in H. by apply StronglySorted_app_inv.
Qed.

Lemma omap_total {A B} (f : A -> outcome B) (g : A -> B) (l : list A) :
  Forall (fun x => f x = Ret (g x)) l -> omap f l = Ret (map g l).
Proof.
  induction 1 as [|x l Hx Hl IH]; simpl; [reflexivity|]. by rewrite Hx, IH.
Qed.

Lemma np_argsort_indices (keys : vec) :
  NoDup (np_argsort keys) /\ Forall (fun i => i < length keys) (np_argsort keys)
  /\ length (np_argsort keys) = length keys.
Proof.
  destruct (np_argsort_spec keys) as [Hperm _].
  split; [|split].
  - rewrite Hperm. apply NoDup_seq.
  - rewrite Hperm. apply Forall_seq. intros j Hj. lia.
  - rewrite Hperm. apply length_seq.
Qed.

(** The rows the brute-force branch selects, and the score and distance
    it attaches to a row. *)
Lemma brute_force_cosine (s : t) (m : matrix) (query_embedding : vec) (top_k : Z) :
  FAISS_AVAILABLE = false ->
  index s = Some (Numpy m) ->
  use_faiss s = false ->
  metric s = "cosine" ->
  length (metadata s) = length m ->
  m <> [] -> query_embedding <> [] ->
  Forall (fun row => length row = length query_embedding) m ->
  let sim := map (fun row => dot (normalize_L2 query_embedding) (normalize_L2 row)) m in
  let idxs := rev (py_slice_from (np_argsort sim)
                     (- Z.min top_k (Z.of_nat (length (metadata s))))) in
  exists res,
    search s query_embedding top_k = Ret res
    /\ Forall2 (fun r i => exists md, metadata s !! i = Some md
                                      /\ r = make_result md (nth i sim 0%R) (1 - nth i sim 0)%R)
         res idxs.
Proof.
  intros Hfaiss Hix Hfa Hmetric Hlen Hm Hq Hrows sim idxs.
  assert (Hsim : cosine_similarity query_embedding m = Ret sim).
  { unfold cosine_similarity. destruct m as [|r0 m']; [congruence|].
    destruct query_embedding as [|q0 q']; [congruence|].
    rewrite (proj2 (forallb_forall _ _)); [reflexivity|].
    intros row Hrow. apply Nat.eqb_eq. rewrite Forall_forall in Hrows.
    apply Hrows. by apply list_elem_of_In. }
  assert (Hidx : Forall (fun i => i < length (metadata s)) idxs).
  { destruct (np_argsort_indices sim) as (_ & Hlt & _).
    destruct (py_slice_from_drop (np_argsort sim)
                (- Z.min top_k (Z.of_nat (length (metadata s))))) as [j Hj].
    unfold idxs. rewrite Hj. apply Forall_rev, Forall_drop.
    eapply Forall_impl; [exact Hlt|]. intros i Hi. unfold sim in Hi.
    rewrite length_map in Hi. lia. }
  set (mk := fun i => make_result (default ∅ (metadata s !! i)) (nth i sim 0%R)
                        (1 - nth i sim 0)%R).
  exists (map mk idxs). split.
  - unfold VectorIndex.search. rewrite Hix, Hfa, Hmetric, Hfaiss.
    cbn [String.eqb Ascii.eqb Bool.eqb].
    rewrite Hsim. cbn [obind]. fold idxs. apply omap_total.
    eapply Forall_impl; [exact Hidx|]. intros i Hi. unfold cosine_result, mk.
    destruct (lookup_lt_is_Some_2 _ _ Hi) as [md ->]. reflexivity.
  - apply Forall2_fmap_l, Forall_Forall2_diag.
    eapply Forall_impl; [exact Hidx|]. intros i Hi.
    destruct (lookup_lt_is_Some_2 _ _ Hi) as [md Hmd]. exists md. unfold mk.
    by rewrite Hmd.
Qed.

Lemma brute_force_l2 (s : t) (m : matrix) (query_embedding : vec) (top_k : Z) :
  index s = Some (Numpy m) ->
  use_faiss s = false ->
  String.eqb (metric s) "cosine" = false ->
  length (metadata s) = length m ->
  Forall (fun row => length row = length query_embedding) m ->
  let dist := map (fun row => norm2 (zip_with Rminus row query_embedding)) m in
  let idxs := py_slice_to (np_argsort dist) (Z.min top_k (Z.of_nat (length (metadata s)))) in
  let mx := fold_left Rmax (tl dist) (hd 0%R dist) in
  exists res,
    search s query_embedding top_k = Ret res
    /\ Forall2 (fun r i => exists md, metadata s !! i = Some md
                                      /\ r = make_result md (1 - nth i dist 0 / (mx + eps))%R
                                               (nth i dist 0%R))
         res idxs.
Proof.
  intros Hix Hfa Hmetric Hlen Hrows dist idxs mx.
  assert (Hdist : l2_distances query_embedding m = Ret dist).
  { unfold l2_distances. apply omap_total.
    eapply Forall_impl; [exact Hrows|]. intros row Hrow. simpl.
    unfold row_minus. by rewrite Hrow, Nat.eqb_refl. }
  assert (Hidx : Forall (fun i => i < length (metadata s)) idxs).
  { destruct (np_argsort_indices dist) as (_ & Hlt & _).
    destruct (py_slice_to_take (np_argsort dist)
                (Z.min top_k (Z.of_nat (length (metadata s))))) as [j Hj].
    unfold idxs. rewrite Hj. apply Forall_take.
    eapply Forall_impl; [exact Hlt|]. intros i Hi. unfold dist in Hi.
    rewrite length_map in Hi. lia. }
  set (mk := fun i => make_result (default ∅ (metadata s !! i))
                        (1 - nth i dist 0 / (mx + eps))%R (nth i dist 0%R)).
  exists (map mk idxs). split.
  - unfold VectorIndex.search. rewrite Hix, Hfa, Hmetric, Hdist. cbn [obind]. fold idxs.
    apply omap_total.
    eapply Forall_impl; [exact Hidx|]. intros i Hi. unfold l2_result, mk.
    destruct (lookup_lt_is_Some_2 _ _ Hi) as [md ->].
    assert (Hdl : length dist = length m) by (unfold dist; apply length_map).
    assert (Hmx : np_max dist = Ret mx).
    { unfold mx. clearbody dist. destruct dist as [|d0 dist']; [|reflexivity].
      simpl in Hdl, Hi. lia. }
    by rewrite Hmx.
  - apply Forall2_fmap_l, Forall_Forall2_diag.
    eapply Forall_impl; [exact Hidx|]. intros i Hi.
    destruct (lookup_lt_is_Some_2 _ _ Hi) as [md Hmd]. exists md. unfold mk.
    by rewrite Hmd.
Qed.

(** The module binds [cosine_similarity] only when [import faiss] fails:
    with faiss importable and turned off by the configuration, the
    brute-force search under [cosine] raises [NameError]. *)
Lemma brute_force_cosine_unbound (s : t) (m : matrix) (query_embedding : vec) (top_k : Z) :
  index s = Some (Numpy m) ->
  use_faiss s = false ->
  FAISS_AVAILABLE && String.eqb (metric s) "cosine" = true ->
  search s query_embedding top_k = Raise NameError.
Proof.
  intros Hix Hfa [-> Hmetric]%andb_prop. unfold VectorIndex.search.
  by rewrite Hix, Hfa, Hmetric.
Qed.

Lemma fold_left_Rmax_ub (l : vec) (x y : R) :
  In y (x :: l) -> (y <= fold_left Rmax l x)%R.
Proof.
  revert x. induction l as [|z l IH]; intros x Hin; simpl.
  - destruct Hin as [->|[]]. lra.
  - destruct Hin as [->|[->|Hin]].
    + etransitivity; [apply (Rmax_l y z)|apply fold_left_Rmax_ge].
    + etransitivity; [apply (Rmax_r x y)|apply fold_left_Rmax_ge].
    + apply IH. by right.
Qed.

Lemma nth_map_lt {A} (f : A -> R) (l : list A) (i : nat) (d : A) :
  i < length l -> nth i (map f l) 0%R = f (nth i l d).
Proof.
  intros Hi. rewrite (nth_indep _ 0%R (f d)) by (by rewrite length_map). apply map_nth.
Qed.

Lemma eps_pos : (0 < eps)%R.
Proof. unfold eps. lra. Qed.

(** Everything the brute-force branch guarantees on an index whose
    metadata list is as long as its matrix, when the name
    [cosine_similarity] is bound or not needed. *)
Lemma brute_force_results (s : t) (m : matrix) (query_embedding : vec) (top_k : Z) :
  FAISS_AVAILABLE && String.eqb (metric s) "cosine" = false ->
  index s = Some (Numpy m) ->
  use_faiss s = false ->
  length (metadata s) = length m ->
  m <> [] -> query_embedding <> [] ->
  Forall (fun row => length row = length query_embedding) m ->
  exists res idxs (score distance : nat -> R),
    search s query_embedding top_k = Ret res
    /\ Forall2 (fun r i => exists md, metadata s !! i = Some md
                                      /\ r = make_result md (score i) (distance i)) res idxs
    /\ NoDup idxs
    /\ ((1 <= top_k)%Z -> length idxs = Z.to_nat (Z.min top_k (Z.of_nat (length m))))
    /\ StronglySorted (fun x y => (y <= x)%R) (map score idxs)
    /\ Forall (fun i => if String.eqb (metric s) "cosine"
                        then (distance i = 1 - score i)%R
                        else (0 <= score i <= 1 /\ 0 <= distance i)%R) idxs.
Proof.
  intros Hname Hix Hfa Hlen Hm Hq Hrows.
  assert (Hn : 1 <= length m) by (destruct m; [congruence|simpl; lia]).
  destruct (String.eqb (metric s) "cosine") eqn:Hmetric.
  - apply String.eqb_eq in Hmetric. rewrite andb_true_r in Hname.
    destruct (brute_force_cosine s m query_embedding top_k Hname Hix Hfa Hmetric Hlen Hm Hq
                Hrows) as (res & Hres & HF).
    set (sim := map (fun row => dot (normalize_L2 query_embedding) (normalize_L2 row)) m) in *.
    set (k := Z.min top_k (Z.of_nat (length (metadata s)))) in *.
    destruct (np_argsort_indices sim) as (Hnd & Hlt & Hal).
    destruct (np_argsort_spec sim) as [_ Hsorted].
    assert (Hsl : length sim = length m) by (unfold sim; apply length_map).
    exists res, (rev (py_slice_from (np_argsort sim) (- k))),
      (fun i => nth i sim 0%R), (fun i => (1 - nth i sim 0)%R).
    split; [exact Hres|]. split; [exact HF|].
    destruct (py_slice_from_drop (np_argsort sim) (- k)) as [j Hj].
    split; [|split; [|split]].
    + rewrite Hj, <- Permutation_rev. eapply sublist_NoDup; [exact Hnd|apply sublist_drop].
    + intros Hk. rewrite length_rev, py_slice_from_length; [unfold k; by rewrite Hlen|].
      rewrite Hal, Hsl. unfold k. lia.
    + rewrite Hj, map_rev, <- skipn_map. apply StronglySorted_rev.
      by apply sorted_take_drop.
    + rewrite Hj. apply Forall_rev, Forall_drop.
      eapply Forall_impl; [exact Hlt|]. intros i Hi. reflexivity.
  - destruct (brute_force_l2 s m query_embedding top_k Hix Hfa Hmetric Hlen Hrows)
      as (res & Hres & HF).
    set (dist := map (fun row => norm2 (zip_with Rminus row query_embedding)) m) in *.
    set (k := Z.min top_k (Z.of_nat (length (metadata s)))) in *.
    set (mx := fold_left Rmax (tl dist) (hd 0%R dist)) in *.
    destruct (np_argsort_indices dist) as (Hnd & Hlt & Hal).
    destruct (np_argsort_spec dist) as [_ Hsorted].
    assert (Hdl : length dist = length m) by (unfold dist; apply length_map).
    assert (Hnonneg : forall i, (0 <= nth i dist 0)%R).
    { intros i. destruct (decide (i < length m)) as [Hi|Hi].
      - unfold dist. rewrite (nth_map_lt _ _ _ []) by exact Hi. apply norm2_nonneg.
      - rewrite nth_overflow by lia. lra. }
    assert (Hub : forall i, i < length m -> (nth i dist 0 <= mx)%R).
    { intros i Hi. unfold mx. destruct dist as [|d0 dist'] eqn:Hd; [simpl in Hdl; lia|].
      apply fold_left_Rmax_ub. simpl hd. simpl tl.
      apply (nth_In (d0 :: dist') 0%R). rewrite Hdl. exact Hi. }
    assert (Hpos : (0 < mx + eps)%R).
    { pose proof (Hub 0 ltac:(lia)). pose proof (Hnonneg 0). pose proof eps_pos. lra. }
    exists res, (py_slice_to (np_argsort dist) k),
      (fun i => (1 - nth i dist 0 / (mx + eps))%R), (fun i => nth i dist 0%R).
    split; [exact Hres|]. split; [exact HF|].
    destruct (py_slice_to_take (np_argsort dist) k) as [j Hj].
    split; [|split; [|split]].
    + rewrite Hj. eapply sublist_NoDup; [exact Hnd|apply sublist_take].
    + intros Hk. rewrite py_slice_to_length; [unfold k; by rewrite Hlen|].
      rewrite Hal, Hdl. unfold k. lia.
    + rewrite Hj.
      change (map (fun i => (1 - nth i dist 0 / (mx + eps))%R) (take j (np_argsort dist)))
        with (map (fun i => (fun x => (1 - x / (mx + eps))%R) (nth i dist 0%R))
                (take j (np_argsort dist))).
      rewrite <- (map_map (fun i => nth i dist 0%R) (fun x => (1 - x / (mx + eps))%R)).
      rewrite <- firstn_map.
      eapply StronglySorted_map; [|by apply sorted_take_drop].
      intros x y Hxy. simpl.
      apply Rplus_le_compat_l, Ropp_le_contravar.
      apply Rmult_le_compat_r; [|exact Hxy].
      apply Rlt_le, Rinv_0_lt_compat. exact Hpos.
    + rewrite Hj. apply Forall_take.
      eapply Forall_impl; [exact Hlt|]. intros i Hi. rewrite Hdl in Hi.
      pose proof (Hub i Hi) as Hle. pose proof (Hnonneg i) as Hge. pose proof eps_pos.
      split; [|exact Hge].
      assert (Hq1 : (0 <= nth i dist 0 / (mx + eps))%R).
      { apply Rmult_le_pos; [exact Hge|]. apply Rlt_le, Rinv_0_lt_compat. exact Hpos. }
      assert (Hq2 : (nth i dist 0 / (mx + eps) < 1)%R).
      { apply (Rmult_lt_reg_r (mx + eps)); [exact Hpos|].
        unfold Rdiv. rewrite Rmult_assoc, Rinv_l by lra. lra. }
      lra.
Qed.

(** X4. On a brute-force index whose metadata list is as long as its
    stored matrix, a search with [top_k >= 1] and a query of the stored
    width raises [NameError] under [cosine] when faiss is importable (the
    module then never imports [cosine_similarity]); in every other case it
    does not raise and returns exactly [min(top_k, stored count)] results,
    each being the metadata entry of a different stored row with [score]
    and [distance] added. *)
Theorem brute_force_search_returns (s : t) (m : matrix) (query_embedding : vec) (top_k : Z) :
  index s = Some (Numpy m) ->
  use_faiss s = false ->
  length (metadata s) = length m ->
  m <> [] -> query_embedding <> [] ->
  Forall (fun row => length row = length query_embedding) m ->
  (1 <= top_k)%Z ->
  if FAISS_AVAILABLE && String.eqb (metric s) "cosine"
  then search s query_embedding top_k = Raise NameError
  else
    exists res idxs,
      search s query_embedding top_k = Ret res
      /\ length res = Z.to_nat (Z.min top_k (Z.of_nat (length m)))
      /\ NoDup idxs
      /\ Forall2 (fun r i => exists md x y, metadata s !! i = Some md
                                            /\ r = make_result md x y) res idxs.
Proof.
  intros Hix Hfa Hlen Hm Hq Hrows Hk.
  destruct (FAISS_AVAILABLE && String.eqb (metric s) "cosine") eqn:Hname;
    [by apply brute_force_cosine_unbound with m|].
  destruct (brute_force_results s m query_embedding top_k Hname Hix Hfa Hlen Hm Hq Hrows)
    as (res & idxs & score & distance & Hres & HF & Hnd & Hcount & _ & _).
  exists res, idxs. split; [exact Hres|]. split; [|split; [exact Hnd|]].
  - rewrite (Forall2_length _ _ _ HF). by apply Hcount.
  - eapply Forall2_impl; [exact HF|]. intros r i (md & Hmd & ->). eauto.
Qed.



End BruteForce.

(** The configuration turns faiss off in a process in which it is
    importable: the search under [cosine] raises. *)
Lemma brute_force_cosine_with_faiss_installed :
  VectorIndex.use_faiss (built true (numpy_config "cosine") [[1%R]; [2%R]] [meta_a; meta_b])
  = false
  /\ VectorIndex.search true VectorIndex.flat_search
       (built true (numpy_config "cosine") [[1%R]; [2%R]] [meta_a; meta_b]) [1%R] 1
     = Raise NameError.
Proof. split; reflexivity. Qed.

Lemma brute_force_search_returns_witness :
  exists res idxs,
    VectorIndex.search false VectorIndex.flat_search
      (built false (numpy_config "cosine") [[1%R]; [2%R]] [meta_a; meta_b]) [1%R] 1 = Ret res
    /\ length res = Z.to_nat (Z.min 1 (Z.of_nat (length [[1%R]; [2%R]])))
    /\ NoDup idxs
    /\ Forall2 (fun r i => exists md x y,
                   VectorIndex.metadata
                     (built false (numpy_config "cosine") [[1%R]; [2%R]] [meta_a; meta_b]) !! i
                   = Some md
                   /\ r = VectorIndex.make_result md x y) res idxs.
Proof.
  apply (brute_force_search_returns false VectorIndex.flat_search
           (built false (numpy_config "cosine") [[1%R]; [2%R]] [meta_a; meta_b])
           [[1%R]; [2%R]] [1%R] 1).
  - reflexivity.
  - reflexivity.
  - reflexivity.
  - discriminate.
  - discriminate.
  - repeat constructor.
  - lia.
Defined.



(** ** Vector index: building, and the guarded FAISS loop *)

Section BuildAndFaiss.

Variable FAISS_AVAILABLE : bool.
Variable index_search : VectorIndex.faiss_index -> vec -> Z -> outcome (list (R * Z)).

Import VectorIndex.

Local Abbreviation search := (VectorIndex.search FAISS_AVAILABLE index_search).

(** X7. What [build] stores for a non-empty matrix. With FAISS and the
    [cosine] metric it is an inner-product index of the declared width whose
    rows are the input rows divided by their Euclidean norm, so each has
    norm 1, a zero row being kept as it is; with FAISS and any other metric
    it is an L2 index holding the rows unmodified; without FAISS it is the
    matrix itself. The metric is not changed. *)
Theorem build_stored_rows (s : t) (embeddings : matrix) (md : list (gmap string value)) :
  embeddings <> [] ->
  exists s' logs,
    build s embeddings md = Ret (s', logs)
    /\ metric s' = metric s
    /\ match index s' with
       | Some (Faiss fx) =>
           use_faiss s = true
           /\ d fx = length (hd [] embeddings)
           /\ if String.eqb (metric s) "cosine"
              then kind fx = IndexFlatIP
                   /\ Forall2 (fun e r =>
                                 (norm2 e = 0%R /\ r = e)
                                 \/ (norm2 e <> 0%R
                                     /\ r = map (fun x => (x / norm2 e)%R) e
                                     /\ norm2 r = 1%R))
                        embeddings (rows fx)
              else kind fx = IndexFlatL2 /\ rows fx = embeddings
       | Some (Numpy m) => use_faiss s = false /\ m = embeddings
       | None => False
       end.
Proof.
  intros Hne. unfold build. destruct embeddings as [|row0 rest] eqn:He; [congruence|].
  rewrite <- He. destruct (use_faiss s) eqn:Hfa.
  - destruct (String.eqb (metric s) "cosine") eqn:Hm; eexists _, _;
      (split; [reflexivity|]); (split; [reflexivity|]); cbn [index with_index kind d rows].
    + split; [reflexivity|]. split; [by rewrite He|]. split; [reflexivity|].
      apply Forall2_fmap_r, Forall_Forall2_diag, Forall_forall. intros e _.
      destruct (Req_dec_T (norm2 e) 0) as [E|E].
      * left. split; [exact E|]. by apply normalize_L2_zero.
      * right. destruct (normalize_L2_nonzero e E) as [H1 H2].
        split; [exact E|]. split; [exact H1|exact H2].
    + split; [reflexivity|]. split; [by rewrite He|]. split; reflexivity.
  - eexists _, _. split; [reflexivity|]. split; [reflexivity|].
    cbn [index with_index]. split; reflexivity.
Qed.

Lemma py_getitem_in_range {A} (l : list A) (i : Z) :
  (- Z.of_nat (length l) <= i < Z.of_nat (length l))%Z ->
  exists x, py_getitem l i = Ret x.
Proof.
  intros Hi. unfold py_getitem.
  destruct (Z.ltb_spec i 0) as [Hneg|Hpos].
  - destruct (Z.ltb_spec (Z.of_nat (length l) + i) 0); [lia|].
    destruct (lookup_lt_is_Some_2 l (Z.to_nat (Z.of_nat (length l) + i))) as [x ->]; [lia|].
    eauto.
  - destruct (Z.ltb_spec i 0); [lia|].
    destruct (lookup_lt_is_Some_2 l (Z.to_nat i)) as [x ->]; [lia|]. eauto.
Qed.

Lemma faiss_results_total (md : list (gmap string value)) (hits : list (R * R * Z)) :
  Forall (fun h => (- Z.of_nat (length md) <= snd h)%Z) hits ->
  exists res,
    faiss_results md hits = Ret res
    /\ length res = length (filter (fun h => (snd h < Z.of_nat (length md))%Z) hits).
Proof.
  induction 1 as [|[[x y] idx] hits Hh Hhits (res & Hres & Hlen)]; simpl.
  - exists []. split; reflexivity.
  - rewrite filter_cons. simpl in Hh.
    destruct (Z.ltb_spec idx (Z.of_nat (length md))) as [Hlt|Hge].
    + destruct (py_getitem_in_range md idx) as [m Hm]; [lia|].
      rewrite Hm, Hres. simpl. eexists. split; [reflexivity|].
      rewrite decide_True by (simpl; lia). simpl. by rewrite Hlen.
    + exists res. split; [exact Hres|]. rewrite decide_False by (simpl; lia). exact Hlen.
Qed.

(** X8. The FAISS branch of [search] under [cosine]: when the backend
    answers with labels that are all at least [-len(metadata)] (FAISS uses
    -1 for a missing neighbour), [search] does not raise, returns one result
    for each label below [len(metadata)], negative labels included (they
    index the metadata from its end), and skips the others, so never more
    results than labels; every result is a metadata entry with [score] and
    [distance] both equal to the backend's inner product. *)
Theorem faiss_cosine_search_guarded (s : t) (fx : faiss_index) (query_embedding : vec)
        (top_k : Z) (hits : list (R * Z)) :
  index s = Some (Faiss fx) ->
  use_faiss s = true ->
  metric s = "cosine" ->
  index_search fx (normalize_L2 query_embedding)
    (Z.min top_k (Z.of_nat (length (metadata s)))) = Ret hits ->
  Forall (fun h => (- Z.of_nat (length (metadata s)) <= snd h)%Z) hits ->
  exists res,
    search s query_embedding top_k = Ret res
    /\ length res
       = length (filter (fun h => (snd h < Z.of_nat (length (metadata s)))%Z) hits)
    /\ length res <= length hits
    /\ Forall (fun r => exists md x idx,
                   In (x, idx) hits
                   /\ (idx < Z.of_nat (length (metadata s)))%Z
                   /\ py_getitem (metadata s) idx = Ret md
                   /\ r = make_result md x x) res.
Proof.
  intros Hix Hfa Hmetric Hsearch Hlabels.
  set (hits3 := map (fun '(distance, idx) => (distance, distance, idx)) hits).
  destruct (faiss_results_total (metadata s) hits3) as (res & Hres & Hlen).
  { unfold hits3. apply Forall_map. eapply Forall_impl; [exact Hlabels|].
    by intros [x idx]. }
  exists res.
  assert (Hs : search s query_embedding top_k = Ret res).
  { unfold VectorIndex.search. rewrite Hix, Hfa, Hmetric. cbn [String.eqb Ascii.eqb Bool.eqb].
    rewrite Hsearch. exact Hres. }
  destruct (faiss_results_spec _ _ _ Hres) as [Hle Hall].
  split; [exact Hs|]. split; [|split].
  - rewrite Hlen. unfold hits3. clear.
    induction hits as [|[x idx] hits IH]; [reflexivity|].
    simpl. rewrite !filter_cons. simpl.
    destruct (decide (idx < Z.of_nat (length (metadata s)))%Z); simpl; by rewrite IH.
  - unfold hits3 in Hle. by rewrite length_map in Hle.
  - eapply Forall_impl; [exact Hall|].
    intros r (md & x & y & idx & Hin & Hlt & Hget & ->).
    unfold hits3 in Hin. apply in_map_iff in Hin as ([x0 i0] & [= <- <- <-] & Hin).
    exists md, x0, i0. auto.
Qed.

End BuildAndFaiss.

Lemma build_stored_rows_witness :
  exists s' logs,
    VectorIndex.build (VectorIndex.__init__ true (faiss_config "cosine")) [[1%R]] [meta_a]
    = Ret (s', logs)
    /\ VectorIndex.metric s'
       = VectorIndex.metric (VectorIndex.__init__ true (faiss_config "cosine"))
    /\ match VectorIndex.index s' with
       | Some (VectorIndex.Faiss fx) =>
           VectorIndex.use_faiss (VectorIndex.__init__ true (faiss_config "cosine")) = true
           /\ VectorIndex.d fx = length (hd [] [[1%R]])
           /\ VectorIndex.kind fx = VectorIndex.IndexFlatIP
           /\ Forall2 (fun e r =>
                         (norm2 e = 0%R /\ r = e)
                         \/ (norm2 e <> 0%R
                             /\ r = map (fun x => (x / norm2 e)%R) e
                             /\ norm2 r = 1%R))
                [[1%R]] (VectorIndex.rows fx)
       | Some (VectorIndex.Numpy m) =>
           VectorIndex.use_faiss (VectorIndex.__init__ true (faiss_config "cosine")) = false
           /\ m = [[1%R]]
       | None => False
       end.
Proof.
  apply (build_stored_rows (VectorIndex.__init__ true (faiss_config "cosine"))
           [[1%R]] [meta_a]).
  discriminate.
Defined.

Lemma faiss_cosine_search_guarded_witness :
  let backend := fun (_ : VectorIndex.faiss_index) (_ : vec) (_ : Z) =>
                   Ret [(1%R, 0%Z); (0%R, (-1)%Z)] in
  let s := built true (faiss_config "cosine") [[1%R]] [meta_a] in
  exists res,
    VectorIndex.search true backend s [1%R] 2 = Ret res
    /\ length res
       = length (filter (fun h => (snd h < Z.of_nat (length (VectorIndex.metadata s)))%Z)
                   [(1%R, 0%Z); (0%R, (-1)%Z)])
    /\ length res <= length [(1%R, 0%Z); (0%R, (-1)%Z)]
    /\ Forall (fun r => exists md x idx,
                   In (x, idx) [(1%R, 0%Z); (0%R, (-1)%Z)]
                   /\ (idx < Z.of_nat (length (VectorIndex.metadata s)))%Z
                   /\ py_getitem (VectorIndex.metadata s) idx = Ret md
                   /\ r = VectorIndex.make_result md x x) res.
Proof.
  intros backend s.
  apply (faiss_cosine_search_guarded true backend s
           {| VectorIndex.kind := VectorIndex.IndexFlatIP; VectorIndex.d := 1;
              VectorIndex.rows := map normalize_L2 [[1%R]] |}
           [1%R] 2 [(1%R, 0%Z); (0%R, (-1)%Z)]).
  - reflexivity.
  - reflexivity.
  - reflexivity.
  - reflexivity.
  - repeat constructor; simpl; lia.
Defined.

(** ** Embedding service: the cache, the group size, the schedule *)

Section EmbedderCache.

Variable md5 : str -> string.

Import Embedder.

Lemma cache_path_same_dir (e e' : t) (text : str) :
  cache_dir e' = cache_dir e -> _get_cache_path md5 e' text = _get_cache_path md5 e text.
Proof. intros H. unfold _get_cache_path. by rewrite H. Qed.





Lemma run_workers_no_batches (e : t) (started : list nat)
      (disk : gmap string cache_file) (futures : gmap nat (outcome matrix)) :
  run_workers md5 e started [] disk futures = (futures, disk).
Proof. induction started as [|b started IH]; simpl; [reflexivity|exact IH]. Qed.

Lemma collect_length (e : t) (completed : list nat) (batches : list (list str))
      (futures : gmap nat (outcome matrix)) (slots : list (option matrix)) :
  length (collect e completed batches futures slots) = length slots.
Proof.
  revert slots. induction completed as [|b completed IH]; intros slots; simpl.
  - reflexivity.
  - by rewrite IH, length_insert.
Qed.

(** X11. A group size that is not positive. For a non-empty list of texts,
    when [batch_size or self.batch_size] is zero or negative, [batch_embed]
    raises [ValueError] whatever the pool does, and the cache is left as it
    was: zero is rejected by [range], and a negative step forms no group, so
    that [np.vstack] is given an empty list. *)
Theorem batch_embed_nonpositive_size (e : t) (started completed : list nat)
        (disk : gmap string cache_file) (texts : list str) (batch_size : option Z) :
  texts <> [] ->
  (effective_batch_size e batch_size <= 0)%Z ->
  batch_embed md5 e started completed disk texts batch_size = (Raise ValueError, disk).
Proof.
  intros Hne Hbs. unfold batch_embed. destruct texts as [|text texts']; [congruence|].
  destruct (Z.eqb_spec (effective_batch_size e batch_size) 0) as [E|E]; [reflexivity|].
  destruct (Z.ltb_spec (effective_batch_size e batch_size) 0) as [_|E']; [|lia].
  rewrite run_workers_no_batches.
  pose proof (collect_length e completed [] ∅ (replicate (length (@nil (list str))) None)) as Hl.
  simpl in Hl. apply nil_length_inv in Hl. simpl. rewrite Hl. reflexivity.
Qed.






Lemma check_cache_total (e : t) (disk : gmap string cache_file) (texts : list str) :
  Forall (fun text => exists v, _get_from_cache md5 e disk text = Some v
                                /\ length v = embed_dim e) texts ->
  forall (i : nat) (result : matrix) (acc : list (nat * str)),
    i + length texts <= length result ->
    exists result', check_cache md5 e disk i texts result acc = Ret (result', acc).
Proof.
  induction 1 as [|text texts (v & Hget & Hlen) _ IH]; intros i result acc Hi; simpl.
  - eauto.
  - simpl in Hi. rewrite Hget. unfold set_row.
    destruct (Nat.ltb_spec i (length result)) as [_|?]; [|lia].
    unfold broadcast_row. rewrite (proj2 (Nat.eqb_eq _ _) Hlen). simpl.
    apply IH. rewrite length_insert. lia.
Qed.

(** X13. A group served from the cache. With caching enabled, when the
    cache holds for every text of a group a vector of the declared
    dimension, [_process_batch] returns exactly these vectors, row [i] for
    text [i], makes no use of the provider (the result is the same for any
    embedder on that cache directory and dimension), and leaves the cache as
    it was. *)
Theorem process_batch_all_cached (e e' : t) (disk : gmap string cache_file)
        (texts : list str) :
  use_cache e = true ->
  use_cache e' = true ->
  cache_dir e' = cache_dir e ->
  embed_dim e' = embed_dim e ->
  Forall (fun text => exists v, _get_from_cache md5 e disk text = Some v
                                /\ length v = embed_dim e) texts ->
  exists m,
    _process_batch md5 e disk texts = (Ret m, disk)
    /\ _process_batch md5 e' disk texts = (Ret m, disk)
    /\ Forall2 (fun text row => _get_from_cache md5 e disk text = Some row) texts m.
Proof.
  intros Hc Hc' Hdir Hdim Hall.
  assert (Hone : forall e0, use_cache e0 = true -> cache_dir e0 = cache_dir e ->
                            embed_dim e0 = embed_dim e ->
             exists m, _process_batch md5 e0 disk texts = (Ret m, disk)
                       /\ Forall2 (fun text row => _get_from_cache md5 e disk text = Some row)
                            texts m).
  { intros e0 Hc0 Hdir0 Hdim0.
    assert (Hget0 : forall text, _get_from_cache md5 e0 disk text
                                 = _get_from_cache md5 e disk text).
    { intros text. unfold _get_from_cache. by rewrite (cache_path_same_dir e e0 text Hdir0). }
    assert (Hall0 : Forall (fun text => exists v, _get_from_cache md5 e0 disk text = Some v
                                                  /\ length v = embed_dim e0) texts).
    { eapply Forall_impl; [exact Hall|]. intros text (v & Hv & Hl).
      exists v. by rewrite Hget0, Hdim0. }
    destruct (check_cache_total e0 disk texts Hall0 0
                (np_zeros2 (length texts) (embed_dim e0)) [])
      as [result' Hcc]; [rewrite np_zeros2_length; lia|].
    destruct (check_cache_spec md5 e0 disk texts Hc0 _ _ _ _ _ Hcc)
      as (Hlen & _ & _ & _ & Hrows).
    rewrite np_zeros2_length in Hlen.
    exists result'. split.
    - unfold _process_batch. rewrite Hc0, Hcc. reflexivity.
    - apply Forall2_same_length_lookup_2; [by rewrite Hlen|].
      intros k text row Htext Hrow. specialize (Hrows k text Htext).
      rewrite Forall_lookup in Hall0. destruct (Hall0 k text Htext) as (v & Hv & Hl).
      rewrite Hv in Hrows. destruct Hrows as (row' & Hb & Hrow'). simpl in Hrow'.
      assert (row' = row) by congruence. subst row'.
      unfold broadcast_row in Hb. rewrite (proj2 (Nat.eqb_eq _ _) Hl) in Hb.
      injection Hb as <-. by rewrite <- Hget0. }
  destruct (Hone e Hc eq_refl eq_refl) as (m & Hm & HF).
  destruct (Hone e' Hc' Hdir Hdim) as (m' & Hm' & HF').
  assert (m' = m).
  { clear - HF HF'. revert m' HF'. induction HF as [|text row texts m Hr _ IH]; intros m' HF'.
    - by inversion HF'.
    - inversion HF' as [|? row' ? m'' Hr' HF'']; subst. f_equal; [congruence|by apply IH]. }
  subst m'. exists m. split; [exact Hm|]. split; [exact Hm'|exact HF].
Qed.

End EmbedderCache.



Lemma batch_embed_nonpositive_size_witness :
  Embedder.batch_embed string_of_list_ascii constant_embedder [0] [0] ∅ three_texts
    (Some (-1)%Z)
  = (Raise ValueError, ∅).
Proof.
  apply (batch_embed_nonpositive_size string_of_list_ascii constant_embedder [0] [0] ∅
           three_texts (Some (-1)%Z)).
  - discriminate.
  - simpl. lia.
Defined.


Lemma process_batch_all_cached_witness :
  exists m,
    Embedder._process_batch string_of_list_ascii failing_embedder disk_with_a [py "a"]
    = (Ret m, disk_with_a)
    /\ Embedder._process_batch string_of_list_ascii caching_embedder disk_with_a [py "a"]
       = (Ret m, disk_with_a)
    /\ Forall2 (fun text row =>
                  Embedder._get_from_cache string_of_list_ascii failing_embedder
                    disk_with_a text = Some row)
         [py "a"] m.
Proof.
  apply (process_batch_all_cached string_of_list_ascii failing_embedder caching_embedder
           disk_with_a [py "a"]).
  - reflexivity.
  - reflexivity.
  - reflexivity.
  - reflexivity.
  - constructor; [|constructor]. exists [1%R]. split; reflexivity.
Defined.

(** ** Query orchestrator: thresholds, and the two entry points *)

Section RetrieverMore.

Variable md5 : str -> string.
Variable FAISS_AVAILABLE : bool.
Variable index_search : VectorIndex.faiss_index -> vec -> Z -> outcome (list (R * Z)).
Variable str_format : str -> list (string * value) -> outcome str.
Variable exn_str : exn -> str.

Import Retriever.

Lemma keep_above_monotone (t1 t2 : R) (raw kept1 : list (gmap string value)) :
  (t1 <= t2)%R ->
  keep_above t1 raw = Ret kept1 ->
  exists kept2, keep_above t2 raw = Ret kept2 /\ sublist kept2 kept1.
Proof.
  intros Ht. revert kept1. induction raw as [|res raw IH]; intros kept1; simpl.
  - intros [= <-]. exists []. split; [reflexivity|constructor].
  - destruct (get_score res) as [x|]; [|discriminate]. simpl.
    destruct (keep_above t1 raw) as [k1|]; [|discriminate]. simpl.
    intros [= <-]. destruct (IH k1 eq_refl) as (k2 & -> & Hsub). simpl.
    eexists. split; [reflexivity|]. unfold Rleb.
    destruct (Rle_dec t2 x) as [H2|H2]; destruct (Rle_dec t1 x) as [H1|H1].
    + by constructor.
    + lra.
    + by constructor.
    + exact Hsub.
Qed.

Lemma omap_sublist {A B} (f : A -> outcome B) (l l' : list A) (out : list B) :
  sublist l' l ->
  omap f l = Ret out ->
  exists out', omap f l' = Ret out' /\ sublist out' out.
Proof.
  intros Hsub. revert out. induction Hsub as [|a l' l _ IH|a l' l _ IH]; intros out; simpl.
  - intros [= <-]. exists []. split; [reflexivity|constructor].
  - destruct (f a) as [b|]; [|discriminate]. simpl.
    destruct (omap f l) as [bs|]; [|discriminate]. simpl. intros [= <-].
    destruct (IH bs eq_refl) as (out' & -> & Hs). simpl.
    eexists. split; [reflexivity|by constructor].
  - destruct (f a) as [b|]; [|discriminate]. simpl.
    destruct (omap f l) as [bs|]; [|discriminate]. simpl. intros [= <-].
    destruct (IH bs eq_refl) as (out' & -> & Hs).
    eexists. split; [reflexivity|by constructor].
Qed.

(** X14. Raising the threshold only removes results. For thresholds
    [t1 <= t2] and the same query on the same state, both calls of [query]
    format a selection of the same raw results, the selection for [t2] is a
    sub-list of the one for [t1], and when the call with [t1] returns, the
    call with [t2] returns a sub-list of its snippets, in the same order. *)
Theorem query_threshold_monotone (s : CodeContextRetriever) (r : EnhancedCodeRetriever)
        (disk : gmap string Embedder.cache_file) (q : str) (t1 t2 : R) :
  retriever s = Some r ->
  (t1 <= t2)%R ->
  exists kept1 kept2 disk',
    query md5 FAISS_AVAILABLE index_search str_format s disk q (Some t1)
    = (omap (format_result str_format r) kept1, disk')
    /\ query md5 FAISS_AVAILABLE index_search str_format s disk q (Some t2)
       = (omap (format_result str_format r) kept2, disk')
    /\ sublist kept2 kept1
    /\ forall out1,
        omap (format_result str_format r) kept1 = Ret out1 ->
        exists out2,
          omap (format_result str_format r) kept2 = Ret out2 /\ sublist out2 out1.
Proof.
  intros Hr Ht. unfold query, raw_query. rewrite Hr.
  pose proof (raw_search_scored md5 FAISS_AVAILABLE index_search s r disk q None) as Hscored.
  destruct (raw_search md5 FAISS_AVAILABLE index_search s r disk q None) as [raw disk']. simpl in Hscored.
  destruct (keep_above_spec t1 raw Hscored) as (kept1 & Hk1 & _).
  destruct (keep_above_monotone t1 t2 raw kept1 Ht Hk1) as (kept2 & Hk2 & Hsub).
  exists kept1, kept2, disk'. simpl. rewrite Hk1, Hk2. simpl.
  split; [reflexivity|]. split; [reflexivity|]. split; [exact Hsub|].
  intros out1 Hout1. eapply omap_sublist; eassumption.
Qed.

(** X15. The two entry points compared. With the retriever initialised and
    no threshold configured, [forward] and [query] without threshold embed
    the query once, leave the same cache, and run the same search with the
    retriever's [top_k]. When search and formatting succeed they return the
    same snippets. When the search raises, [query] returns the empty list
    while [forward] returns the single snippet ["Error: ..."]; when
    formatting raises, [query] raises while [forward] returns the error
    snippet. *)
Theorem forward_and_query (s : CodeContextRetriever) (r : EnhancedCodeRetriever)
        (disk : gmap string Embedder.cache_file) (q : str) :
  retriever s = Some r ->
  cfg_threshold (retriever_config s) = None ->
  exists v disk',
    Embedder.embed md5 (embedder s) disk q = (v, disk')
    /\ match VectorIndex.search FAISS_AVAILABLE index_search (vector_index s) v (top_k r) with
       | Ret results =>
           match omap (format_result str_format r) results with
           | Ret out =>
               EnhancedRetriever.forward md5 FAISS_AVAILABLE index_search str_format exn_str s r disk q
               = (out, disk')
               /\ query md5 FAISS_AVAILABLE index_search str_format s disk q None = (Ret out, disk')
           | Raise err =>
               EnhancedRetriever.forward md5 FAISS_AVAILABLE index_search str_format exn_str s r disk q
               = ([py "Error: " ++ exn_str err], disk')
               /\ query md5 FAISS_AVAILABLE index_search str_format s disk q None = (Raise err, disk')
           end
       | Raise err =>
           EnhancedRetriever.forward md5 FAISS_AVAILABLE index_search str_format exn_str s r disk q
           = ([py "Error: " ++ exn_str err], disk')
           /\ query md5 FAISS_AVAILABLE index_search str_format s disk q None = (Ret [], disk')
       end.
Proof.
  intros Hr Hth.
  unfold EnhancedRetriever.forward, query, raw_query, raw_search. rewrite Hr, Hth.
  destruct (Embedder.embed md5 (embedder s) disk q) as [v disk'].
  exists v, disk'. split; [reflexivity|]. simpl.
  destruct (VectorIndex.search FAISS_AVAILABLE index_search (vector_index s) v (top_k r)) as [results|err];
    simpl.
  - destruct (omap (format_result str_format r) results) as [out|err]; split; reflexivity.
  - split; reflexivity.
Qed.

End RetrieverMore.

Lemma query_threshold_monotone_witness :
  exists kept1 kept2 disk',
    Retriever.query string_of_list_ascii false VectorIndex.flat_search echo_format
      sample_retriever ∅ (py "a") (Some 0%R)
    = (omap (Retriever.format_result echo_format
               (Retriever.new_retriever sample_retriever_config)) kept1, disk')
    /\ Retriever.query string_of_list_ascii false VectorIndex.flat_search echo_format
         sample_retriever ∅ (py "a") (Some 1%R)
       = (omap (Retriever.format_result echo_format
                  (Retriever.new_retriever sample_retriever_config)) kept2, disk')
    /\ sublist kept2 kept1
    /\ forall out1,
        omap (Retriever.format_result echo_format
                (Retriever.new_retriever sample_retriever_config)) kept1 = Ret out1 ->
        exists out2,
          omap (Retriever.format_result echo_format
                  (Retriever.new_retriever sample_retriever_config)) kept2 = Ret out2
          /\ sublist out2 out1.
Proof.
  apply (query_threshold_monotone string_of_list_ascii false VectorIndex.flat_search echo_format
           sample_retriever (Retriever.new_retriever sample_retriever_config) ∅ (py "a")
           0%R 1%R).
  - reflexivity.
  - lra.
Defined.

Lemma forward_and_query_witness :
  let s := sample_retriever in
  let r := Retriever.new_retriever sample_retriever_config in
  exists v disk',
    Embedder.embed string_of_list_ascii (Retriever.embedder s) ∅ (py "a") = (v, disk')
    /\ match VectorIndex.search false VectorIndex.flat_search (Retriever.vector_index s) v
               (Retriever.top_k r) with
       | Ret results =>
           match omap (Retriever.format_result echo_format r) results with
           | Ret out =>
               EnhancedRetriever.forward string_of_list_ascii false VectorIndex.flat_search
                 echo_format (fun _ => []) s r ∅ (py "a") = (out, disk')
               /\ Retriever.query string_of_list_ascii false VectorIndex.flat_search echo_format
                    s ∅ (py "a") None = (Ret out, disk')
           | Raise err =>
               EnhancedRetriever.forward string_of_list_ascii false VectorIndex.flat_search
                 echo_format (fun _ => []) s r ∅ (py "a")
               = ([py "Error: " ++ (fun _ : exn => []) err], disk')
               /\ Retriever.query string_of_list_ascii false VectorIndex.flat_search echo_format
                    s ∅ (py "a") None = (Raise err, disk')
           end
       | Raise err =>
           EnhancedRetriever.forward string_of_list_ascii false VectorIndex.flat_search
             echo_format (fun _ => []) s r ∅ (py "a")
           = ([py "Error: " ++ (fun _ : exn => []) err], disk')
           /\ Retriever.query string_of_list_ascii false VectorIndex.flat_search echo_format
                s ∅ (py "a") None = (Ret [], disk')
       end.
Proof.
  intros s r.
  apply (forward_and_query string_of_list_ascii false VectorIndex.flat_search echo_format
           (fun _ => []) s r ∅ (py "a")).
  - reflexivity.
  - reflexivity.
Defined.

(** ** TypeScript extractor: the extracted block *)

Section TypeScriptBlocks.

Import TypeScriptExtractor.

Lemma ascii_eqb_eq (a b : ascii) : PyStr.ascii_eqb a b = true <-> a = b.
Proof.
  unfold PyStr.ascii_eqb. rewrite Nat.eqb_eq. split; [|by intros ->].
  intros H. apply (f_equal ascii_of_nat) in H. by rewrite !ascii_nat_embedding in H.
Qed.

Lemma count_chr_app (c : ascii) (a b : str) :
  count_chr c (a ++ b) = count_chr c a + count_chr c b.
Proof. induction a as [|x a IH]; simpl; [reflexivity|rewrite IH; lia]. Qed.

Lemma count_nl_app (a b : str) :
  PyStr.count_nl (a ++ b) = PyStr.count_nl a + PyStr.count_nl b.
Proof. induction a as [|x a IH]; simpl; [reflexivity|rewrite IH; lia]. Qed.

Lemma find_from_spec (c : ascii) (s : str) (pos p : nat) :
  PyStr.find_from c s pos = Some p ->
  pos <= p /\ p - pos < length s /\ s !! (p - pos) = Some c
  /\ count_chr c (firstn (p - pos) s) = 0.
Proof.
  revert pos. induction s as [|x s IH]; intros pos; simpl; [discriminate|].
  destruct (PyStr.ascii_eqb x c) eqn:E.
  - intros [= <-]. apply ascii_eqb_eq in E. subst x.
    replace (pos - pos) with 0 by lia. simpl. repeat split; auto; lia.
  - intros H. apply IH in H as (H1 & H2 & H3 & H4).
    replace (p - pos) with (S (p - S pos)) by lia. simpl. rewrite E.
    repeat split; auto; lia.
Qed.

(** The brace loop: it stops after [k] characters; the count it ends with
    is the count it started with plus the opening minus the closing braces
    read; it was positive before each character read; and when it ends at
    zero the last character read is a closing brace. *)
Lemma scan_braces_spec (rest : str) :
  forall (bc pos bc' pos' : nat),
    scan_braces rest bc pos = (bc', pos') ->
    exists k,
      pos' = pos + k /\ k <= length rest
      /\ bc + count_chr "{" (firstn k rest) = bc' + count_chr "}" (firstn k rest)
      /\ (forall j, j < k ->
            count_chr "}" (firstn j rest) < bc + count_chr "{" (firstn j rest))
      /\ (0 < bc -> bc' = 0 -> last (firstn k rest) = Some "}"%char).
Proof.
  induction rest as [|c rest IH]; intros bc pos bc' pos'; simpl.
  - intros [= <- <-]. exists 0. simpl. repeat split; try lia.
  - destruct (Nat.eqb_spec bc 0) as [E|E].
    + intros [= <- <-]. exists 0. simpl. repeat split; try lia.
    + intros H. apply IH in H as (k & Hpos & Hk & Hbal & Hpre & Hlast).
      exists (S k). simpl. split; [lia|]. split; [lia|].
      destruct (PyStr.ascii_eqb c "{") eqn:Eo.
      * apply ascii_eqb_eq in Eo. subst c.
        change (PyStr.ascii_eqb "{" "}") with false. simpl.
        split; [lia|]. split.
        -- intros [|j] Hj; simpl; [lia|].
           change (PyStr.ascii_eqb "{" "}") with false.
           change (PyStr.ascii_eqb "{" "{") with true.
           specialize (Hpre j ltac:(lia)). simpl. lia.
        -- intros _ Hz. destruct k as [|k].
           ++ simpl in Hbal. lia.
           ++ specialize (Hlast ltac:(lia) Hz).
              destruct rest as [|y rest]; [discriminate|]. exact Hlast.
      * destruct (PyStr.ascii_eqb c "}") eqn:Ec.
        -- simpl. split; [lia|]. split.
           ++ intros [|j] Hj; simpl; [lia|]. rewrite Eo, Ec.
              specialize (Hpre j ltac:(lia)). simpl. lia.
           ++ intros _ Hz. destruct k as [|k].
              ** apply ascii_eqb_eq in Ec. by subst c.
              ** destruct (Nat.eq_dec (bc - 1) 0) as [Ez|Ez].
                 { specialize (Hpre 0 ltac:(lia)). simpl in Hpre. lia. }
                 specialize (Hlast ltac:(lia) Hz).
                 destruct rest as [|y rest]; [discriminate|]. exact Hlast.
        -- simpl. split; [lia|]. split.
           ++ intros [|j] Hj; simpl; [lia|]. rewrite Eo, Ec.
              specialize (Hpre j ltac:(lia)). simpl. lia.
           ++ intros Hbc Hz. destruct k as [|k].
              ** simpl in Hbal. lia.
              ** specialize (Hlast Hbc Hz).
                 destruct rest as [|y rest]; [discriminate|]. exact Hlast.
Qed.

Lemma firstn_add_app {A} (n m : nat) (l : list A) :
  firstn (n + m) l = firstn n l ++ firstn m (skipn n l).
Proof.
  revert l. induction n as [|n IH]; intros [|x l]; simpl; try reflexivity.
  - by destruct m.
  - by rewrite IH.
Qed.

Lemma slice_split (s : str) (a b c : nat) :
  a <= b -> b <= c -> PyStr.slice s a c = PyStr.slice s a b ++ PyStr.slice s b c.
Proof.
  intros Hab Hbc. unfold PyStr.slice.
  replace (c - a) with ((b - a) + (c - b)) by lia.
  rewrite firstn_add_app. f_equal. f_equal.
  change (@skipn) with (@drop). rewrite drop_drop. f_equal. lia.
Qed.

Lemma firstn_slice (s : str) (b : nat) : firstn b s = PyStr.slice s 0 b.
Proof. unfold PyStr.slice. simpl. by rewrite Nat.sub_0_r. Qed.

(** What [_extract_code_block] returns when it returns a block. *)
Lemma extract_code_block_spec (content : str) (start_pos : nat)
      (snippet : str) (ls le : nat) :
  _extract_code_block content start_pos = (snippet, ls, le) ->
  snippet <> [] ->
  exists open_pos end_pos,
    start_pos <= open_pos /\ open_pos < end_pos /\ end_pos <= length content
    /\ snippet = PyStr.slice content start_pos end_pos
    /\ content !! open_pos = Some "{"%char
    /\ count_chr "{" (PyStr.slice content start_pos open_pos) = 0
    /\ last snippet = Some "}"%char
    /\ count_chr "{" (PyStr.slice content open_pos end_pos)
       = count_chr "}" (PyStr.slice content open_pos end_pos)
    /\ (forall j, open_pos < j -> j < end_pos ->
          count_chr "}" (PyStr.slice content open_pos j)
          < count_chr "{" (PyStr.slice content open_pos j))
    /\ ls = PyStr.count_nl (firstn start_pos content) + 1
    /\ le = ls + PyStr.count_nl snippet.
Proof.
  unfold _extract_code_block, PyStr.find.
  destruct (PyStr.find_from "{" (skipn start_pos content) start_pos) as [ob|] eqn:Hfind;
    [|intros [= <- _ _]; congruence].
  apply find_from_spec in Hfind as (Hge & Hlt & Hat & Hnone).
  change (@skipn) with (@drop) in *. rewrite length_drop in Hlt.
  rewrite lookup_drop in Hat. replace (start_pos + (ob - start_pos)) with ob in Hat by lia.
  destruct (scan_braces (drop (ob + 1) content) 1 (ob + 1)) as [bc pos] eqn:Hscan.
  apply scan_braces_spec in Hscan as (k & -> & Hk & Hbal & Hpre & Hlast).
  rewrite length_drop in Hk.
  destruct (Nat.eqb_spec bc 0) as [->|Hbc]; simpl; [|intros [= <- _ _]; congruence].
  specialize (Hlast ltac:(lia) eq_refl).
  intros [= <- <- <-] _.
  assert (Hk0 : 0 < k).
  { destruct k; [discriminate|lia]. }
  assert (Hopen : forall j, ob < j ->
            PyStr.slice content ob j = "{"%char :: firstn (j - (ob + 1)) (drop (ob + 1) content)).
  { intros j Hj. unfold PyStr.slice. change (@skipn) with (@drop).
    rewrite (drop_S content "{"%char ob Hat).
    replace (j - ob) with (S (j - (ob + 1))) by lia. simpl.
    by replace (ob + 1) with (S ob) by lia. }
  assert (Htail : PyStr.slice content (ob + 1) (ob + 1 + k) = firstn k (drop (ob + 1) content)).
  { unfold PyStr.slice. change (@skipn) with (@drop). f_equal. lia. }
  exists ob, (ob + 1 + k).
  split; [lia|]. split; [lia|]. split; [lia|]. split; [reflexivity|].
  split; [exact Hat|]. split.
  { unfold PyStr.slice. exact Hnone. }
  split.
  { rewrite (slice_split content start_pos (ob + 1) (ob + 1 + k)) by lia.
    rewrite Htail. rewrite last_app. by rewrite Hlast. }
  split.
  { rewrite (Hopen (ob + 1 + k)) by lia.
    replace (ob + 1 + k - (ob + 1)) with k by lia. simpl.
    change (PyStr.ascii_eqb "{" "}") with false.
    change (PyStr.ascii_eqb "{" "{") with true. simpl. simpl in Hbal. lia. }
  split.
  { intros j Hj1 Hj2. rewrite (Hopen j Hj1). simpl.
    change (PyStr.ascii_eqb "{" "}") with false.
    change (PyStr.ascii_eqb "{" "{") with true. simpl.
    specialize (Hpre (j - (ob + 1)) ltac:(lia)). lia. }
  split; [reflexivity|].
  rewrite (firstn_slice content (ob + 1 + k)).
  rewrite (slice_split content 0 start_pos (ob + 1 + k)) by lia.
  rewrite count_nl_app, <- firstn_slice. lia.
Qed.

(** X16. The block of a TypeScript chunk. For every chunk the extractor
    returns for a file, [code] is the text of the file from the start of a
    declaration to a closing brace, with a first opening brace in between;
    from that opening brace to the end of [code] opening and closing braces
    are equal in number, and at every earlier point more are open than
    closed, so that [code] ends with the brace that closes the first one.
    [line_start] is the line of the first character of [code], and
    [line_end] is [line_start] plus the number of newlines in [code]. *)
Theorem ts_chunk_is_balanced_block (mx : option nat) (fp : str) (e : fs_entry) :
  Forall (fun c =>
            exists sz content start_pos open_pos end_pos,
              e = Regular sz (Some content)
              /\ file c = fp
              /\ start_pos <= open_pos /\ open_pos < end_pos /\ end_pos <= length content
              /\ code c = PyStr.slice content start_pos end_pos
              /\ content !! open_pos = Some "{"%char
              /\ count_chr "{" (PyStr.slice content start_pos open_pos) = 0
              /\ last (code c) = Some "}"%char
              /\ count_chr "{" (PyStr.slice content open_pos end_pos)
                 = count_chr "}" (PyStr.slice content open_pos end_pos)
              /\ (forall j, open_pos < j -> j < end_pos ->
                    count_chr "}" (PyStr.slice content open_pos j)
                    < count_chr "{" (PyStr.slice content open_pos j))
              /\ line_start c = PyStr.count_nl (firstn start_pos content) + 1
              /\ line_end c = line_start c + PyStr.count_nl (code c))
         (extract_chunks mx fp e).
Proof.
  apply Forall_forall. intros c Hin. apply list_elem_of_In in Hin.
  unfold extract_chunks in Hin.
  destruct (negb _); [destruct Hin|].
  destruct e as [| |sz [content|]]; try destruct Hin.
  exists sz, content.
  assert (Hone : forall pattern kind,
             In c (extract_with pattern kind fp content) ->
             exists start_pos open_pos end_pos,
               Regular sz (Some content) = Regular sz (Some content)
               /\ file c = fp
               /\ start_pos <= open_pos /\ open_pos < end_pos /\ end_pos <= length content
               /\ code c = PyStr.slice content start_pos end_pos
               /\ content !! open_pos = Some "{"%char
               /\ count_chr "{" (PyStr.slice content start_pos open_pos) = 0
               /\ last (code c) = Some "}"%char
               /\ count_chr "{" (PyStr.slice content open_pos end_pos)
                  = count_chr "}" (PyStr.slice content open_pos end_pos)
               /\ (forall j, open_pos < j -> j < end_pos ->
                     count_chr "}" (PyStr.slice content open_pos j)
                     < count_chr "{" (PyStr.slice content open_pos j))
               /\ line_start c = PyStr.count_nl (firstn start_pos content) + 1
               /\ line_end c = line_start c + PyStr.count_nl (code c)).
  { intros pattern kind H. unfold extract_with in H.
    apply omap_id_In in H. apply in_map_iff in H as (m & Hm & _).
    unfold chunk_of_match in Hm.
    destruct (_extract_code_block content (Re.m_start m)) as [[snippet ls] le] eqn:Hblock.
    destruct snippet as [|x snippet]; [discriminate|].
    injection Hm as <-. simpl.
    destruct (extract_code_block_spec _ _ _ _ _ Hblock ltac:(discriminate))
      as (ob & ep & H1 & H2 & H3 & H4 & H5 & H6 & H7 & H8 & H9 & H10 & H11).
    exists (Re.m_start m), ob, ep. repeat split; auto. }
  unfold _extract_functions, _extract_classes, _extract_interfaces,
    _extract_arrow_functions in Hin.
  rewrite !in_app_iff in Hin.
  destruct Hin as [H|[H|[H|H]]]; eapply Hone; exact H.
Qed.

End TypeScriptBlocks.

(** ** Markdown extractor: how sections are numbered *)

Section MarkdownSections.

Import MarkdownExtractor.



End MarkdownSections.

(** ** Python extractor: which declarations are found *)

Section PythonDeclarations.

Import PythonExtractor.

Lemma subtree_unfold (n : node) :
  subtree n = n :: flat_map subtree (children n).
Proof.
  destruct n as [k nm l e d b o]. simpl. rewrite flat_map_app. reflexivity.
Qed.

Lemma size_unfold (n : node) :
  size n = S (list_sum (map size (children n))).
Proof.
  destruct n as [k nm l e d b o]. simpl. f_equal.
  rewrite map_app, list_sum_app. f_equal.
  - induction b as [|x b IH]; simpl; [reflexivity|by rewrite IH].
  - induction o as [|x o IH]; simpl; [reflexivity|by rewrite IH].
Qed.

(** With fuel for every node, the queue visits each node of the trees in
    [todo] exactly once. *)
Lemma walk_queue_visits_all (fuel : nat) :
  forall todo,
    list_sum (map size todo) <= fuel ->
    Permutation (walk_queue fuel todo) (flat_map subtree todo).
Proof.
  induction fuel as [|fuel IH]; intros todo Hfuel.
  - destruct todo as [|n rest]; [constructor|].
    simpl in Hfuel. rewrite size_unfold in Hfuel. lia.
  - destruct todo as [|n rest]; [constructor|].
    simpl. rewrite subtree_unfold. simpl. constructor.
    simpl in Hfuel. rewrite size_unfold in Hfuel.
    rewrite (IH (rest ++ children n)).
    + rewrite flat_map_app. apply Permutation_app_comm.
    + rewrite map_app, list_sum_app. lia.
Qed.

(** The visit is breadth first: the nodes of [todo] come first, in order. *)
Lemma walk_queue_prefix (fuel : nat) :
  forall todo,
    list_sum (map size todo) <= fuel ->
    exists below, walk_queue fuel todo = todo ++ below.
Proof.
  induction fuel as [|fuel IH]; intros todo Hfuel.
  - destruct todo as [|n rest]; [by exists []|].
    simpl in Hfuel. rewrite size_unfold in Hfuel. lia.
  - destruct todo as [|n rest]; [by exists []|].
    simpl. simpl in Hfuel. rewrite size_unfold in Hfuel.
    destruct (IH (rest ++ children n)) as [below Hb].
    + rewrite map_app, list_sum_app. lia.
    + rewrite Hb. exists (children n ++ below). by rewrite <- app_assoc.
Qed.

(** X18. Declarations at every depth. For a file that is accepted and
    parsed, the chunks are the module chunk (when the module docstring is
    not empty) followed by exactly one chunk per function, async function
    or class of the syntax tree, nested ones included: the declarations
    extracted are a rearrangement of the declarations of the whole tree,
    and the top-level ones come first, in source order. *)
Theorem py_extracts_every_declaration (mx : option nat) (fp content : str) (sz : nat)
        (m : module_ast) :
  BaseExtractor.is_valid_file (default BaseExtractor.default_max_file_size mx)
    (Regular sz (Some content)) = true ->
  exists decls nested,
    extract_chunks mx fp (Regular sz (Some content)) (Some m)
    = match module_docstring m with
      | Some (_ :: _ as doc) => [module_chunk fp doc]
      | _ => []
      end
      ++ map (fun n => _extract_node n fp content) decls
    /\ Permutation decls (filter is_def (flat_map subtree (module_body m)))
    /\ decls = filter is_def (module_body m) ++ nested.
Proof.
  intros Hvalid. unfold extract_chunks. rewrite Hvalid. simpl.
  exists (filter is_def (walk m)).
  destruct (walk_queue_prefix (list_sum (map size (module_body m))) (module_body m))
    as [below Hb]; [lia|].
  exists (filter is_def below). split; [reflexivity|]. split.
  - unfold walk. clear Hb.
    pose proof (walk_queue_visits_all (list_sum (map size (module_body m)))
                  (module_body m) ltac:(lia)) as Hp.
    revert Hp. generalize (walk_queue (list_sum (map size (module_body m))) (module_body m)).
    generalize (flat_map subtree (module_body m)).
    intros l2 l1 Hp. by rewrite Hp.
  - unfold walk. rewrite Hb. apply filter_app.
Qed.

End PythonDeclarations.

Lemma py_extracts_every_declaration_witness :
  exists decls nested,
    PythonExtractor.extract_chunks None (py "m.py")
      (Regular 43 (Some nested_functions_text)) (Some nested_functions)
    = match PythonExtractor.module_docstring nested_functions with
      | Some (_ :: _ as doc) => [PythonExtractor.module_chunk (py "m.py") doc]
      | _ => []
      end
      ++ map (fun n => PythonExtractor._extract_node n (py "m.py") nested_functions_text) decls
    /\ Permutation decls
         (filter PythonExtractor.is_def
            (flat_map subtree (PythonExtractor.module_body nested_functions)))
    /\ decls = filter PythonExtractor.is_def (PythonExtractor.module_body nested_functions)
               ++ nested.
Proof.
  apply (py_extracts_every_declaration None (py "m.py") nested_functions_text 43
           nested_functions).
  reflexivity.
Defined.

(** ** Project registry *)

Section ProjectRegistry.

Variable abspath : str -> str.

Import ProjectManager.

Lemma dict_get_set_eq (d : dict) (k : str) (v : info) :
  dict_get (dict_set d k v) k = Some v.
Proof.
  induction d as [|[k0 v0] d IH]; simpl.
  - by rewrite decide_True.
  - destruct (decide (k0 = k)); simpl.
    + by rewrite decide_True.
    + by rewrite decide_False.
Qed.

Lemma dict_get_set_ne (d : dict) (k k' : str) (v : info) :
  k' <> k -> dict_get (dict_set d k v) k' = dict_get d k'.
Proof.
  intros Hne. induction d as [|[k0 v0] d IH]; simpl.
  - by rewrite decide_False.
  - destruct (decide (k0 = k)) as [->|]; simpl.
    + by rewrite !decide_False.
    + destruct (decide (k0 = k')); [reflexivity|exact IH].
Qed.

Lemma dict_get_del_ne (d : dict) (k k' : str) :
  k' <> k -> dict_get (dict_del d k) k' = dict_get d k'.
Proof.
  intros Hne. induction d as [|[k0 v0] d IH]; simpl; [reflexivity|].
  destruct (decide (k0 = k)) as [->|]; simpl.
  - by rewrite decide_False.
  - destruct (decide (k0 = k')); [reflexivity|exact IH].
Qed.

Lemma dict_get_None (d : dict) (k : str) :
  dict_get d k = None <-> k ∉ map fst d.
Proof.
  induction d as [|[k0 v0] d IH]; simpl.
  - split; [intros _ H; inversion H|reflexivity].
  - destruct (decide (k0 = k)) as [->|Hne].
    + split; [discriminate|]. intros H. exfalso. apply H. by left.
    + rewrite IH, not_elem_of_cons. split; [by split|by intros [_ H]].
Qed.

Lemma dict_get_del_eq (d : dict) (k : str) :
  NoDup (map fst d) -> dict_get (dict_del d k) k = None.
Proof.
  induction d as [|[k0 v0] d IH]; simpl; [reflexivity|].
  intros Hnd. apply NoDup_cons in Hnd as [Hnotin Hnd].
  destruct (decide (k0 = k)) as [->|Hne]; simpl.
  - by apply dict_get_None.
  - rewrite decide_False by exact Hne. by apply IH.
Qed.

Lemma dict_set_keys (d : dict) (k : str) (v : info) :
  map fst (dict_set d k v)
  = if dict_mem d k then map fst d else map fst d ++ [k].
Proof.
  unfold dict_mem. induction d as [|[k0 v0] d IH]; simpl; [reflexivity|].
  destruct (decide (k0 = k)) as [->|Hne]; simpl; [reflexivity|].
  rewrite IH. by destruct (dict_get d k).
Qed.

Lemma filter_ne_notin (l : list str) (k : str) :
  k ∉ l -> filter (fun k' => k' <> k) l = l.
Proof.
  induction l as [|x l IH]; [reflexivity|].
  rewrite not_elem_of_cons. intros [Hx Hl]. rewrite filter_cons.
  rewrite decide_True by congruence. by rewrite IH.
Qed.

Lemma dict_del_keys (d : dict) (k : str) :
  NoDup (map fst d) -> map fst (dict_del d k) = filter (fun k' => k' <> k) (map fst d).
Proof.
  induction d as [|[k0 v0] d IH]; simpl; [reflexivity|].
  intros Hnd. apply NoDup_cons in Hnd as [Hnotin Hnd]. rewrite filter_cons. simpl.
  destruct (decide (k0 = k)) as [->|Hne].
  - rewrite decide_False by (intros H; by apply H). by rewrite filter_ne_notin.
  - rewrite decide_True by exact Hne. simpl. by rewrite IH.
Qed.

Lemma dict_set_NoDup (d : dict) (k : str) (v : info) :
  NoDup (map fst d) -> NoDup (map fst (dict_set d k v)).
Proof.
  intros Hnd. rewrite dict_set_keys. unfold dict_mem.
  destruct (dict_get d k) eqn:Hget; [exact Hnd|].
  apply dict_get_None in Hget. apply NoDup_app. split; [exact Hnd|]. split.
  - intros x Hx Hin. apply list_elem_of_singleton in Hin. by subst x.
  - apply NoDup_singleton.
Qed.

Lemma dict_del_NoDup (d : dict) (k : str) :
  NoDup (map fst d) -> NoDup (map fst (dict_del d k)).
Proof.
  intros Hnd. rewrite dict_del_keys by exact Hnd. by apply NoDup_filter.
Qed.

Lemma dict_mem_set (d : dict) (k k' : str) (v : info) :
  dict_mem d k' = true -> dict_mem (dict_set d k v) k' = true.
Proof.
  unfold dict_mem. destruct (decide (k' = k)) as [->|Hne].
  - by rewrite dict_get_set_eq.
  - by rewrite dict_get_set_ne.
Qed.

Lemma writable_save_projects (s : t) (dk : disk) :
  writable (_save_projects s dk) = writable dk.
Proof. unfold _save_projects. destruct (writable dk) eqn:E; simpl; by rewrite ?E. Qed.

Lemma writable_save_current (s : t) (dk : disk) :
  writable (_save_current_project s dk) = writable dk.
Proof.
  unfold _save_current_project.
  destruct (truthy _), (current_project_file dk), (writable dk) eqn:E; simpl; by rewrite ?E.
Qed.

(** Each call keeps the keys distinct and the current project registered. *)
Lemma step_well_formed (st : t * disk) (c : call) :
  well_formed st.1 -> well_formed (step abspath st c).1.
Proof.
  destruct st as [s dk]. intros [Hnd Hcur]. simpl in Hnd, Hcur.
  destruct c as [name directory cp|name|name]; simpl.
  - unfold add_project.
    destruct (negb (isdir dk directory)); [by split|].
    destruct (truthy cp && negb (isfile dk (default [] cp))); [by split|].
    simpl. split; simpl.
    + by apply dict_set_NoDup.
    + unfold current_registered in *. simpl.
      destruct (current_project s); [by apply dict_mem_set|exact I].
  - unfold remove_project.
    destruct (dict_mem (projects s) name); [|by split]. simpl.
    destruct (decide (current_project s = Some name)) as [E|E]; simpl.
    + split; simpl; [by apply dict_del_NoDup|exact I].
    + split; simpl; [by apply dict_del_NoDup|].
      unfold current_registered in *. simpl.
      destruct (current_project s) as [n|]; [|exact I].
      unfold dict_mem in *. rewrite dict_get_del_ne by congruence. exact Hcur.
  - unfold set_current_project.
    destruct (dict_mem (projects s) name) eqn:Hmem; simpl; [|by split].
    split; [exact Hnd|exact Hmem].
Qed.

(** X19. An invariant of the registry. Started on any files whose project
    dictionary has distinct keys, and after any sequence of [add_project],
    [remove_project] and [set_current_project] calls (failing ones
    included), the project names are distinct, and the current project, when
    there is one, is a registered project. *)
Theorem registry_well_formed (dk : disk) (calls : list call) :
  match projects_json dk with
  | Some (ProjectsJson d) => NoDup (map fst d)
  | _ => True
  end ->
  well_formed (run abspath (__init__ dk, dk) calls).1.
Proof.
  intros Hfile.
  assert (Hinit : well_formed (__init__ dk, dk).1).
  { simpl. unfold __init__, _load_projects, _load_current_project.
    destruct (projects_json dk) as [[d|]|]; simpl;
      destruct (current_project_file dk) as [[text|]|]; simpl;
      try (split; [first [exact Hfile|constructor]|exact I]).
    - destruct (dict_mem d (PyStr.strip (universal_newlines text))) eqn:Hmem; simpl.
      + split; [exact Hfile|exact Hmem].
      + split; [exact Hfile|exact I]. }
  unfold run. revert Hinit. generalize (__init__ dk, dk).
  induction calls as [|c calls IH]; intros st Hst; simpl; [exact Hst|].
  apply IH. by apply step_well_formed.
Qed.

(** Each call of a run on writable files keeps the files in step with the
    state. *)
Lemma step_mirrored (st : t * disk) (c : call) :
  writable st.2 = true -> plain_name c -> mirrored st.1 st.2 ->
  writable (step abspath st c).2 = true
  /\ mirrored (step abspath st c).1 (step abspath st c).2.
Proof.
  destruct st as [s dk]. simpl. intros Hw Hplain [Hproj Hcur].
  destruct c as [name directory cp|name|name]; simpl.
  - unfold add_project.
    destruct (negb (isdir dk directory)); [by repeat split|].
    destruct (truthy cp && negb (isfile dk (default [] cp))); [by repeat split|].
    simpl. rewrite writable_save_projects. split; [exact Hw|].
    unfold _save_projects. rewrite Hw. split; simpl; [reflexivity|].
    destruct (current_project s) as [n|]; [|exact Hcur].
    destruct Hcur as (H1 & H2 & H3 & H4 & H5). repeat split; auto. by apply dict_mem_set.
  - unfold remove_project.
    destruct (dict_mem (projects s) name); [|by repeat split]. simpl.
    destruct (decide (current_project s = Some name)) as [E|E]; simpl.
    + rewrite writable_save_current, writable_save_projects. split; [exact Hw|].
      rewrite E in Hcur. destruct Hcur as (H1 & _).
      unfold _save_current_project, _save_projects. rewrite Hw. simpl.
      destruct (current_project_file dk) as [f|]; [|discriminate H1].
      rewrite Hw. split; reflexivity.
    + rewrite writable_save_projects. split; [exact Hw|].
      unfold _save_projects. rewrite Hw. split; simpl; [reflexivity|].
      destruct (current_project s) as [n|]; [|exact Hcur].
      destruct Hcur as (H1 & H2 & H3 & H4 & H5). repeat split; auto.
      unfold dict_mem in *. rewrite dict_get_del_ne by congruence. exact H5.
  - unfold set_current_project. simpl in Hplain. destruct Hplain as (Hne & Hnl & Hstrip).
    destruct (dict_mem (projects s) name) eqn:Hmem; simpl; [|by repeat split].
    rewrite writable_save_current. split; [exact Hw|].
    unfold _save_current_project. simpl.
    destruct name as [|x name]; [congruence|]. simpl. rewrite Hw. simpl.
    split; [exact Hproj|]. repeat split; auto.
Qed.

Lemma mirrored_init (s : t) (dk : disk) : mirrored s dk -> __init__ dk = s.
Proof.
  destruct s as [projs cur]. intros [Hproj Hcur]. simpl in *.
  unfold __init__, _load_projects, _load_current_project.
  destruct cur as [n|].
  - destruct Hcur as (Hfile & _ & Hnl & Hstrip & Hmem). rewrite Hfile.
    destruct (projects_json dk) as [[d|]|]; subst; try discriminate Hmem.
    cbv zeta. cbn [projects current_project]. by rewrite Hnl, Hstrip, Hmem.
  - rewrite Hcur. destruct (projects_json dk) as [[d|]|]; simpl; by subst.
Qed.

(** X20. Restart round trip. On writable files that mirror the state, after
    any sequence of calls in which the names made current are not empty,
    have no white space at either end and hold no carriage return (the
    file of the current project is written and read in text mode, and
    reading turns a carriage return into a line feed), the files mirror
    the state again, and a new start of the program ([__init__] on these
    files) yields exactly the state the run ended in. *)
Theorem registry_restart (s : t) (dk : disk) (calls : list call) :
  writable dk = true ->
  mirrored s dk ->
  Forall plain_name calls ->
  mirrored (run abspath (s, dk) calls).1 (run abspath (s, dk) calls).2
  /\ __init__ (run abspath (s, dk) calls).2 = (run abspath (s, dk) calls).1.
Proof.
  intros Hw Hm Hcalls.
  assert (H : writable (run abspath (s, dk) calls).2 = true
              /\ mirrored (run abspath (s, dk) calls).1 (run abspath (s, dk) calls).2).
  { unfold run.
    change (writable (s, dk).2 = true) in Hw. change (mirrored (s, dk).1 (s, dk).2) in Hm.
    revert Hw Hm. generalize (s, dk).
    induction Hcalls as [|c calls Hc _ IH]; intros st Hw Hm; simpl; [by split|].
    destruct (step_mirrored st c Hw Hc Hm) as [Hw' Hm']. by apply IH. }
  destruct H as [_ H]. split; [exact H|]. by apply mirrored_init.
Qed.

(** X21. [add_project] then [get_project]. When [add_project] returns, the
    project can be looked up under its name, unless the name is empty (which
    [get_project] answers with [None]); its entry holds the absolute
    directory, the absolute configuration path or [None], and the name as
    index name. Every other name is looked up as before. A new name goes to
    the end of the listing, a known one keeps its place. When it raises, the
    directory does not exist, or a configuration path was given that is not
    a file. *)
Theorem add_project_then_get (s : t) (dk : disk) (name directory : str)
        (config_path : option str) :
  match add_project abspath s dk name directory config_path with
  | Ret (s', dk') =>
      isdir dk directory = true
      /\ (truthy config_path = true -> isfile dk (default [] config_path) = true)
      /\ get_project s' (Some name)
         = (if decide (name = []) then None
            else Some {| directory := abspath directory;
                         config_path :=
                           if truthy config_path
                           then Some (abspath (default [] config_path)) else None;
                         index_name := name |})
      /\ (forall n, n <> name -> get_project s' (Some n) = get_project s (Some n))
      /\ map listed_name (list_projects s')
         = (if dict_mem (projects s) name then map listed_name (list_projects s)
            else map listed_name (list_projects s) ++ [name])
      /\ current_project s' = current_project s
  | Raise err =>
      err = ValueError
      /\ (isdir dk directory = false
          \/ (truthy config_path = true /\ isfile dk (default [] config_path) = false))
  end.
Proof.
  assert (Hnames : forall s0, map listed_name (list_projects s0) = map fst (projects s0)).
  { intros s0. unfold list_projects. rewrite map_map. apply map_ext. by intros [n i]. }
  unfold add_project.
  destruct (isdir dk directory) eqn:Hdir; simpl; [|split; [reflexivity|by left]].
  destruct (truthy config_path) eqn:Hcp; simpl.
  - destruct (isfile dk (default [] config_path)) eqn:Hf; simpl;
      [|split; [reflexivity|by right]].
    split; [reflexivity|]. split; [done|]. split; [|split; [|split; [|reflexivity]]].
    + unfold get_project. simpl. destruct name as [|x name]; simpl; [reflexivity|].
      by rewrite dict_get_set_eq.
    + intros n Hn. unfold get_project. simpl. destruct n as [|y n]; simpl; [reflexivity|].
      by rewrite dict_get_set_ne.
    + rewrite !Hnames. simpl. apply dict_set_keys.
  - split; [reflexivity|]. split; [done|]. split; [|split; [|split; [|reflexivity]]].
    + unfold get_project. simpl. destruct name as [|x name]; simpl; [reflexivity|].
      by rewrite dict_get_set_eq.
    + intros n Hn. unfold get_project. simpl. destruct n as [|y n]; simpl; [reflexivity|].
      by rewrite dict_get_set_ne.
    + rewrite !Hnames. simpl. apply dict_set_keys.
Qed.

(** X22. [remove_project]. On a well-formed state (distinct project names,
    the current project registered), after
    [remove_project] the name is no longer found and is no longer listed,
    every other name is looked up as before and the listing keeps its order.
    The current project is cleared exactly when it was the one removed, and
    then, on writable files, the file recording it is removed too. Removing
    an unknown name changes neither the state nor the files. *)
Theorem remove_project_then_get (s : t) (dk : disk) (name : str) :
  well_formed s ->
  let '(s', dk') := remove_project s dk name in
  get_project s' (Some name) = None
  /\ (forall n, n <> name -> get_project s' (Some n) = get_project s (Some n))
  /\ map listed_name (list_projects s')
     = filter (fun n => n <> name) (map listed_name (list_projects s))
  /\ current_project s'
     = (if decide (current_project s = Some name) then None else current_project s)
  /\ (dict_mem (projects s) name = true -> current_project s = Some name ->
      writable dk = true -> current_project_file dk' = None)
  /\ (dict_mem (projects s) name = false -> s' = s /\ dk' = dk).
Proof.
  intros [Hnd Hcur].
  assert (Hnames : forall s0, map listed_name (list_projects s0) = map fst (projects s0)).
  { intros s0. unfold list_projects. rewrite map_map. apply map_ext. by intros [n i]. }
  unfold remove_project. destruct (dict_mem (projects s) name) eqn:Hmem; simpl.
  - assert (Hget : forall cur, get_project {| projects := dict_del (projects s) name;
                                              current_project := cur |} (Some name) = None).
    { intros cur. unfold get_project. simpl. destruct name; simpl; [reflexivity|].
      by apply dict_get_del_eq. }
    assert (Hoth : forall cur n, n <> name ->
               get_project {| projects := dict_del (projects s) name;
                              current_project := cur |} (Some n) = get_project s (Some n)).
    { intros cur n Hn. unfold get_project. simpl. destruct n; simpl; [reflexivity|].
      by apply dict_get_del_ne. }
    destruct (decide (current_project s = Some name)) as [E|E]; simpl.
    + split; [apply Hget|]. split; [apply Hoth|]. split.
      { rewrite !Hnames. simpl. by apply dict_del_keys. }
      split; [reflexivity|]. split; [|discriminate].
      intros _ _ Hw. unfold _save_current_project, _save_projects. rewrite Hw. simpl.
      destruct (current_project_file dk) eqn:Ef; rewrite ?Hw; simpl; [reflexivity|exact Ef].
    + split; [apply Hget|]. split; [apply Hoth|]. split.
      { rewrite !Hnames. simpl. by apply dict_del_keys. }
      split; [reflexivity|]. split; [congruence|discriminate].
  - split.
    { unfold get_project. simpl. destruct name; simpl; [reflexivity|].
      unfold dict_mem in Hmem. by destruct (dict_get (projects s) _). }
    split; [reflexivity|]. split.
    { rewrite Hnames. symmetry. apply filter_ne_notin. apply dict_get_None.
      unfold dict_mem in Hmem. by destruct (dict_get (projects s) name). }
    split.
    { destruct (decide (current_project s = Some name)) as [E|E]; [|reflexivity].
      unfold current_registered in Hcur. rewrite E in Hcur. congruence. }
    split; [discriminate|]. intros _. by split.
Qed.

Lemma list_projects_count (d : dict) (cur : option str) :
  NoDup (map fst d) ->
  length (filter (fun e => listed_current e = true)
            (list_projects {| projects := d; current_project := cur |}))
  = match cur with
    | Some n => if dict_mem d n then 1 else 0
    | None => 0
    end.
Proof.
  unfold list_projects, dict_mem. simpl.
  induction d as [|[k0 v0] d IH]; intros Hnd; simpl.
  - by destruct cur.
  - apply NoDup_cons in Hnd as [Hnotin Hnd]. rewrite filter_cons. simpl. simpl in Hnotin.
    specialize (IH Hnd). destruct cur as [n|].
    + destruct (decide (k0 = n)) as [->|Hne].
      * rewrite bool_decide_eq_true_2 by reflexivity. rewrite decide_True by reflexivity.
        simpl. rewrite IH. apply dict_get_None in Hnotin. by rewrite Hnotin.
      * rewrite bool_decide_eq_false_2 by congruence. rewrite decide_False by discriminate.
        exact IH.
    + rewrite bool_decide_eq_false_2 by discriminate. rewrite decide_False by discriminate.
      exact IH.
Qed.

(** X23. What [list_projects] shows. On a well-formed state the listing has
    one entry per project, in the order of registration, each with the
    information [get_project] gives for its name; an entry is marked
    current exactly when its name is the current project, so exactly one
    entry is marked when a current project is set and none otherwise; and
    the marked entry is the one [get_current_project] returns, unless its
    name is empty. *)
Theorem list_projects_marks_current (s : t) :
  well_formed s ->
  map listed_name (list_projects s) = map fst (projects s)
  /\ Forall (fun e =>
               dict_get (projects s) (listed_name e) = Some (listed_info e)
               /\ (listed_current e = true <-> current_project s = Some (listed_name e))
               /\ (listed_current e = true -> listed_name e <> [] ->
                   get_current_project s = Some (listed_info e)))
       (list_projects s)
  /\ length (filter (fun e => listed_current e = true) (list_projects s))
     = match current_project s with Some _ => 1 | None => 0 end
  /\ (forall i, get_current_project s = Some i ->
        exists e, e ∈ list_projects s /\ listed_current e = true /\ listed_info e = i).
Proof.
  intros [Hnd Hcur].
  assert (Hentry : forall e, e ∈ list_projects s ->
             dict_get (projects s) (listed_name e) = Some (listed_info e)
             /\ (listed_current e = true <-> current_project s = Some (listed_name e))).
  { intros e He. unfold list_projects in He. apply list_elem_of_fmap in He as ([n i] & -> & Hin).
    simpl. split.
    - clear Hcur. induction (projects s) as [|[k0 v0] d IH]; [inversion Hin|].
      simpl in Hnd. apply NoDup_cons in Hnd as [Hnotin Hnd]. simpl.
      apply elem_of_cons in Hin as [[= <- <-]|Hin].
      + by rewrite decide_True.
      + destruct (decide (k0 = n)) as [->|_]; [|by apply IH].
        exfalso. apply Hnotin. apply list_elem_of_fmap. by exists (n, i).
    - rewrite bool_decide_eq_true. split; congruence. }
  split; [|split; [|split]].
  - unfold list_projects. rewrite map_map. apply map_ext. by intros [n i].
  - apply Forall_forall. intros e He. destruct (Hentry e He) as [Hget Hiff].
    split; [exact Hget|]. split; [exact Hiff|].
    intros Hc Hname. apply Hiff in Hc. unfold get_current_project, get_project.
    rewrite Hc. simpl. destruct (listed_name e); [congruence|exact Hget].
  - destruct s as [d cur]. simpl in *. rewrite list_projects_count by exact Hnd.
    unfold current_registered in Hcur. simpl in Hcur.
    destruct cur as [n|]; [by rewrite Hcur|reflexivity].
  - intros i Hi. unfold get_current_project, get_project in Hi.
    destruct (current_project s) as [n|] eqn:Ecur; [|discriminate]. simpl in Hi.
    destruct n as [|x n]; [discriminate|]. simpl in Hi.
    exists {| listed_info := i; listed_name := x :: n; listed_current := true |}.
    split; [|by split]. unfold list_projects. apply list_elem_of_fmap.
    exists (x :: n, i). split.
    + simpl. by rewrite Ecur, bool_decide_eq_true_2.
    + clear -Hi. induction (projects s) as [|[k0 v0] d IH]; [discriminate|].
      simpl in Hi. destruct (decide (k0 = x :: n)) as [->|_].
      * injection Hi as ->. by left.
      * right. by apply IH.
Qed.

(** X24. A project whose name is empty. When the empty name is registered,
    [set_current_project] accepts it and makes it current, but returns
    [None]; afterwards [get_current_project] is [None] although
    [list_projects] marks the entry as current, and on writable files no
    file records a current project. *)
Theorem empty_name_is_never_current (s : t) (dk : disk) :
  dict_mem (projects s) [] = true ->
  exists s' dk',
    set_current_project s dk [] = Ret (s', dk', None)
    /\ current_project s' = Some []
    /\ get_current_project s' = None
    /\ (exists e, e ∈ list_projects s' /\ listed_name e = [] /\ listed_current e = true)
    /\ (writable dk = true -> current_project_file dk' = None).
Proof.
  intros Hmem. unfold set_current_project. rewrite Hmem. simpl.
  eexists _, _. split; [reflexivity|]. split; [reflexivity|]. split; [reflexivity|]. split.
  - unfold dict_mem in Hmem. destruct (dict_get (projects s) []) as [i|] eqn:Hget;
      [|discriminate].
    exists {| listed_info := i; listed_name := []; listed_current := true |}.
    split; [|by split]. unfold list_projects. simpl. apply list_elem_of_fmap.
    exists ([], i). split; [reflexivity|].
    clear -Hget. induction (projects s) as [|[k0 v0] d IH]; [discriminate|].
    simpl in Hget. destruct (decide (k0 = [])) as [->|_].
    + injection Hget as ->. by left.
    + right. by apply IH.
  - intros Hw. unfold _save_current_project. simpl.
    destruct (current_project_file dk) eqn:Ef; rewrite ?Hw; simpl; [reflexivity|exact Ef].
Qed.

End ProjectRegistry.

Lemma registry_well_formed_witness :
  ProjectManager.well_formed
    (ProjectManager.run (fun p => p)
       (ProjectManager.__init__ ProjectManager.fresh_disk, ProjectManager.fresh_disk)
       [ ProjectManager.AddProject (py "a") (py "/p") None;
         ProjectManager.SetCurrentProject (py "a");
         ProjectManager.RemoveProject (py "a") ]).1.
Proof.
  apply (registry_well_formed (fun p => p) ProjectManager.fresh_disk).
  exact I.
Defined.

Lemma registry_restart_witness :
  let s := {| ProjectManager.projects := []; ProjectManager.current_project := None |} in
  let calls := [ ProjectManager.AddProject (py "a") (py "/p") None;
                 ProjectManager.SetCurrentProject (py "a") ] in
  ProjectManager.mirrored
    (ProjectManager.run (fun p => p) (s, ProjectManager.fresh_disk) calls).1
    (ProjectManager.run (fun p => p) (s, ProjectManager.fresh_disk) calls).2
  /\ ProjectManager.__init__
       (ProjectManager.run (fun p => p) (s, ProjectManager.fresh_disk) calls).2
     = (ProjectManager.run (fun p => p) (s, ProjectManager.fresh_disk) calls).1.
Proof.
  intros s calls.
  apply (registry_restart (fun p => p) s ProjectManager.fresh_disk calls).
  - reflexivity.
  - split; reflexivity.
  - repeat constructor. discriminate.
Defined.

(** A project registered under a name that holds a carriage return and
    made current: the next start reads a line feed in its place, finds no
    project of that name and starts without a current project. *)
Lemma registry_carriage_return_not_restored :
  let name := ["a"%char; ascii_of_nat 13; "b"%char] in
  let s := {| ProjectManager.projects := []; ProjectManager.current_project := None |} in
  let calls := [ ProjectManager.AddProject name (py "/p") None;
                 ProjectManager.SetCurrentProject name ] in
  ProjectManager.current_project
    (ProjectManager.run (fun p => p) (s, ProjectManager.fresh_disk) calls).1
  = Some name
  /\ ProjectManager.current_project
       (ProjectManager.__init__
          (ProjectManager.run (fun p => p) (s, ProjectManager.fresh_disk) calls).2)
     = None.
Proof. split; vm_compute; reflexivity. Qed.

Lemma remove_project_then_get_witness :
  let '(s', dk') :=
    ProjectManager.remove_project registry_with_a ProjectManager.fresh_disk (py "a") in
  ProjectManager.get_project s' (Some (py "a")) = None
  /\ (forall n, n <> py "a" ->
        ProjectManager.get_project s' (Some n)
        = ProjectManager.get_project registry_with_a (Some n))
  /\ map ProjectManager.listed_name (ProjectManager.list_projects s')
     = filter (fun n => n <> py "a")
         (map ProjectManager.listed_name (ProjectManager.list_projects registry_with_a))
  /\ ProjectManager.current_project s'
     = (if decide (ProjectManager.current_project registry_with_a = Some (py "a"))
        then None else ProjectManager.current_project registry_with_a)
  /\ (ProjectManager.dict_mem (ProjectManager.projects registry_with_a) (py "a") = true ->
      ProjectManager.current_project registry_with_a = Some (py "a") ->
      ProjectManager.writable ProjectManager.fresh_disk = true ->
      ProjectManager.current_project_file dk' = None)
  /\ (ProjectManager.dict_mem (ProjectManager.projects registry_with_a) (py "a") = false ->
      s' = registry_with_a /\ dk' = ProjectManager.fresh_disk).
Proof.
  apply (remove_project_then_get registry_with_a ProjectManager.fresh_disk (py "a")).
  split; [apply NoDup_singleton|reflexivity].
Defined.

Lemma list_projects_marks_current_witness :
  map ProjectManager.listed_name (ProjectManager.list_projects registry_with_a)
  = map fst (ProjectManager.projects registry_with_a)
  /\ Forall (fun e =>
               ProjectManager.dict_get (ProjectManager.projects registry_with_a)
                 (ProjectManager.listed_name e) = Some (ProjectManager.listed_info e)
               /\ (ProjectManager.listed_current e = true
                   <-> ProjectManager.current_project registry_with_a
                       = Some (ProjectManager.listed_name e))
               /\ (ProjectManager.listed_current e = true ->
                   ProjectManager.listed_name e <> [] ->
                   ProjectManager.get_current_project registry_with_a
                   = Some (ProjectManager.listed_info e)))
       (ProjectManager.list_projects registry_with_a)
  /\ length (filter (fun e => ProjectManager.listed_current e = true)
               (ProjectManager.list_projects registry_with_a))
     = match ProjectManager.current_project registry_with_a with
       | Some _ => 1
       | None => 0
       end
  /\ (forall i, ProjectManager.get_current_project registry_with_a = Some i ->
        exists e, e ∈ ProjectManager.list_projects registry_with_a
                  /\ ProjectManager.listed_current e = true
                  /\ ProjectManager.listed_info e = i).
Proof.
  apply (list_projects_marks_current registry_with_a).
  split; [apply NoDup_singleton|reflexivity].
Defined.

Lemma empty_name_is_never_current_witness :
  exists s' dk',
    ProjectManager.set_current_project registry_with_unnamed ProjectManager.fresh_disk []
    = Ret (s', dk', None)
    /\ ProjectManager.current_project s' = Some []
    /\ ProjectManager.get_current_project s' = None
    /\ (exists e, e ∈ ProjectManager.list_projects s'
                  /\ ProjectManager.listed_name e = []
                  /\ ProjectManager.listed_current e = true)
    /\ (ProjectManager.writable ProjectManager.fresh_disk = true ->
        ProjectManager.current_project_file dk' = None).
Proof.
  apply (empty_name_is_never_current registry_with_unnamed ProjectManager.fresh_disk).
  reflexivity.
Defined.

(** ** Configuration: setting and reading nested keys *)

Section ConfigPaths.

Import Config.

Lemma cfg_get_set_eq (d : dict) (k : str) (v : cval) :
  dict_get (dict_set d k v) k = Some v.
Proof.
  induction d as [|[k0 v0] d IH]; simpl.
  - by rewrite decide_True.
  - destruct (decide (k0 = k)); simpl.
    + by rewrite decide_True.
    + by rewrite decide_False.
Qed.

Lemma cfg_get_set_ne (d : dict) (k k' : str) (v : cval) :
  k' <> k -> dict_get (dict_set d k v) k' = dict_get d k'.
Proof.
  intros Hne. induction d as [|[k0 v0] d IH]; simpl.
  - by rewrite decide_False.
  - destruct (decide (k0 = k)) as [->|]; simpl.
    + by rewrite !decide_False.
    + destruct (decide (k0 = k')); [reflexivity|exact IH].
Qed.

Lemma set_nested_config_step (config : cval) (k k2 : str) (keys : list str) (value : cval) :
  _set_nested_config config (k :: k2 :: keys) value
  = match config with
    | Dict d =>
        let d := match dict_get d k with
                 | Some _ => d
                 | None => dict_set d k (Dict [])
                 end in
        do sub <- _set_nested_config (default (Dict []) (dict_get d k)) (k2 :: keys) value;
        Ret (Dict (dict_set d k sub))
    | Leaf _ => Raise TypeError
    end.
Proof. reflexivity. Qed.

(** X25. Setting a nested key and reading it back. When
    [_set_nested_config] returns, the configuration is a dictionary in
    which the path [keys] leads to the value set, so that [get] with a
    dotted key that splits into [keys] returns it and not the default; and
    a path that leaves [keys] at some component with a different key reads
    as before. It raises [IndexError] for an empty list of keys, and
    [TypeError] exactly when the configuration holds a value that is not a
    dictionary at a proper prefix of [keys]. *)
Theorem set_nested_config_then_get (config : cval) (keys : list str) (value : cval) :
  match _set_nested_config config keys value with
  | Ret config' =>
      lookup_path config' keys = Some value
      /\ (forall key dflt, split "." key = keys -> get config' key dflt = value)
      /\ (forall common a b rest rest',
            keys = common ++ a :: rest -> a <> b ->
            lookup_path config' (common ++ b :: rest')
            = lookup_path config (common ++ b :: rest'))
      /\ forall pre suf x, keys = pre ++ suf -> suf <> [] ->
                           lookup_path config pre <> Some (Leaf x)
  | Raise err =>
      (keys = [] /\ err = IndexError)
      \/ (err = TypeError
          /\ exists pre suf x, keys = pre ++ suf /\ suf <> []
                               /\ lookup_path config pre = Some (Leaf x))
  end.
Proof.
  revert config. induction keys as [|k keys IH]; intros config.
  - simpl. left. by split.
  - destruct keys as [|k2 keys].
    + simpl. destruct config as [x|d].
      * right. split; [reflexivity|]. exists [], [k], x. by repeat split.
      * assert (Hget : lookup_path (Dict (dict_set d k value)) [k] = Some value).
        { simpl. by rewrite cfg_get_set_eq. }
        split; [exact Hget|]. split; [|split].
        -- intros key dflt Hk. unfold get. by rewrite Hk, Hget.
        -- intros common a b rest rest' Hk Hab.
           destruct common as [|c common]; simpl in Hk.
           ++ injection Hk as <- _. simpl. by rewrite cfg_get_set_ne.
           ++ injection Hk as _ Hk. by destruct common.
        -- intros pre suf x Hk Hsuf. destruct pre as [|p pre]; simpl; [discriminate|].
           simpl in Hk. injection Hk as _ Hk.
           destruct pre; simpl in Hk; [by subst suf|discriminate].
    + rewrite set_nested_config_step. destruct config as [x|d].
      * right. split; [reflexivity|]. exists [], (k :: k2 :: keys), x. by repeat split.
      * set (d1 := match dict_get d k with Some _ => d | None => dict_set d k (Dict []) end).
        set (sub := default (Dict []) (dict_get d1 k)).
        assert (Hd1 : dict_get d1 k = Some sub).
        { unfold sub, d1. destruct (dict_get d k) as [v|] eqn:Hg.
          - by rewrite Hg.
          - by rewrite cfg_get_set_eq. }
        assert (Hother : forall b, b <> k -> dict_get d1 b = dict_get d b).
        { intros b Hb. unfold d1. destruct (dict_get d k); [reflexivity|].
          by apply cfg_get_set_ne. }
        assert (Hsub : forall p, p <> [] \/ dict_get d k <> None ->
                   lookup_path sub p
                   = match dict_get d k with
                     | Some v => lookup_path v p
                     | None => None
                     end).
        { intros p Hp. unfold sub, d1. destruct (dict_get d k) as [v|] eqn:Hg.
          - by rewrite Hg.
          - rewrite cfg_get_set_eq. simpl. destruct Hp as [Hp|Hp]; [|congruence].
            destruct p; [congruence|reflexivity]. }
        specialize (IH sub). cbv zeta. fold d1. fold sub.
        destruct (_set_nested_config sub (k2 :: keys) value) as [sub'|err];
          cbn [obind].
        -- destruct IH as (IH1 & IH2 & IH3 & IH4).
           assert (Hget : lookup_path (Dict (dict_set d1 k sub')) (k :: k2 :: keys)
                          = Some value).
           { cbn [lookup_path]. rewrite cfg_get_set_eq. exact IH1. }
           split; [exact Hget|]. split; [|split].
           ++ intros key dflt Hk. unfold get. by rewrite Hk, Hget.
           ++ intros common a b rest rest' Hk Hab.
              destruct common as [|c common]; simpl in Hk.
              ** injection Hk as <- _. simpl.
                 rewrite cfg_get_set_ne by congruence. by rewrite Hother by congruence.
              ** injection Hk as <- Hk. simpl. rewrite cfg_get_set_eq.
                 rewrite (IH3 common a b rest rest' Hk Hab).
                 rewrite Hsub; [reflexivity|]. left. by destruct common.
           ++ intros pre suf x Hk Hsuf. destruct pre as [|p pre]; simpl; [discriminate|].
              simpl in Hk. injection Hk as <- Hk.
              destruct (dict_get d k) as [v|] eqn:Hg; [|discriminate].
              specialize (IH4 pre suf x Hk Hsuf).
              rewrite Hsub in IH4 by (right; congruence).
              first [exact IH4|by rewrite Hg in IH4].
        -- right. destruct IH as [[? _]|(-> & pre & suf & x & Hk & Hsuf & Hl)]; [discriminate|].
           split; [reflexivity|]. exists (k :: pre), suf, x.
           split; [by rewrite Hk|]. split; [exact Hsuf|]. simpl.
           destruct (dict_get d k) as [v|] eqn:Hg.
           ++ rewrite Hsub in Hl by (right; congruence).
              first [exact Hl|by rewrite Hg in Hl].
           ++ exfalso. unfold sub, d1 in Hl. try rewrite Hg in Hl.
              rewrite cfg_get_set_eq in Hl. simpl in Hl.
              destruct pre; simpl in Hl; discriminate.
Qed.


(** On success the path set leads to the value; the only failures are the
    empty key list and a [TypeError]. *)
Lemma set_nested_config_lookup (config : cval) (keys : list str) (value : cval) :
  match _set_nested_config config keys value with
  | Ret config' => lookup_path config' keys = Some value
  | Raise err => keys = [] \/ err = TypeError
  end.
Proof.
  revert config. induction keys as [|k keys IH]; intros config.
  - simpl. by left.
  - destruct keys as [|k2 keys].
    + simpl. destruct config as [x|d]; [by right|]. simpl. by rewrite cfg_get_set_eq.
    + rewrite set_nested_config_step. destruct config as [x|d]; [by right|]. cbv zeta.
      match goal with
      | |- context [_set_nested_config ?sub (k2 :: keys) value] => specialize (IH sub);
          destruct (_set_nested_config sub (k2 :: keys) value) as [sub'|err]
      end; cbn [obind].
      * cbn [lookup_path]. rewrite cfg_get_set_eq. exact IH.
      * right. by destruct IH.
Qed.


Lemma split_aux_no_sep (c : ascii) (s cur : str) :
  ~ In c cur -> Forall (fun part => ~ In c part) (split_aux c s cur).
Proof.
  revert cur. induction s as [|x s IH]; intros cur Hcur; simpl.
  - constructor; [|constructor]. by rewrite <- in_rev.
  - destruct (PyStr.ascii_eqb x c) eqn:E.
    + constructor; [by rewrite <- in_rev|]. apply IH. intros [].
    + apply IH. intros [->|H]; [|by apply Hcur].
      assert (PyStr.ascii_eqb c c = true) by (unfold PyStr.ascii_eqb; apply Nat.eqb_refl).
      congruence.
Qed.

Lemma split_aux_nonempty (c : ascii) (s cur : str) : split_aux c s cur <> [].
Proof.
  revert cur. induction s as [|x s IH]; intros cur; simpl; [discriminate|].
  destruct (PyStr.ascii_eqb x c); [discriminate|apply IH].
Qed.

(** X26. Overriding from the environment. A variable whose name does not
    start with [CCR_] changes nothing. A variable [CCR_<name>] sets the path
    obtained by lowering [<name>] and splitting it at the underscores:
    afterwards [get] with a dotted key that splits into the same parts
    returns the variable's value as a string. No part of such a path
    contains an underscore. The only exception it raises is [TypeError]. *)
Theorem env_override_then_get (config : cval) (name value : str) :
  match _override_from_env config [(py "CCR_" ++ name, value)] with
  | Ret config' =>
      forall key dflt,
        split "." key = split "_" (lower name) ->
        get config' key dflt = Leaf (VStr value)
  | Raise err => err = TypeError
  end
  /\ Forall (fun part => ~ In "_"%char part) (split "_" (lower name))
  /\ forall key, PyStr.startswith key (py "CCR_") = false ->
                 _override_from_env config [(key, value)] = Ret config.
Proof.
  split; [|split].
  - assert (Hsw : PyStr.startswith (py "CCR_" ++ name) (py "CCR_") = true).
    { cbn. by destruct name. }
    assert (Hskip : skipn 4 (py "CCR_" ++ name) = name) by reflexivity.
    unfold _override_from_env. rewrite Hsw, Hskip. cbv zeta.
    pose proof (set_nested_config_lookup config (split "_" (lower name)) (Leaf (VStr value)))
      as Hspec.
    destruct (_set_nested_config config (split "_" (lower name)) (Leaf (VStr value)))
      as [config'|err]; cbn [obind].
    + intros key dflt Hk. unfold get. by rewrite Hk, Hspec.
    + destruct Hspec as [Hnil| ->]; [|reflexivity].
      exfalso. by apply (split_aux_nonempty "_" (lower name) []).
  - apply split_aux_no_sep. intros [].
  - intros key Hkey. unfold _override_from_env. by rewrite Hkey.
Qed.

Lemma updated_value_dicts (u d : dict) :
  updated_value (Dict u) (Some (Dict d)) = Dict (_update_nested_dict d u).
Proof.
  simpl. f_equal. revert d. induction u as [|[k v] u IH]; intros d; simpl.
  - reflexivity.
  - apply IH.
Qed.

Lemma update_get_notin (u : dict) :
  forall (d : dict) (k : str),
    dict_get u k = None -> dict_get (_update_nested_dict d u) k = dict_get d k.
Proof.
  induction u as [|[k0 v0] u IH]; intros d k; simpl; [reflexivity|].
  destruct (decide (k0 = k)) as [->|Hne]; [discriminate|].
  intros Hk. rewrite (IH _ k Hk). by apply cfg_get_set_ne.
Qed.

Lemma cfg_get_None (d : dict) (k : str) : dict_get d k = None <-> k ∉ map fst d.
Proof.
  induction d as [|[k0 v0] d IH]; simpl.
  - split; [intros _ H; inversion H|reflexivity].
  - destruct (decide (k0 = k)) as [->|Hne].
    + split; [discriminate|]. intros H. exfalso. apply H. by left.
    + rewrite IH, not_elem_of_cons. split; [by split|by intros [_ H]].
Qed.

Lemma update_get_in (u : dict) :
  NoDup (map fst u) ->
  forall (d : dict) (k : str) (v : cval),
    dict_get u k = Some v ->
    dict_get (_update_nested_dict d u) k = Some (updated_value v (dict_get d k)).
Proof.
  induction u as [|[k0 v0] u IH]; intros Hnd d k v; simpl; [discriminate|].
  simpl in Hnd. apply NoDup_cons in Hnd as [Hnotin Hnd].
  destruct (decide (k0 = k)) as [->|Hne].
  - intros [= ->]. apply cfg_get_None in Hnotin.
    rewrite (update_get_notin u _ k Hnotin). apply cfg_get_set_eq.
  - intros Hk. rewrite (IH Hnd _ k v Hk). by rewrite cfg_get_set_ne.
Qed.

Lemma distinct_keys_get (d : dict) (k : str) (v : cval) :
  distinct_keys (Dict d) -> dict_get d k = Some v -> distinct_keys v.
Proof.
  intros [_ Hall]. induction d as [|[k0 v0] d IH]; simpl; [discriminate|].
  destruct Hall as [H0 Hall]. destruct (decide (k0 = k)); [by intros [= <-]|by apply IH].
Qed.

Lemma lookup_path_missing (v : cval) (pre rest : list str) (k : str) (u' : dict) :
  lookup_path v pre = Some (Dict u') -> dict_get u' k = None ->
  lookup_path v (pre ++ k :: rest) = None.
Proof.
  revert v. induction pre as [|a pre IH]; intros v; simpl.
  - intros [= ->] Hk. by rewrite Hk.
  - destruct v as [x|d]; [discriminate|].
    destruct (dict_get d a) as [va|]; [apply IH|discriminate].
Qed.

(** The settings of the update win. *)
Lemma update_leaf_wins (p : list str) :
  forall (d u : dict) (x : value),
    distinct_keys (Dict u) ->
    lookup_path (Dict u) p = Some (Leaf x) ->
    lookup_path (Dict (_update_nested_dict d u)) p = Some (Leaf x).
Proof.
  induction p as [|a p IH]; intros d u x Hwf; simpl; [discriminate|].
  destruct (dict_get u a) as [va|] eqn:Hua; [|discriminate].
  intros Hp. rewrite (update_get_in u (proj1 Hwf) d a va Hua).
  pose proof (distinct_keys_get u a va Hwf Hua) as Hva.
  destruct va as [y|u2]; [exact Hp|].
  destruct (dict_get d a) as [[z|d2]|]; try exact Hp.
  rewrite updated_value_dicts. by apply IH.
Qed.

(** What the update does not mention stays. *)
Lemma update_keeps_others (pre : list str) :
  forall (d u u' : dict) (k : str) (rest : list str),
    distinct_keys (Dict u) ->
    lookup_path (Dict u) pre = Some (Dict u') ->
    dict_get u' k = None ->
    lookup_path (Dict (_update_nested_dict d u)) (pre ++ k :: rest)
    = lookup_path (Dict d) (pre ++ k :: rest).
Proof.
  induction pre as [|a pre IH]; intros d u u' k rest Hwf; simpl.
  - intros [= <-] Hk. by rewrite (update_get_notin u d k Hk).
  - destruct (dict_get u a) as [va|] eqn:Hua; [|discriminate].
    intros Hpre Hk. rewrite (update_get_in u (proj1 Hwf) d a va Hua).
    pose proof (distinct_keys_get u a va Hwf Hua) as Hva.
    destruct va as [y|u2]; [by destruct pre|].
    destruct (dict_get d a) as [[z|d2]|].
    + cbn [updated_value]. rewrite (lookup_path_missing _ _ _ _ _ Hpre Hk).
      by destruct pre.
    + rewrite updated_value_dicts. by eapply IH.
    + cbn [updated_value]. by rewrite (lookup_path_missing _ _ _ _ _ Hpre Hk).
Qed.

(** X27. Merging a custom configuration into the default one. With
    [_update_nested_dict], every setting of the custom configuration is read
    back from the result, and every path of the default configuration that
    the custom one does not mention (it leaves the custom tree at a
    dictionary that lacks the next key) reads as before: sections are merged
    key by key, not replaced as a whole. *)
Theorem update_nested_dict_merges (d u : dict) :
  distinct_keys (Dict u) ->
  (forall p x, lookup_path (Dict u) p = Some (Leaf x) ->
               lookup_path (Dict (_update_nested_dict d u)) p = Some (Leaf x))
  /\ (forall pre u' k rest,
        lookup_path (Dict u) pre = Some (Dict u') ->
        dict_get u' k = None ->
        lookup_path (Dict (_update_nested_dict d u)) (pre ++ k :: rest)
        = lookup_path (Dict d) (pre ++ k :: rest)).
Proof.
  intros Hwf. split.
  - intros p x. by apply update_leaf_wins.
  - intros pre u' k rest. by apply update_keeps_others.
Qed.

End ConfigPaths.

Lemma update_nested_dict_merges_witness :
  (forall p x, Config.lookup_path (Config.Dict custom_settings) p = Some (Config.Leaf x) ->
               Config.lookup_path
                 (Config.Dict (Config._update_nested_dict default_settings custom_settings)) p
               = Some (Config.Leaf x))
  /\ (forall pre u' k rest,
        Config.lookup_path (Config.Dict custom_settings) pre = Some (Config.Dict u') ->
        Config.dict_get u' k = None ->
        Config.lookup_path
          (Config.Dict (Config._update_nested_dict default_settings custom_settings))
          (pre ++ k :: rest)
        = Config.lookup_path (Config.Dict default_settings) (pre ++ k :: rest)).
Proof.
  apply (update_nested_dict_merges default_settings custom_settings).
  simpl. repeat split; try apply NoDup_singleton; apply NoDup_nil_2.
Defined.

(** ** Matching positions, and how Markdown sections tile the file *)

Section MatchPositions.

Import Re.

Lemma advance_refl (c : cursor) : advance c c.
Proof. by exists []. Qed.

Lemma advance_trans (c1 c2 c3 : cursor) : advance c1 c2 -> advance c2 c3 -> advance c1 c3.
Proof.
  intros (w1 & Hb1 & Ha1) (w2 & Hb2 & Ha2). exists (w1 ++ w2).
  rewrite Hb2, Hb1, Ha1, Ha2, rev_app_distr, <- !app_assoc. by split.
Qed.

Lemma advance_pos (c c' : cursor) :
  advance c c' ->
  pos_of c <= pos_of c'
  /\ rev (before c') ++ after c' = rev (before c) ++ after c.
Proof.
  intros (w & Hb & Ha). unfold pos_of. rewrite Hb, Ha, length_app.
  split; [lia|]. by rewrite rev_app_distr, rev_involutive, <- app_assoc.
Qed.

(** The matcher hands its continuation a cursor further on in the same
    subject. *)
Lemma rmatch_advance {A : Type} (r : re) :
  forall (k : cursor -> caps -> option A) (c : cursor) (g : caps) (a : A),
    rmatch r k c g = Some a ->
    exists c' g', advance c c' /\ k c' g' = Some a.
Proof.
  induction r as [|p|r1 IH1 r2 IH2|r1 IH1 r2 IH2|greedy r1 IH1|n r1 IH1| |];
    intros k c g a; simpl.
  - intros H. exists c, g. split; [apply advance_refl|exact H].
  - destruct (after c) as [|x xs] eqn:Ha; [discriminate|].
    destruct (p x); [|discriminate]. intros H.
    eexists _, g. split; [|exact H]. exists [x]. simpl. by split.
  - intros H. apply IH1 in H as (c1 & g1 & Hadv1 & H).
    apply IH2 in H as (c2 & g2 & Hadv2 & H).
    exists c2, g2. split; [by eapply advance_trans|exact H].
  - destruct (rmatch r1 k c g) as [a1|] eqn:H1.
    + intros [= <-]. by apply IH1 in H1.
    + apply IH2.
  - generalize (length (after c)). intros n. revert c g a.
    induction n as [|n IHn]; intros c g a.
    + destruct greedy; simpl.
      * intros H. exists c, g. split; [apply advance_refl|exact H].
      * destruct (k c g) as [a1|] eqn:Hk; [|discriminate].
        intros [= <-]. exists c, g. split; [apply advance_refl|exact Hk].
    + assert (Hmore : forall a0,
                 rmatch r1
                   (fun c' g' =>
                      if length (after c') <? length (after c)
                      then (fix loop (n : nat) (c : cursor) (g : caps) {struct n} : option A :=
                              let more (_ : unit) :=
                                match n with
                                | O => None
                                | S n' =>
                                    rmatch r1
                                      (fun c' g' =>
                                         if length (after c') <? length (after c)
                                         then loop n' c' g' else None)
                                      c g
                                end in
                              if greedy then
                                match more tt with
                                | Some a => Some a
                                | None => k c g
                                end
                              else
                                match k c g with
                                | Some a => Some a
                                | None => more tt
                                end) n c' g'
                      else None) c g = Some a0 ->
                 exists c' g', advance c c' /\ k c' g' = Some a0).
      { intros a0 H. apply IH1 in H as (c1 & g1 & Hadv1 & H).
        destruct (length (after c1) <? length (after c)); [|discriminate].
        apply IHn in H as (c2 & g2 & Hadv2 & H).
        exists c2, g2. split; [by eapply advance_trans|exact H]. }
      destruct greedy; cbn beta iota zeta.
      * match goal with
        | |- match ?m with _ => _ end = _ -> _ => destruct m as [a1|] eqn:Hm
        end.
        -- intros [= <-]. by apply Hmore.
        -- intros H. exists c, g. split; [apply advance_refl|exact H].
      * destruct (k c g) as [a1|] eqn:Hk.
        -- intros [= <-]. exists c, g. split; [apply advance_refl|exact Hk].
        -- apply Hmore.
  - intros H. apply IH1 in H as (c1 & g1 & Hadv1 & H). eauto.
  - destruct (before c) as [|x xs].
    + intros H. exists c, g. split; [apply advance_refl|exact H].
    + destruct (PyStr.is_nl x); [|discriminate].
      intros H. exists c, g. split; [apply advance_refl|exact H].
  - destruct (after c) as [|x xs].
    + intros H. exists c, g. split; [apply advance_refl|exact H].
    + destruct (PyStr.is_nl x); [|discriminate].
      intros H. exists c, g. split; [apply advance_refl|exact H].
Qed.

Lemma match_at_spec (r : re) (c c' : cursor) (m : mobj) :
  match_at r c = Some (m, c') ->
  advance c c' /\ m_start m = pos_of c /\ m_end m = pos_of c'.
Proof.
  unfold match_at. intros H. apply rmatch_advance in H as (c1 & g1 & Hadv & H).
  injection H as <- <-. by repeat split.
Qed.

(** A match found by a search from a position lies at or after it, inside
    the subject. *)
Lemma search_from_spec (r : re) (aft : str) :
  forall (bef : str) (m : mobj) (c' : cursor),
    search_from r bef aft = Some (m, c') ->
    length bef <= m_start m /\ m_start m <= m_end m /\ m_end m = pos_of c'
    /\ rev (before c') ++ after c' = rev bef ++ aft.
Proof.
  induction aft as [|x aft IH]; intros bef m c'; simpl.
  - destruct (match_at r {| before := bef; after := [] |}) as [[m0 c0]|] eqn:Hm;
      [|discriminate].
    intros [= <- <-]. apply match_at_spec in Hm as (Hadv & Hs & He).
    apply advance_pos in Hadv as [Hle Hsubj]. unfold pos_of in *. simpl in *.
    repeat split; auto; lia.
  - destruct (match_at r {| before := bef; after := x :: aft |}) as [[m0 c0]|] eqn:Hm.
    + intros [= <- <-]. apply match_at_spec in Hm as (Hadv & Hs & He).
      apply advance_pos in Hadv as [Hle Hsubj]. unfold pos_of in *. simpl in *.
      repeat split; auto; lia.
    + intros H. apply IH in H as (H1 & H2 & H3 & H4). simpl in H1, H4.
      repeat split; auto; try lia. by rewrite H4, <- app_assoc.
Qed.

(** The matches of [finditer] come in order of position and do not
    overlap. *)
Lemma finditer_from_spec (r : re) (fuel : nat) :
  forall (c : cursor),
    Forall (fun m => pos_of c <= m_start m
                     /\ m_start m <= length (before c) + length (after c))
      (finditer_from fuel r c)
    /\ StronglySorted (fun m1 m2 => m_start m1 <= m_start m2) (finditer_from fuel r c).
Proof.
  induction fuel as [|fuel IH]; intros c; simpl; [split; constructor|].
  destruct (search_from r (before c) (after c)) as [[m c']|] eqn:Hs; [|split; constructor].
  apply search_from_spec in Hs as (H1 & H2 & H3 & H4).
  assert (Hlen : length (before c') + length (after c') = length (before c) + length (after c)).
  { apply (f_equal (@length ascii)) in H4. rewrite !length_app, !length_rev in H4. exact H4. }
  assert (Hm : pos_of c <= m_start m /\ m_start m <= length (before c) + length (after c)).
  { unfold pos_of in *. split; lia. }
  assert (Hnext : forall c2,
             pos_of c' <= pos_of c2 ->
             length (before c2) + length (after c2) = length (before c) + length (after c) ->
             Forall (fun m0 => pos_of c <= m_start m0
                               /\ m_start m0 <= length (before c) + length (after c))
               (m :: finditer_from fuel r c2)
             /\ StronglySorted (fun m1 m2 => m_start m1 <= m_start m2)
                  (m :: finditer_from fuel r c2)).
  { intros c2 Hpos Hlen2. destruct (IH c2) as [HF HS]. split.
    - constructor; [exact Hm|]. eapply Forall_impl; [exact HF|].
      intros m0 [Ha Hb]. unfold pos_of in *. simpl in *. split; lia.
    - constructor; [exact HS|]. eapply Forall_impl; [exact HF|].
      intros m0 [Ha _]. unfold pos_of in *. lia. }
  destruct (m_end m =? m_start m).
  - destruct (after c') as [|x xs] eqn:Ha.
    + split; [constructor; [exact Hm|constructor]|]. constructor; constructor.
    + apply Hnext; unfold pos_of; simpl in *; lia.
  - apply Hnext; [lia|exact Hlen].
Qed.

End MatchPositions.

Section MarkdownTiling.

Import MarkdownExtractor.

Lemma sections_of_concat (text : str) (headings : list Re.mobj) :
  StronglySorted (fun m1 m2 => Re.m_start m1 <= Re.m_start m2) headings ->
  Forall (fun m => Re.m_start m <= length text) headings ->
  concat (map content (sections_of text headings))
  = match headings with
    | [] => []
    | m :: _ => skipn (Re.m_start m) text
    end.
Proof.
  induction 1 as [|m rest Hsorted IH Hle]; intros Hbound; [reflexivity|].
  apply Forall_cons in Hbound as [Hm Hrest]. simpl. rewrite (IH Hrest).
  destruct rest as [|m' rest'].
  - rewrite app_nil_r. unfold PyStr.slice.
    apply firstn_all2. rewrite length_skipn. lia.
  - apply Forall_cons in Hle as [Hmm' _]. unfold PyStr.slice.
    replace (skipn (Re.m_start m') text)
      with (skipn (Re.m_start m' - Re.m_start m) (skipn (Re.m_start m) text)).
    + apply firstn_skipn.
    + change (@skipn) with (@drop). rewrite drop_drop. f_equal. lia.
Qed.

(** X28. Markdown sections tile the file. The sections of
    [_split_by_headings] are never an empty list; one after the other, their
    contents make up the text from its first heading to its end, without
    gap or overlap, and there is one section per heading found. Without a
    heading the single section [Document] holds the whole text; otherwise
    the text before the first heading belongs to no section. *)
Theorem md_sections_tile (text : str) :
  _split_by_headings text <> []
  /\ match Re.finditer heading_pattern text with
     | [] => _split_by_headings text = [ {| heading := py "Document"; content := text |} ]
     | m :: rest =>
         length (_split_by_headings text) = length (m :: rest)
         /\ Re.m_start m <= length text
         /\ text = firstn (Re.m_start m) text ++ concat (map content (_split_by_headings text))
     end.
Proof.
  unfold _split_by_headings.
  destruct (finditer_from_spec heading_pattern (S (length text))
              {| Re.before := []; Re.after := text |}) as [HF HS].
  fold (Re.finditer heading_pattern text) in HF, HS.
  destruct (Re.finditer heading_pattern text) as [|m rest] eqn:Hfind.
  - split; [discriminate|reflexivity].
  - assert (Hbound : Forall (fun m0 => Re.m_start m0 <= length text) (m :: rest)).
    { eapply Forall_impl; [exact HF|]. intros m0 [_ H]. simpl in H. exact H. }
    split; [discriminate|]. split; [|split].
    + clear. generalize (m :: rest). intros l. induction l as [|x l IH]; simpl; [reflexivity|].
      by rewrite IH.
    + by apply Forall_cons in Hbound as [H _].
    + rewrite (sections_of_concat text (m :: rest) HS Hbound). symmetry. apply firstn_skipn.
Qed.

End MarkdownTiling.

(** ** Vector index: the FAISS branch under the L2 metric *)

Section FaissL2.

Variable FAISS_AVAILABLE : bool.
Variable index_search : VectorIndex.faiss_index -> vec -> Z -> outcome (list (R * Z)).

Import VectorIndex.

Local Abbreviation search := (VectorIndex.search FAISS_AVAILABLE index_search).



End FaissL2.

